(** * PeerDB flow engine

    A shallow embedding of four parts of the PeerDB flow code base together
    with the properties its design document states about them:

    - [ClickHouse]: [NormalizeRecords] of the ClickHouse connector
      (flow/connectors/clickhouse/normalize.go);
    - [BigQuery]: the merge statement generator of the BigQuery connector
      (flow/connectors/bigquery/merge_stmt_generator.go);
    - [PeerSQL]: [toQValue] and [toQValueArray] of the generic SQL query
      executor (flow/connectors/sql/query_executor.go);
    - [QRep]: the query replication workflows [QRepFlowWorkflow] and
      [XminFlowWorkflow].

    Around them: [ClickHouseSetup], the set-up of a normalized ClickHouse
    table; [BigQueryQRep], the schema delta of a query replication into
    BigQuery; [PeerSQLRows], the row reader [processRows] of the query
    executor; and [MergeRun], the generated MERGE statement as data and
    its evaluation over a raw table and a destination table.

    Go values are modelled as the code has them: [int64] and [int] as [Z]
    with two's complement wrap-around written out, strings as byte strings,
    maps as [gmap], slices as lists, [(T, error)] results and run-time panics
    as an [outcome]. *)

From Stdlib Require Import ZArith String Ascii List Lia DecimalString DecimalZ DecimalPos Bool.
From stdpp Require Import gmap strings list.

Set Default Proof Using "Type".

(** ** Results of Go calls *)

(** A Go call returns a value, returns an error, or panics at run time
    (nil dereference, failed unchecked type assertion, division by zero). *)
Inductive outcome (E A : Type) : Type :=
| Ok (a : A)
| Err (e : E)
| Panic.
Arguments Ok {E A} a.
Arguments Err {E A} e.
Arguments Panic {E A}.

(** ** Go runtime and standard library pieces used by the code *)
Module Go.

Local Open Scope Z_scope.

Definition min_int64 : Z := - 2 ^ 63.
Definition max_int64 : Z := 2 ^ 63 - 1.

Definition in_int64 (z : Z) : Prop := min_int64 <= z <= max_int64.

(** Two's complement wrap-around of a 64-bit signed integer. *)
Definition wrap64 (z : Z) : Z := (z + 2 ^ 63) mod 2 ^ 64 - 2 ^ 63.

Definition add64 (a b : Z) : Z := wrap64 (a + b).

(** Integer division truncates toward zero and panics on a zero divisor. *)
Definition div64 (a b : Z) : option Z :=
  if b =? 0 then None else Some (wrap64 (Z.quot a b)).

(** [strconv.FormatInt(z, 10)] and the [%d] verb. *)
Definition FormatInt (z : Z) : string := NilZero.string_of_int (Z.to_int z).

(** [strings.Join(elems, sep)]. *)
Definition Join (elems : list string) (sep : string) : string :=
  String.concat sep elems.

(** [strings.Split(s, ",")]: the fields of [s] between commas; the empty
    string has one empty field. *)
Fixpoint SplitComma (s : string) : list string :=
  match s with
  | EmptyString => [EmptyString]
  | String a rest =>
      match SplitComma rest with
      | [] => [String a EmptyString]
      | field :: fields =>
          if Ascii.eqb a ","%char then EmptyString :: field :: fields
          else String a field :: fields
      end
  end.

(** [strings.HasPrefix(s, prefix)]. *)
Definition HasPrefix (s prefix : string) : bool := String.prefix prefix s.

Definition newline : string := String (ascii_of_nat 10) EmptyString.
Definition tab : string := String (ascii_of_nat 9) EmptyString.

End Go.

(** ** Messages of the generated protos package, with the fields the code reads *)
Module Protos.

Record FieldDescription := {
  fd_Name : string;
  fd_Type : string;
  fd_TypeModifier : Z
}.

Record TableSchema := {
  Columns : list FieldDescription;
  PrimaryKeyColumns : list string
}.

Record PeerDBColumns := {
  SoftDeleteColName : string;
  SyncedAtColName : string;
  SoftDelete : bool
}.

End Protos.

(** ** ClickHouse connector: NormalizeRecords *)
Module ClickHouse.

Import Go Protos.
Local Open Scope string_scope.
Local Open Scope Z_scope.

Definition signColName : string := "_peerdb_is_deleted".
Definition signColType : string := "Int8".
Definition versionColName : string := "_peerdb_version".
Definition versionColType : string := "Int64".

(** [model.NormalizeRecordsRequest] and [model.NormalizeResponse]. *)
Record NormalizeRecordsRequest := {
  FlowJobName : string;
  SyncBatchID : Z;
  TableNameSchemaMapping : gmap string TableSchema
}.

Record NormalizeResponse := {
  Done : bool;
  StartBatchID : Z;
  EndBatchID : Z
}.

(** One row of the raw table, with the columns the queries mention. *)
Record RawRecord := {
  raw_batch_id : Z;
  raw_destination_table_name : option string;
  raw_data : string;
  raw_record_type : Z;
  raw_timestamp : Z
}.

#[global] Instance RawRecord_eq_dec : EqDecision RawRecord.
Proof. solve_decision. Defined.

(** The stores the connector talks to: the catalog's batch counters
    ([c.pgMetadata]), the raw tables and the normalized tables of the
    ClickHouse database ([c.database]), and the statements the database
    has accepted. A normalized table is represented by the raw rows
    projected into it. *)
Record Connector := {
  pgMetadata : gmap string Z;
  rawTables : gmap string (list RawRecord);
  normalizedTables : gmap string (list RawRecord);
  executed : list string
}.

(** Which of the calls to the outside fail during one invocation:
    reading the stored batch id, the query for the table names, the
    [rows.Scan] of the i-th row of its reply, the iteration of the reply
    ([fail_rows] is the number of rows delivered before [rows.Next]
    stops on an error that [rows.Err] then reports), the statement of a
    table, and the update of the stored batch id. *)
Record Faults := {
  fail_get : bool;
  fail_distinct : bool;
  fail_scan : nat -> bool;
  fail_rows : option nat;
  fail_exec : string -> bool;
  fail_update : bool
}.

Definition no_faults : Faults :=
  {| fail_get := false; fail_distinct := false;
     fail_scan := fun _ => false; fail_rows := None;
     fail_exec := fun _ => false; fail_update := false |}.

Inductive NormalizeError :=
| ErrGetLastNormalizeBatchID
| ErrDistinctTableNames
| ErrScanTableName
| ErrTableNameNotValid
| ErrReadRows
| ErrColumnType (kind : string)
| ErrInsert (tbl : string)
| ErrUpdateNormalizeBatchID.

Definition result := outcome NormalizeError.

(** The predicate of the WHERE clause
    [_peerdb_batch_id > normalizeBatchID AND _peerdb_batch_id <= syncBatchID]. *)
Definition in_batch_range (normalizeBatchID syncBatchID : Z) (r : RawRecord) : Prop :=
  normalizeBatchID < raw_batch_id r /\ raw_batch_id r <= syncBatchID.

#[global] Instance in_batch_range_dec n s r : Decision (in_batch_range n s r).
Proof. unfold in_batch_range. apply _. Defined.

Section Connector.

(** [c.getRawTableName] and [qValueKindToClickhouseType] live in files of
    the connector that are not part of this development. *)
Variable getRawTableName : string -> string.
Variable qValueKindToClickhouseType : string -> option string.

(** Modelled from the spec: [c.pgMetadata.GetLastNormalizeBatchID] of the
    external metadata store, which is missing from the sources. It is
    the "get BatchCounters(flow)" of the destination connector
    interface: it reads the persisted counter of the flow; a flow
    without a persisted counter cannot be read. *)
Definition pgMetadata_GetLastNormalizeBatchID
    (f : Faults) (c : Connector) (flowJobName : string) : result Z :=
  if fail_get f then Err ErrGetLastNormalizeBatchID
  else match pgMetadata c !! flowJobName with
       | Some id => Ok id
       | None => Err ErrGetLastNormalizeBatchID
       end.

(** Modelled from the spec: [c.pgMetadata.UpdateNormalizeBatchID] of the
    external metadata store, which is missing from the sources. It is
    the "set BatchCounters(flow)" of the destination connector
    interface: it persists the given counter for the flow. *)
Definition pgMetadata_UpdateNormalizeBatchID
    (f : Faults) (c : Connector) (flowJobName : string) (id : Z) : result Connector :=
  if fail_update f then Err ErrUpdateNormalizeBatchID
  else Ok {| pgMetadata := <[flowJobName := id]> (pgMetadata c);
             rawTables := rawTables c;
             normalizedTables := normalizedTables c;
             executed := executed c |}.

Definition GetLastNormalizeBatchID
    (f : Faults) (c : Connector) (flowJobName : string) : result Z :=
  match pgMetadata_GetLastNormalizeBatchID f c flowJobName with
  | Ok normalizeBatchID => Ok normalizeBatchID
  | Err e => Err e
  | Panic => Panic
  end.

(** The rows of the raw table a statement with the WHERE clause above
    reads. *)
Definition rows_in_batch (raw : list RawRecord) (normalizeBatchID syncBatchID : Z)
    : list RawRecord :=
  filter (in_batch_range normalizeBatchID syncBatchID) raw.

(** The reply to the SELECT DISTINCT of [getDistinctTableNamesInBatch]:
    the destination table names of the rows in range, a NULL name as
    [None]. *)
Definition distinctTableNames (raw : list RawRecord) (normalizeBatchID syncBatchID : Z)
    : list (option string) :=
  remove_dups (map raw_destination_table_name
                 (rows_in_batch raw normalizeBatchID syncBatchID)).

(** The rows [rows.Next] delivers before it answers false. *)
Definition deliveredRows {A : Type} (f : Faults) (reply : list A) : list A :=
  match fail_rows f with
  | Some delivered => take delivered reply
  | None => reply
  end.

(** The [rows.Next] loop of [getDistinctTableNamesInBatch], from the
    [i]-th row on: the row is scanned, then checked for a NULL name. *)
Fixpoint scanTableNames (f : Faults) (i : nat) (rows : list (option string))
    (tableNames : list string) : result (list string) :=
  match rows with
  | [] => Ok tableNames
  | tableName :: rest =>
      if fail_scan f i then Err ErrScanTableName
      else match tableName with
           | None => Err ErrTableNameNotValid
           | Some tableName =>
               scanTableNames f (S i) rest (tableNames ++ [tableName])%list
           end
  end.

Definition getDistinctTableNamesInBatch
    (f : Faults) (c : Connector) (flowJobName : string)
    (syncBatchID normalizeBatchID : Z) : result (list string) :=
  if fail_distinct f then Err ErrDistinctTableNames
  else match rawTables c !! getRawTableName flowJobName with
       | None => Err ErrDistinctTableNames
       | Some raw =>
           let reply := distinctTableNames raw normalizeBatchID syncBatchID in
           match scanTableNames f 0 (deliveredRows f reply) [] with
           | Ok tableNames =>
               (* err = rows.Err() *)
               match fail_rows f with
               | Some _ => Err ErrReadRows
               | None => Ok tableNames
               end
           | Err e => Err e
           | Panic => Panic
           end
       end.

(** The projection of one column, by its ClickHouse type. *)
Definition columnProjection (cn clickhouseType : string) : string :=
  if String.eqb clickhouseType "Date" then
    "toDate(parseDateTime64BestEffortOrNull(JSONExtractString(_peerdb_data, '"
      ++ cn ++ "'))) AS `" ++ cn ++ "`,"
  else if String.eqb clickhouseType "DateTime64(6)" then
    "parseDateTime64BestEffortOrNull(JSONExtractString(_peerdb_data, '"
      ++ cn ++ "')) AS `" ++ cn ++ "`,"
  else
    "JSONExtract(_peerdb_data, '" ++ cn ++ "', '" ++ clickhouseType
      ++ "') AS `" ++ cn ++ "`,".

(** The loop over [schema.Columns]: it extends [colSelector] and
    [projection], and stops at the first column type without a
    ClickHouse type. *)
Fixpoint buildColumns (columns : list FieldDescription)
    (colSelector projection : string) : result (string * string) :=
  match columns with
  | [] => Ok (colSelector, projection)
  | column :: rest =>
      let cn := fd_Name column in
      let ct := fd_Type column in
      let colSelector := colSelector ++ "`" ++ cn ++ "`," in
      match qValueKindToClickhouseType ct with
      | None => Err (ErrColumnType ct)
      | Some clickhouseType =>
          buildColumns rest colSelector
            (projection ++ columnProjection cn clickhouseType)
      end
  end.

(** The INSERT INTO ... SELECT statement for one destination table. *)
Definition insertIntoSelectQuery
    (rawTbl tbl : string) (schema : TableSchema) (normBatchID syncBatchID : Z)
    : result string :=
  match buildColumns (Columns schema) "(" EmptyString with
  | Ok (colSelector, projection) =>
      let projection :=
        projection ++ "intDiv(_peerdb_record_type, 2) AS `" ++ signColName ++ "`," in
      let colSelector := colSelector ++ "`" ++ signColName ++ "`," in
      let projection := projection ++ "_peerdb_timestamp AS `" ++ versionColName ++ "`" in
      let colSelector := colSelector ++ versionColName ++ ") " in
      let selectQuery :=
        "SELECT " ++ projection ++ " FROM " ++ rawTbl
          ++ " WHERE _peerdb_batch_id > " ++ FormatInt normBatchID
          ++ " AND _peerdb_batch_id <= " ++ FormatInt syncBatchID
          ++ " AND _peerdb_destination_table_name = '" ++ tbl ++ "'"
          ++ " ORDER BY _peerdb_timestamp" in
      Ok ("INSERT INTO " ++ tbl ++ colSelector ++ selectQuery)
  | Err e => Err e
  | Panic => Panic
  end.

(** The rows the SELECT of that statement reads from the raw table. *)
Definition selectedRows (raw : list RawRecord) (tbl : string)
    (normBatchID syncBatchID : Z) : list RawRecord :=
  filter (fun r => raw_destination_table_name r = Some tbl)
         (rows_in_batch raw normBatchID syncBatchID).

(** [c.database.ExecContext(ctx, q)] for the statement of table [tbl]:
    the selected rows are appended to the destination table. *)
Definition ExecInsertSelect
    (f : Faults) (c : Connector) (q rawTbl tbl : string)
    (normBatchID syncBatchID : Z) : result Connector :=
  if fail_exec f tbl then Err (ErrInsert tbl)
  else match rawTables c !! rawTbl with
       | None => Err (ErrInsert tbl)
       | Some raw =>
           Ok {| pgMetadata := pgMetadata c;
                 rawTables := rawTables c;
                 normalizedTables :=
                   <[tbl := (default [] (normalizedTables c !! tbl)
                              ++ selectedRows raw tbl normBatchID syncBatchID)%list]>
                     (normalizedTables c);
                 executed := (executed c ++ [q])%list |}
       end.

(** The loop over [destinationTableNames]. The connector is returned
    with the writes made so far, also when a later table fails. *)
Fixpoint normalizeTables
    (f : Faults) (req : NormalizeRecordsRequest) (rawTbl : string)
    (normBatchID : Z) (destinationTableNames : list string) (c : Connector)
    : Connector * result unit :=
  match destinationTableNames with
  | [] => (c, Ok tt)
  | tbl :: rest =>
      match TableNameSchemaMapping req !! tbl with
      | None => (c, Panic)
      | Some schema =>
          match insertIntoSelectQuery rawTbl tbl schema normBatchID (SyncBatchID req) with
          | Ok q =>
              match ExecInsertSelect f c q rawTbl tbl normBatchID (SyncBatchID req) with
              | Ok c' => normalizeTables f req rawTbl normBatchID rest c'
              | Err e => (c, Err e)
              | Panic => (c, Panic)
              end
          | Err e => (c, Err e)
          | Panic => (c, Panic)
          end
      end
  end.

Definition NormalizeRecords
    (f : Faults) (c : Connector) (req : NormalizeRecordsRequest)
    : Connector * result NormalizeResponse :=
  match GetLastNormalizeBatchID f c (FlowJobName req) with
  | Err e => (c, Err e)
  | Panic => (c, Panic)
  | Ok normBatchID =>
      (* normalize has caught up with sync *)
      if SyncBatchID req <=? normBatchID then
        (c, Ok {| Done := false;
                  StartBatchID := normBatchID;
                  EndBatchID := SyncBatchID req |})
      else
        match getDistinctTableNamesInBatch f c (FlowJobName req)
                (SyncBatchID req) normBatchID with
        | Err e => (c, Err e)
        | Panic => (c, Panic)
        | Ok destinationTableNames =>
            let rawTbl := getRawTableName (FlowJobName req) in
            match normalizeTables f req rawTbl normBatchID destinationTableNames c with
            | (c1, Err e) => (c1, Err e)
            | (c1, Panic) => (c1, Panic)
            | (c1, Ok _) =>
                let endNormalizeBatchId := add64 normBatchID 1 in
                match pgMetadata_UpdateNormalizeBatchID f c1 (FlowJobName req)
                        endNormalizeBatchId with
                | Err e => (c1, Err e)
                | Panic => (c1, Panic)
                | Ok c2 =>
                    (c2, Ok {| Done := true;
                               StartBatchID := endNormalizeBatchId;
                               EndBatchID := SyncBatchID req |})
                end
            end
        end
  end.

(** The rows of a normalized table; a table never written is empty. *)
Definition tableRows (c : Connector) (tbl : string) : list RawRecord :=
  default [] (normalizedTables c !! tbl).

(** [c'] has the raw tables of [c], and every normalized table of [c']
    is the one of [c] followed by rows whose batch id lies in the
    half-open range (normalizeBatchID, syncBatchID]. *)
Definition appendsInRange (normalizeBatchID syncBatchID : Z) (c c' : Connector) : Prop :=
  rawTables c' = rawTables c
  /\ forall tbl, exists added,
       tableRows c' tbl = (tableRows c tbl ++ added)%list
       /\ Forall (in_batch_range normalizeBatchID syncBatchID) added.

(** A property of every invocation of a sequence: [P c f req c'] for the
    connector [c] before and [c'] after the invocation. *)
Fixpoint eachInvocation
    (P : Connector -> Faults -> NormalizeRecordsRequest -> Connector -> Prop)
    (c : Connector) (invocations : list (Faults * NormalizeRecordsRequest)) : Prop :=
  match invocations with
  | [] => True
  | (f, req) :: rest =>
      let c' := fst (NormalizeRecords f c req) in
      P c f req c' /\ eachInvocation P c' rest
  end.

(** The requested sync batch ids never decrease and start at or above
    [lo]. *)
Fixpoint syncIdsFrom (lo : Z) (invocations : list (Faults * NormalizeRecordsRequest))
    : Prop :=
  match invocations with
  | [] => True
  | (_, req) :: rest => lo <= SyncBatchID req /\ syncIdsFrom (SyncBatchID req) rest
  end.

End Connector.

End ClickHouse.

(** ** Value kinds of the qvalue package *)
Module QValueKinds.

(** [qvalue.QValueKind] is a string type. The constants the code names are
    declared in a file that is not part of this development, so a kind is
    one of the named constants or any other string. *)
Inductive QValueKind :=
| QValueKindInt32 | QValueKindInt64
| QValueKindFloat32 | QValueKindFloat64
| QValueKindQChar | QValueKindString | QValueKindBoolean
| QValueKindTimestamp | QValueKindTimestampTZ | QValueKindDate
| QValueKindTime | QValueKindTimeTZ
| QValueKindNumeric | QValueKindBytes | QValueKindBit
| QValueKindUUID | QValueKindJSON | QValueKindHStore
| QValueKindGeography | QValueKindGeometry | QValueKindPoint
| QValueKindArrayFloat32 | QValueKindArrayFloat64
| QValueKindArrayInt16 | QValueKindArrayInt32 | QValueKindArrayInt64
| QValueKindArrayString | QValueKindArrayBoolean
| QValueKindArrayTimestamp | QValueKindArrayTimestampTZ | QValueKindArrayDate
| QValueKindOther (name : string).

#[global] Instance QValueKind_eq_dec : EqDecision QValueKind.
Proof. solve_decision. Defined.

End QValueKinds.

(** ** BigQuery connector: the merge statement generator *)
Module BigQuery.

Import Go Protos QValueKinds.
Local Open Scope string_scope.
Local Open Scope Z_scope.

Record datasetTable := {
  project : string;
  dataset : string;
  table : string
}.

Record mergeStmtGenerator := {
  (* dataset + raw table *)
  rawDatasetTable : datasetTable;
  (* destination table name, used to retrieve records from raw table *)
  dstTableName : string;
  (* dataset + destination table *)
  dstDatasetTable : datasetTable;
  (* last synced batchID *)
  syncBatchID : Z;
  (* last normalized batchID *)
  normalizeBatchID : Z;
  (* the schema of the table to merge into *)
  normalizedTableSchema : TableSchema;
  (* _PEERDB_IS_DELETED and _SYNCED_AT columns *)
  peerdbCols : PeerDBColumns;
  (* map for shorter columns *)
  shortColumn : gmap string string
}.

(** [m.shortColumn[name]]: a missing key reads as the empty string. *)
Definition shortColumnOf (m : mergeStmtGenerator) (name : string) : string :=
  default EmptyString (shortColumn m !! name).

Definition with_shortColumn (m : mergeStmtGenerator) (sc : gmap string string)
    : mergeStmtGenerator :=
  {| rawDatasetTable := rawDatasetTable m;
     dstTableName := dstTableName m;
     dstDatasetTable := dstDatasetTable m;
     syncBatchID := syncBatchID m;
     normalizeBatchID := normalizeBatchID m;
     normalizedTableSchema := normalizedTableSchema m;
     peerdbCols := peerdbCols m;
     shortColumn := sc |}.

(** [bigquery.FloatFieldType] of the BigQuery client library. *)
Definition FloatFieldType : string := "FLOAT".

(** Modelled from the spec: [utils.ArrayMinus], which is missing from the
    sources. The merge engine updates "every column not in the record's
    unchanged_columns set", and the generator describes the call as "the
    set difference between all column names and the unchanged columns":
    the elements of the first slice that do not occur in the second, in
    their order. *)
Definition ArrayMinus (first second : list string) : list string :=
  filter (fun element => element ∉ second) first.

(** Whether a column name holds a comma, the separator of the column
    names in [_peerdb_unchanged_toast_columns]. *)
Fixpoint containsComma (name : string) : bool :=
  match name with
  | EmptyString => false
  | String a rest => Ascii.eqb a ","%char || containsComma rest
  end.

Section Generator.

(** [datasetTable.string], [qValueKindToBigQueryType] and the values of
    the [qvalue] kind constants are declared outside this development. *)
Variable datasetTable_string : datasetTable -> string.
Variable qValueKindToBigQueryType : string -> string.
Variable QValueKind_of : string -> QValueKind.

(** The projection of one column of the flattened CTE. *)
Definition castStmt (m : mergeStmtGenerator) (column : FieldDescription) : string :=
  let colType := fd_Type column in
  let bqType := qValueKindToBigQueryType colType in
  (* CAST doesn't work for FLOAT, so rewrite it to FLOAT64. *)
  let bqType := if String.eqb bqType FloatFieldType then "FLOAT64" else bqType in
  let shortCol := shortColumnOf m (fd_Name column) in
  match QValueKind_of colType with
  | QValueKindJSON | QValueKindHStore =>
      "CAST(PARSE_JSON(JSON_VALUE(_peerdb_data, '$." ++ fd_Name column
        ++ "'),wide_number_mode=>'round') AS " ++ bqType ++ ") AS `" ++ shortCol ++ "`"
  | QValueKindBytes | QValueKindBit =>
      "FROM_BASE64(JSON_VALUE(_peerdb_data,'$." ++ fd_Name column
        ++ "')) AS `" ++ shortCol ++ "`"
  | QValueKindArrayFloat32 | QValueKindArrayFloat64 | QValueKindArrayInt16
  | QValueKindArrayInt32 | QValueKindArrayInt64 | QValueKindArrayString
  | QValueKindArrayBoolean | QValueKindArrayTimestamp | QValueKindArrayTimestampTZ
  | QValueKindArrayDate =>
      "ARRAY(SELECT CAST(element AS " ++ bqType ++ ") FROM "
        ++ "UNNEST(CAST(JSON_VALUE_ARRAY(_peerdb_data, '$." ++ fd_Name column
        ++ "') AS ARRAY<STRING>)) AS element WHERE element IS NOT null) AS `"
        ++ shortCol ++ "`"
  | QValueKindGeography | QValueKindGeometry | QValueKindPoint =>
      "CAST(ST_GEOGFROMTEXT(JSON_VALUE(_peerdb_data, '$." ++ fd_Name column
        ++ "')) AS " ++ bqType ++ ") AS `" ++ shortCol ++ "`"
  | _ =>
      "CAST(JSON_VALUE(_peerdb_data, '$." ++ fd_Name column ++ "') AS "
        ++ bqType ++ ") AS `" ++ shortCol ++ "`"
  end.

(** The WHERE clause of the flattened CTE: it normalizes anything between
    the last normalized batch id and the last sync batch id. *)
Definition flattenedWhere (m : mergeStmtGenerator) : string :=
  "WHERE _peerdb_batch_id>" ++ FormatInt (normalizeBatchID m)
    ++ " AND _peerdb_batch_id<=" ++ FormatInt (syncBatchID m)
    ++ " AND _peerdb_destination_table_name='" ++ dstTableName m ++ "'".

(** [generateFlattenedCTE] generates a flattened CTE. *)
Definition generateFlattenedCTE (m : mergeStmtGenerator) : string :=
  let flattenedProjs :=
    (map (castStmt m) (Columns (normalizedTableSchema m))
       ++ ["_peerdb_timestamp"; "_peerdb_record_type AS _rt";
           "_peerdb_unchanged_toast_columns AS _ut"])%list in
  "WITH _f AS (SELECT " ++ Join flattenedProjs "," ++ " FROM `"
    ++ datasetTable_string (rawDatasetTable m) ++ "` " ++ flattenedWhere m ++ ")".

(** [generateDeDupedCTE] generates a de-duped CTE. *)
Definition generateDeDupedCTE (m : mergeStmtGenerator) : string :=
  let shortPkeys :=
    map (shortColumnOf m) (PrimaryKeyColumns (normalizedTableSchema m)) in
  let pkeyColsStr := "(CONCAT(" ++ Join shortPkeys ", '_peerdb_concat_', " ++ "))" in
  "_dd AS (" ++ newline
    ++ tab ++ tab ++ "SELECT _peerdb_ranked.* FROM(" ++ newline
    ++ tab ++ tab ++ tab ++ tab ++ "SELECT RANK() OVER(" ++ newline
    ++ tab ++ tab ++ tab ++ tab ++ tab ++ "PARTITION BY " ++ pkeyColsStr
    ++ " ORDER BY _peerdb_timestamp DESC" ++ newline
    ++ tab ++ tab ++ tab ++ tab ++ ") AS _peerdb_rank,* FROM _f" ++ newline
    ++ tab ++ tab ++ tab ++ ") _peerdb_ranked" ++ newline
    ++ tab ++ tab ++ tab ++ "WHERE _peerdb_rank=1" ++ newline
    ++ tab ++ ") SELECT * FROM _dd".

(** The statements [generateUpdateStatements] appends for one group of
    unchanged toast columns (one iteration of its loop). *)
Definition updateStatementsFor (m : mergeStmtGenerator) (allCols : list string)
    (cols : string) : list string :=
  let handleSoftDelete :=
    SoftDelete (peerdbCols m) && negb (String.eqb (SoftDeleteColName (peerdbCols m)) EmptyString) in
  let unchangedColsArray := SplitComma cols in
  let otherCols := ArrayMinus allCols unchangedColsArray in
  let tmpArray :=
    map (fun colName => "`" ++ colName ++ "`=_d." ++ shortColumnOf m colName) otherCols in
  (* set the synced at column to the current timestamp *)
  let tmpArray :=
    if negb (String.eqb (SyncedAtColName (peerdbCols m)) EmptyString)
    then (tmpArray ++ [("`" ++ SyncedAtColName (peerdbCols m) ++ "`=CURRENT_TIMESTAMP")%string])%list
    else tmpArray in
  (* set soft-deleted to false, tackles insert after soft-delete *)
  let tmpArray :=
    if handleSoftDelete
    then (tmpArray ++ [("`" ++ SoftDeleteColName (peerdbCols m) ++ "`=FALSE")%string])%list
    else tmpArray in
  let ssep := Join tmpArray "," in
  let updateStmt :=
    "WHEN MATCHED AND" ++ newline
      ++ tab ++ tab ++ "_rt!=2 AND _ut='" ++ cols ++ "'" ++ newline
      ++ tab ++ tab ++ "THEN UPDATE SET " ++ ssep in
  (* updates and deletes in the same batch: treat the DeleteRecord as an
     update and then set soft-delete to true *)
  if handleSoftDelete then
    let tmpArray :=
      (take (length tmpArray - 1) tmpArray
         ++ [("`" ++ SoftDeleteColName (peerdbCols m) ++ "`=TRUE")%string])%list in
    let ssep := Join tmpArray "," in
    let updateStmtDelete :=
      "WHEN MATCHED AND" ++ newline
        ++ tab ++ tab ++ tab ++ "_rt=2 AND _ut='" ++ cols ++ "'" ++ newline
        ++ tab ++ tab ++ tab ++ "THEN UPDATE SET " ++ ssep in
    [updateStmt; updateStmtDelete]
  else [updateStmt].

(** [generateUpdateStatements] takes all column names and the unique
    unchanged toast column groups and returns the UPDATE branches of the
    MERGE. *)
Definition generateUpdateStatements (m : mergeStmtGenerator)
    (allCols : list string) (unchangedToastColumns : list string) : list string :=
  flat_map (updateStatementsFor m allCols) unchangedToastColumns.

(** The first loop of [generateMergeStmt]: it records [_c<i>] as the
    short name of the [i]-th column. *)
Fixpoint recordShortColumns (i : nat) (columns : list FieldDescription)
    (sc : gmap string string) : gmap string string :=
  match columns with
  | [] => sc
  | col :: rest =>
      recordShortColumns (S i) rest
        (<[fd_Name col := "_c" ++ FormatInt (Z.of_nat i)]> sc)
  end.

Definition shortNames (columns : list FieldDescription) : list string :=
  imap (fun i _ => "_c" ++ FormatInt (Z.of_nat i)) columns.

Definition insertColumnsSQL (m : mergeStmtGenerator) : string :=
  let backtickColNames :=
    map (fun col => "`" ++ fd_Name col ++ "`") (Columns (normalizedTableSchema m)) in
  Join backtickColNames ", " ++ ", `" ++ SyncedAtColName (peerdbCols m) ++ "`".

Definition insertValuesSQL (m : mergeStmtGenerator) : string :=
  let shortBacktickColNames :=
    map (fun shortCol => "`" ++ shortCol ++ "`")
        (shortNames (Columns (normalizedTableSchema m))) in
  Join shortBacktickColNames ", " ++ ",CURRENT_TIMESTAMP".

Definition deletePart (m : mergeStmtGenerator) : string :=
  if SoftDelete (peerdbCols m) then
    let colName := SoftDeleteColName (peerdbCols m) in
    let deletePart := "UPDATE SET " ++ colName ++ "=TRUE" in
    if negb (String.eqb (SyncedAtColName (peerdbCols m)) EmptyString)
    then deletePart ++ "," ++ SyncedAtColName (peerdbCols m) ++ "=CURRENT_TIMESTAMP"
    else deletePart
  else "DELETE".

(** [generateMergeStmt] generates a merge statement. It returns the
    statement and the generator, whose short column map it has filled. *)
Definition generateMergeStmt (m0 : mergeStmtGenerator)
    (unchangedToastColumns : list string) : mergeStmtGenerator * string :=
  let columns := Columns (normalizedTableSchema m0) in
  let m := with_shortColumn m0 (recordShortColumns 0 columns (shortColumn m0)) in
  let pureColNames := map fd_Name columns in
  let updateStatementsforToastCols :=
    generateUpdateStatements m pureColNames unchangedToastColumns in
  let updateStatementsforToastCols :=
    if SoftDelete (peerdbCols m) then
      (updateStatementsforToastCols
         ++ [("WHEN NOT MATCHED AND _d._rt=2 THEN INSERT ("
               ++ (insertColumnsSQL m ++ ",`" ++ SoftDeleteColName (peerdbCols m) ++ "`")
               ++ ") VALUES(" ++ (insertValuesSQL m ++ ",TRUE") ++ ")")%string])%list
    else updateStatementsforToastCols in
  let updateStringToastCols := Join updateStatementsforToastCols " " in
  let pkeySelectSQLArray :=
    map (fun pkeyColName => "_t." ++ pkeyColName ++ "=_d." ++ shortColumnOf m pkeyColName)
        (PrimaryKeyColumns (normalizedTableSchema m)) in
  (* t.<pkey1> = d.<pkey1> AND t.<pkey2> = d.<pkey2> ... *)
  let pkeySelectSQL := Join pkeySelectSQLArray " AND " in
  (m,
   "MERGE `" ++ table (dstDatasetTable m) ++ "` _t USING("
     ++ generateFlattenedCTE m ++ "," ++ generateDeDupedCTE m ++ ") _d"
     ++ " ON " ++ pkeySelectSQL ++ " WHEN NOT MATCHED AND _d._rt!=2 THEN "
     ++ "INSERT (" ++ insertColumnsSQL m ++ ") VALUES(" ++ insertValuesSQL m ++ ") "
     ++ updateStringToastCols ++ " WHEN MATCHED AND _d._rt=2 THEN " ++ deletePart m ++ ";").

(** The text of the statement before its first branch. *)
Definition mergeHeader (m : mergeStmtGenerator) : string :=
  "MERGE `" ++ table (dstDatasetTable m) ++ "` _t USING("
    ++ generateFlattenedCTE m ++ "," ++ generateDeDupedCTE m ++ ") _d ON "
    ++ Join (map (fun pkeyColName =>
                    "_t." ++ pkeyColName ++ "=_d." ++ shortColumnOf m pkeyColName)
                 (PrimaryKeyColumns (normalizedTableSchema m))) " AND ".

End Generator.

(** *** The write-set the generated branches denote

    The branches of the MERGE as data: which columns a branch assigns and
    from what. [render_updateClause] and [render_mergeBranch] give back the
    text the generator produces (see [generateUpdateStatements_render] and
    [generateMergeStmt_render]). *)

Inductive rhs :=
| FromStaged (shortCol : string)   (* _d.<short column> *)
| CurrentTimestamp                 (* CURRENT_TIMESTAMP *)
| BoolLiteral (b : bool).          (* TRUE / FALSE *)

#[global] Instance rhs_eq_dec : EqDecision rhs.
Proof. solve_decision. Defined.

Record assignment := {
  asg_column : string;
  asg_value : rhs
}.

(** A [WHEN MATCHED AND _rt.. AND _ut='..' THEN UPDATE SET ..] branch. *)
Record updateClause := {
  uc_delete : bool;        (* _rt=2 (true) or _rt!=2 (false) *)
  uc_unchanged : string;   (* the _ut group *)
  uc_sets : list assignment
}.

Definition render_rhs (r : rhs) : string :=
  match r with
  | FromStaged shortCol => "_d." ++ shortCol
  | CurrentTimestamp => "CURRENT_TIMESTAMP"
  | BoolLiteral true => "TRUE"
  | BoolLiteral false => "FALSE"
  end.

Definition render_assignment (a : assignment) : string :=
  "`" ++ asg_column a ++ "`=" ++ render_rhs (asg_value a).

Definition render_updateClause (cl : updateClause) : string :=
  if uc_delete cl then
    "WHEN MATCHED AND" ++ newline
      ++ tab ++ tab ++ tab ++ "_rt=2 AND _ut='" ++ uc_unchanged cl ++ "'" ++ newline
      ++ tab ++ tab ++ tab ++ "THEN UPDATE SET "
      ++ Join (map render_assignment (uc_sets cl)) ","
  else
    "WHEN MATCHED AND" ++ newline
      ++ tab ++ tab ++ "_rt!=2 AND _ut='" ++ uc_unchanged cl ++ "'" ++ newline
      ++ tab ++ tab ++ "THEN UPDATE SET "
      ++ Join (map render_assignment (uc_sets cl)) ",".

Definition handleSoftDelete (m : mergeStmtGenerator) : bool :=
  SoftDelete (peerdbCols m) && negb (String.eqb (SoftDeleteColName (peerdbCols m)) EmptyString).

(** The bookkeeping assignments that follow the data columns. *)
Definition bookkeepingSets (m : mergeStmtGenerator) (deleted : bool) : list assignment :=
  ((if negb (String.eqb (SyncedAtColName (peerdbCols m)) EmptyString)
    then [{| asg_column := SyncedAtColName (peerdbCols m); asg_value := CurrentTimestamp |}]
    else [])
   ++ (if handleSoftDelete m
       then [{| asg_column := SoftDeleteColName (peerdbCols m);
                asg_value := BoolLiteral deleted |}]
       else []))%list.

Definition updateSets (m : mergeStmtGenerator) (allCols : list string) (cols : string)
    (deleted : bool) : list assignment :=
  (map (fun colName => {| asg_column := colName;
                          asg_value := FromStaged (shortColumnOf m colName) |})
       (ArrayMinus allCols (SplitComma cols))
   ++ bookkeepingSets m deleted)%list.

Definition updateClausesFor (m : mergeStmtGenerator) (allCols : list string)
    (cols : string) : list updateClause :=
  {| uc_delete := false; uc_unchanged := cols; uc_sets := updateSets m allCols cols false |}
    :: (if handleSoftDelete m
        then [{| uc_delete := true; uc_unchanged := cols;
                 uc_sets := updateSets m allCols cols true |}]
        else []).

Definition updateClauses (m : mergeStmtGenerator) (allCols : list string)
    (unchangedToastColumns : list string) : list updateClause :=
  flat_map (updateClausesFor m allCols) unchangedToastColumns.

(** What a branch of the MERGE does with the row. *)
Inductive mergeAction :=
| InsertRow (columns shorts : list string) (syncedAt : string) (softDeleted : option string)
| UpdateRow (sets : list assignment)
| MarkDeleted (softDeleteCol : string) (syncedAt : option string)
| DeleteRow.

Record mergeBranch := {
  mb_matched : bool;             (* WHEN MATCHED / WHEN NOT MATCHED *)
  mb_delete : bool;              (* _rt=2 (true) or _rt!=2 (false) *)
  mb_unchanged : option string;  (* the _ut condition, if any *)
  mb_action : mergeAction
}.

Definition render_mergeAction (a : mergeAction) : string :=
  match a with
  | InsertRow columns shorts syncedAt softDeleted =>
      "INSERT ("
        ++ (Join (map (fun c => "`" ++ c ++ "`") columns) ", " ++ ", `" ++ syncedAt ++ "`")
        ++ match softDeleted with Some c => ",`" ++ c ++ "`" | None => EmptyString end
        ++ ") VALUES("
        ++ (Join (map (fun c => "`" ++ c ++ "`") shorts) ", " ++ ",CURRENT_TIMESTAMP")
        ++ match softDeleted with Some _ => ",TRUE" | None => EmptyString end
        ++ ")"
  | UpdateRow sets => "UPDATE SET " ++ Join (map render_assignment sets) ","
  | MarkDeleted softDeleteCol syncedAt =>
      "UPDATE SET " ++ softDeleteCol ++ "=TRUE"
        ++ match syncedAt with Some c => "," ++ c ++ "=CURRENT_TIMESTAMP" | None => EmptyString end
  | DeleteRow => "DELETE"
  end.

Definition render_mergeBranch (b : mergeBranch) : string :=
  match mb_unchanged b, mb_action b with
  | Some ut, UpdateRow sets =>
      render_updateClause {| uc_delete := mb_delete b; uc_unchanged := ut; uc_sets := sets |}
  | _, a =>
      (if mb_matched b then "WHEN MATCHED AND _d._rt" else "WHEN NOT MATCHED AND _d._rt")
        ++ (if mb_delete b then "=2" else "!=2") ++ " THEN " ++ render_mergeAction a
  end.

Definition branchOfClause (cl : updateClause) : mergeBranch :=
  {| mb_matched := true; mb_delete := uc_delete cl;
     mb_unchanged := Some (uc_unchanged cl); mb_action := UpdateRow (uc_sets cl) |}.

Definition insertBranch (m : mergeStmtGenerator) : mergeBranch :=
  {| mb_matched := false; mb_delete := false; mb_unchanged := None;
     mb_action := InsertRow (map fd_Name (Columns (normalizedTableSchema m)))
                            (shortNames (Columns (normalizedTableSchema m)))
                            (SyncedAtColName (peerdbCols m)) None |}.

Definition middleBranches (m : mergeStmtGenerator)
    (unchangedToastColumns : list string) : list mergeBranch :=
  (map branchOfClause
       (updateClauses m (map fd_Name (Columns (normalizedTableSchema m)))
                      unchangedToastColumns)
   ++ (if SoftDelete (peerdbCols m)
       then [{| mb_matched := false; mb_delete := true; mb_unchanged := None;
                mb_action := InsertRow (map fd_Name (Columns (normalizedTableSchema m)))
                                       (shortNames (Columns (normalizedTableSchema m)))
                                       (SyncedAtColName (peerdbCols m))
                                       (Some (SoftDeleteColName (peerdbCols m))) |}]
       else []))%list.

Definition deleteBranch (m : mergeStmtGenerator) : mergeBranch :=
  {| mb_matched := true; mb_delete := true; mb_unchanged := None;
     mb_action :=
       if SoftDelete (peerdbCols m)
       then MarkDeleted (SoftDeleteColName (peerdbCols m))
              (if negb (String.eqb (SyncedAtColName (peerdbCols m)) EmptyString)
               then Some (SyncedAtColName (peerdbCols m)) else None)
       else DeleteRow |}.

(** The branches of the statement, in the order of the text. *)
Definition mergeBranches (m : mergeStmtGenerator)
    (unchangedToastColumns : list string) : list mergeBranch :=
  (insertBranch m :: middleBranches m unchangedToastColumns ++ [deleteBranch m])%list.

(** Whether an action writes the literal TRUE into column [sd]. *)
Definition setsTrue (sd : string) (a : mergeAction) : bool :=
  match a with
  | InsertRow _ _ _ (Some c) => String.eqb c sd
  | InsertRow _ _ _ None => false
  | UpdateRow sets =>
      existsb (fun a => String.eqb (asg_column a) sd
                        && bool_decide (asg_value a = BoolLiteral true)) sets
  | MarkDeleted c _ => String.eqb c sd
  | DeleteRow => false
  end.

(** Applying an UPDATE SET list to a destination row. The staged record
    carries its values by short column name. *)
Inductive cell :=
| CellValue (v : string)
| CellNow
| CellBool (b : bool)
| CellNull.

Record stagedRecord := {
  staged_rt : Z;                      (* _rt, 2 for a delete record *)
  staged_ut : string;                 (* _ut, the unchanged toast columns *)
  staged_values : gmap string string  (* by short column name *)
}.

Definition evalRhs (rec : stagedRecord) (r : rhs) : cell :=
  match r with
  | FromStaged shortCol =>
      match staged_values rec !! shortCol with
      | Some v => CellValue v
      | None => CellNull
      end
  | CurrentTimestamp => CellNow
  | BoolLiteral b => CellBool b
  end.

Definition applySets (rec : stagedRecord) (sets : list assignment)
    (row : gmap string cell) : gmap string cell :=
  foldl (fun row a => <[asg_column a := evalRhs rec (asg_value a)]> row) row sets.

Definition clauseApplies (rec : stagedRecord) (cl : updateClause) : bool :=
  Bool.eqb (uc_delete cl) (staged_rt rec =? 2)
  && String.eqb (uc_unchanged cl) (staged_ut rec).

(** A matched row is updated by the first branch whose condition holds. *)
Definition applyMatched (clauses : list updateClause) (rec : stagedRecord)
    (row : gmap string cell) : gmap string cell :=
  match List.find (clauseApplies rec) clauses with
  | Some cl => applySets rec (uc_sets cl) row
  | None => row
  end.

End BigQuery.

(** ** Generic SQL query executor: driver values to QValues *)
Module PeerSQL.

Import Go QValueKinds.
Local Open Scope string_scope.

(** [hex.Encode]: two lower-case hexadecimal digits per byte. *)
Definition hexDigit (n : N) : ascii :=
  match n with
  | 0%N => "0" | 1%N => "1" | 2%N => "2" | 3%N => "3"
  | 4%N => "4" | 5%N => "5" | 6%N => "6" | 7%N => "7"
  | 8%N => "8" | 9%N => "9" | 10%N => "a" | 11%N => "b"
  | 12%N => "c" | 13%N => "d" | 14%N => "e" | _ => "f"
  end%char.

Definition hexByte (b : Byte.byte) : string :=
  let n := Byte.to_N b in
  String (hexDigit (N.div n 16)) (String (hexDigit (N.modulo n 16)) EmptyString).

Fixpoint hexEncode (src : list Byte.byte) : string :=
  match src with
  | [] => EmptyString
  | b :: rest => hexByte b ++ hexEncode rest
  end.

(** [uuid.FromBytes] of the uuid library: the slice must hold 16 bytes. *)
Definition uuid_FromBytes (b : list Byte.byte) : option (list Byte.byte) :=
  if Nat.eqb (length b) 16 then Some b else None.

(** [UUID.String] of the uuid library: the canonical hyphenated form
    xxxxxxxx-xxxx-xxxx-xxxx-xxxxxxxxxxxx. *)
Definition uuid_String (u : list Byte.byte) : string :=
  hexEncode (take 4 u) ++ "-"
    ++ hexEncode (take 2 (drop 4 u)) ++ "-"
    ++ hexEncode (take 2 (drop 6 u)) ++ "-"
    ++ hexEncode (take 2 (drop 8 u)) ++ "-"
    ++ hexEncode (drop 10 u).

Section Conversion.

(** Go's floating point numbers, [time.Time] and [big.Rat], and the
    library calls on them, are kept abstract. *)
Variables float32 float64 time_Time Rat : Type.
Variable float32_of_float64 : float64 -> float32.
Variable Rat_SetString : string -> option Rat.

(** The dynamic values an [interface{}] holds here. A pointer is [None]
    when it is nil; the [sql.Null*] structs are a validity flag and a
    payload. *)
#[local] Unset Elimination Schemes.
Inductive GoValue :=
| GoNil
| PtrNullInt32 (p : option (bool * Z))
| PtrNullInt64 (p : option (bool * Z))
| PtrNullFloat64 (p : option (bool * float64))
| PtrNullString (p : option (bool * string))
| PtrNullBool (p : option (bool * bool))
| PtrNullTime (p : option (bool * time_Time))
| PtrBytes (p : option (list Byte.byte))        (* *[]byte *)
| PtrByteArray16 (p : option (list Byte.byte))  (* *[16]byte *)
| PtrInterface (p : option GoValue)             (* *interface{} *)
| GoUint8 (b : Z)
| GoInt16 (z : Z)
| GoInt32 (z : Z)
| GoInt64 (z : Z)
| GoFloat32 (x : float32)
| GoFloat64 (x : float64)
| GoBool (b : bool)
| GoString (s : string)
| GoTime (t : time_Time)
| GoRat (r : Rat)
| GoBytes (b : list Byte.byte)                  (* []byte *)
| GoByteArray16 (b : list Byte.byte)            (* [16]byte *)
| SliceFloat32 (l : list float32)
| SliceFloat64 (l : list float64)
| SliceInt16 (l : list Z)
| SliceInt32 (l : list Z)
| SliceInt64 (l : list Z)
| SliceString (l : list string)
| SliceInterface (l : list GoValue)             (* []interface{} *)
| GoObject (fields : list (string * GoValue))   (* map[string]interface{} *)
| GoOther (typeName : string).
#[local] Set Elimination Schemes.

(** [json.Unmarshal([]byte(text), &v)] with [v] a [[]interface{}]: the
    elements of the array, or [None] for an error. *)
Variable json_Unmarshal : string -> option (list GoValue).

Record QValue := {
  Kind : QValueKind;
  Value : GoValue
}.

Inductive ConversionError :=
| ErrParseNumeric (s : string)
| ErrParseUUID (b : list Byte.byte)
| ErrParseJSONArray (s : string)
| ErrParseArray (kind : QValueKind) (value : GoValue)
| ErrUnsupportedType (val : GoValue) (kind : QValueKind).

Definition result := outcome ConversionError.

(** The unchecked element assertions [val.(T)] of the copy loops. *)
Definition asFloat32 (v : GoValue) : option float32 :=
  match v with GoFloat32 x => Some x | _ => None end.
Definition asFloat64 (v : GoValue) : option float64 :=
  match v with GoFloat64 x => Some x | _ => None end.
Definition asInt16 (v : GoValue) : option Z :=
  match v with GoInt16 z => Some z | _ => None end.
Definition asInt32 (v : GoValue) : option Z :=
  match v with GoInt32 z => Some z | _ => None end.
Definition asInt64 (v : GoValue) : option Z :=
  match v with GoInt64 z => Some z | _ => None end.
Definition asString (v : GoValue) : option string :=
  match v with GoString s => Some s | _ => None end.

(** [for i, val := range v { array[i] = val.(T) }]: [None] when an
    assertion fails, which panics. *)
Fixpoint assertEach {T : Type} (assertT : GoValue -> option T) (v : list GoValue)
    : option (list T) :=
  match v with
  | [] => Some []
  | val :: rest =>
      match assertT val with
      | None => None
      | Some x =>
          match assertEach assertT rest with
          | None => None
          | Some xs => Some (x :: xs)
          end
      end
  end.

Definition copyElements {T : Type} (kind : QValueKind)
    (assertT : GoValue -> option T) (wrap : list T -> GoValue) (v : list GoValue)
    : result QValue :=
  match assertEach assertT v with
  | Some array => Ok {| Kind := kind; Value := wrap array |}
  | None => Panic
  end.

Definition toQValueArray (kind : QValueKind) (value : GoValue) : result QValue :=
  match kind with
  | QValueKindArrayFloat32 =>
      match value with
      | SliceFloat32 v => Ok {| Kind := kind; Value := SliceFloat32 v |}
      | SliceInterface v => copyElements kind asFloat32 SliceFloat32 v
      | _ => Err (ErrParseArray kind value)
      end
  | QValueKindArrayFloat64 =>
      match value with
      | SliceFloat64 v => Ok {| Kind := kind; Value := SliceFloat64 v |}
      | SliceInterface v => copyElements kind asFloat64 SliceFloat64 v
      | _ => Err (ErrParseArray kind value)
      end
  | QValueKindArrayInt16 =>
      match value with
      | SliceInt16 v => Ok {| Kind := kind; Value := SliceInt16 v |}
      | SliceInterface v => copyElements kind asInt16 SliceInt16 v
      | _ => Err (ErrParseArray kind value)
      end
  | QValueKindArrayInt32 =>
      match value with
      | SliceInt32 v => Ok {| Kind := kind; Value := SliceInt32 v |}
      | SliceInterface v => copyElements kind asInt32 SliceInt32 v
      | _ => Err (ErrParseArray kind value)
      end
  | QValueKindArrayInt64 =>
      match value with
      | SliceInt64 v => Ok {| Kind := kind; Value := SliceInt64 v |}
      | SliceInterface v => copyElements kind asInt64 SliceInt64 v
      | _ => Err (ErrParseArray kind value)
      end
  | QValueKindArrayString =>
      match value with
      | SliceString v => Ok {| Kind := kind; Value := SliceString v |}
      | SliceInterface v => copyElements kind asString SliceString v
      | _ => Err (ErrParseArray kind value)
      end
  | _ =>
      (* no case of the switch applies: [result] stays nil *)
      Ok {| Kind := kind; Value := GoNil |}
  end.

(** The kind the JSON case picks from the first element of the array. *)
Definition arrayKindOfFirst (first : GoValue) : QValueKind :=
  match first with
  | GoFloat32 _ => QValueKindArrayFloat32
  | GoFloat64 _ => QValueKindArrayFloat64
  | GoInt16 _ => QValueKindArrayInt16
  | GoInt32 _ => QValueKindArrayInt32
  | GoInt64 _ => QValueKindArrayInt64
  | GoString _ => QValueKindArrayString
  | _ => QValueKindString
  end.

(** The result of [if v, ok := val.( *sql.NullX); ok { if v.Valid ..}]
    once the assertion succeeded. *)
Definition nullable {T : Type} (kind : QValueKind) (wrap : T -> GoValue)
    (p : option (bool * T)) : result QValue :=
  match p with
  | None => Panic
  | Some (true, x) => Ok {| Kind := kind; Value := wrap x |}
  | Some (false, _) => Ok {| Kind := kind; Value := GoNil |}
  end.

Definition toQValue (kind : QValueKind) (val : GoValue) : result QValue :=
  let unsupported := Err (ErrUnsupportedType val kind) in
  match val with
  | GoNil => Ok {| Kind := kind; Value := GoNil |}
  | _ =>
    match kind with
    | QValueKindInt32 =>
        match val with
        | PtrNullInt32 p => nullable QValueKindInt32 GoInt32 p
        | _ => unsupported
        end
    | QValueKindInt64 =>
        match val with
        | PtrNullInt64 p => nullable QValueKindInt64 GoInt64 p
        | _ => unsupported
        end
    | QValueKindFloat32 =>
        match val with
        | PtrNullFloat64 p =>
            nullable QValueKindFloat32 (fun x => GoFloat32 (float32_of_float64 x)) p
        | _ => unsupported
        end
    | QValueKindFloat64 =>
        match val with
        | PtrNullFloat64 p => nullable QValueKindFloat64 GoFloat64 p
        | _ => unsupported
        end
    | QValueKindQChar =>
        match val with
        | GoUint8 v => Ok {| Kind := QValueKindQChar; Value := GoUint8 v |}
        | _ => unsupported
        end
    | QValueKindString =>
        match val with
        | PtrNullString p => nullable QValueKindString GoString p
        | _ => unsupported
        end
    | QValueKindBoolean =>
        match val with
        | PtrNullBool p => nullable QValueKindBoolean GoBool p
        | _ => unsupported
        end
    | QValueKindTimestamp | QValueKindTimestampTZ | QValueKindDate
    | QValueKindTime | QValueKindTimeTZ =>
        match val with
        | PtrNullTime p => nullable kind GoTime p
        | _ => unsupported
        end
    | QValueKindNumeric =>
        match val with
        | PtrNullString None => Panic
        | PtrNullString (Some (true, s)) =>
            match Rat_SetString s with
            | None => Err (ErrParseNumeric s)
            | Some numeric => Ok {| Kind := QValueKindNumeric; Value := GoRat numeric |}
            end
        | PtrNullString (Some (false, _)) =>
            Ok {| Kind := QValueKindNumeric; Value := GoNil |}
        | _ => unsupported
        end
    | QValueKindBytes | QValueKindBit =>
        match val with
        | PtrBytes (Some v) => Ok {| Kind := kind; Value := GoBytes v |}
        | _ => unsupported
        end
    | QValueKindUUID =>
        match val with
        | PtrBytes (Some v) =>
            (* convert byte array to string *)
            match uuid_FromBytes v with
            | None => Err (ErrParseUUID v)
            | Some uuidVal =>
                Ok {| Kind := QValueKindString; Value := GoString (uuid_String uuidVal) |}
            end
        | PtrByteArray16 (Some v) =>
            Ok {| Kind := QValueKindString; Value := GoByteArray16 v |}
        | _ => unsupported
        end
    | QValueKindJSON =>
        match val with
        | PtrInterface (Some vraw) =>
            let vstring := match vraw with GoString s => s | _ => EmptyString end in
            if HasPrefix vstring "[" then
              (* parse the array *)
              match json_Unmarshal vstring with
              | None => Err (ErrParseJSONArray vstring)
              | Some [] => Ok {| Kind := QValueKindJSON; Value := GoString vstring |}
              | Some (first :: rest) =>
                  (* assume all elements in the array are of the same type;
                     based on the first element, determine the type *)
                  toQValueArray (arrayKindOfFirst first) (SliceInterface (first :: rest))
              end
            else Ok {| Kind := QValueKindJSON; Value := GoString vstring |}
        | _ => Panic
        end
    | QValueKindHStore => Ok {| Kind := QValueKindHStore; Value := val |}
    | QValueKindArrayFloat32 | QValueKindArrayFloat64
    | QValueKindArrayInt16
    | QValueKindArrayInt32 | QValueKindArrayInt64
    | QValueKindArrayString => toQValueArray kind val
    | _ => unsupported
    end
  end.

End Conversion.

Arguments GoNil {float32 float64 time_Time Rat}.
Arguments PtrNullInt32 {float32 float64 time_Time Rat} p.
Arguments PtrNullInt64 {float32 float64 time_Time Rat} p.
Arguments PtrNullFloat64 {float32 float64 time_Time Rat} p.
Arguments PtrNullString {float32 float64 time_Time Rat} p.
Arguments PtrNullBool {float32 float64 time_Time Rat} p.
Arguments PtrNullTime {float32 float64 time_Time Rat} p.
Arguments PtrBytes {float32 float64 time_Time Rat} p.
Arguments PtrByteArray16 {float32 float64 time_Time Rat} p.
Arguments PtrInterface {float32 float64 time_Time Rat} p.
Arguments GoUint8 {float32 float64 time_Time Rat} b.
Arguments GoInt16 {float32 float64 time_Time Rat} z.
Arguments GoInt32 {float32 float64 time_Time Rat} z.
Arguments GoInt64 {float32 float64 time_Time Rat} z.
Arguments GoFloat32 {float32 float64 time_Time Rat} x.
Arguments GoFloat64 {float32 float64 time_Time Rat} x.
Arguments GoBool {float32 float64 time_Time Rat} b.
Arguments GoString {float32 float64 time_Time Rat} s.
Arguments GoTime {float32 float64 time_Time Rat} t.
Arguments GoRat {float32 float64 time_Time Rat} r.
Arguments GoBytes {float32 float64 time_Time Rat} b.
Arguments GoByteArray16 {float32 float64 time_Time Rat} b.
Arguments SliceFloat32 {float32 float64 time_Time Rat} l.
Arguments SliceFloat64 {float32 float64 time_Time Rat} l.
Arguments SliceInt16 {float32 float64 time_Time Rat} l.
Arguments SliceInt32 {float32 float64 time_Time Rat} l.
Arguments SliceInt64 {float32 float64 time_Time Rat} l.
Arguments SliceString {float32 float64 time_Time Rat} l.
Arguments SliceInterface {float32 float64 time_Time Rat} l.
Arguments GoObject {float32 float64 time_Time Rat} fields.
Arguments GoOther {float32 float64 time_Time Rat} typeName.

End PeerSQL.

(** ** Query replication workflows *)
Module QRep.

Import Go.
Local Open Scope string_scope.
Local Open Scope Z_scope.

(** *** Messages *)

Inductive PartitionRange :=
| IntPartitionRange (Start End : Z)
| OtherPartitionRange (description : string).

Record QRepPartition := {
  PartitionId : string;
  Range : option PartitionRange
}.

Record QRepPartitionBatch := {
  BatchId : Z;
  Partitions : list QRepPartition
}.

(** [protos.FlowStatus]: the two statuses the workflows name, the zero
    value, and the remaining ones. *)
Inductive FlowStatus :=
| STATUS_UNKNOWN
| STATUS_RUNNING
| STATUS_PAUSED
| STATUS_OTHER (code : Z).

Record QRepFlowState := {
  LastPartition : option QRepPartition;
  NumPartitionsProcessed : Z;
  NeedsResync : bool;
  DisableWaitForNewRows : bool;
  CurrentFlowStatus : FlowStatus
}.

Record QRepConfig := {
  FlowJobName : string;
  WatermarkTable : string;
  DestinationTableIdentifier : string;
  config_SetupWatermarkTableOnDestination : bool;
  MaxParallelWorkers : Z;
  DstTableFullResync : bool;
  InitialCopyOnly : bool
}.

(** [model.CDCFlowSignal], an integer type: the two signals the workflows
    name, and any other value. *)
Inductive CDCFlowSignal :=
| NoopSignal
| PauseSignal
| OtherSignal (code : Z).

#[global] Instance CDCFlowSignal_eq_dec : EqDecision CDCFlowSignal.
Proof. solve_decision. Defined.

(** *** State constructors *)

(** returns a new empty QRepFlowState *)
Definition NewQRepFlowState : QRepFlowState :=
  {| LastPartition := Some {| PartitionId := "not-applicable-partition"; Range := None |};
     NumPartitionsProcessed := 0;
     NeedsResync := true;
     DisableWaitForNewRows := false;
     CurrentFlowStatus := STATUS_RUNNING |}.

Definition NewQRepFlowStateForTesting : QRepFlowState :=
  {| LastPartition := Some {| PartitionId := "not-applicable-partition"; Range := None |};
     NumPartitionsProcessed := 0;
     NeedsResync := true;
     DisableWaitForNewRows := true;
     CurrentFlowStatus := STATUS_UNKNOWN |}.

Definition with_status (state : QRepFlowState) (status : FlowStatus) : QRepFlowState :=
  {| LastPartition := LastPartition state;
     NumPartitionsProcessed := NumPartitionsProcessed state;
     NeedsResync := NeedsResync state;
     DisableWaitForNewRows := DisableWaitForNewRows state;
     CurrentFlowStatus := status |}.

Definition with_destination (config : QRepConfig) (identifier : string) : QRepConfig :=
  {| FlowJobName := FlowJobName config;
     WatermarkTable := WatermarkTable config;
     DestinationTableIdentifier := identifier;
     config_SetupWatermarkTableOnDestination :=
         config_SetupWatermarkTableOnDestination config;
     MaxParallelWorkers := MaxParallelWorkers config;
     DstTableFullResync := DstTableFullResync config;
     InitialCopyOnly := InitialCopyOnly config |}.

(** *** Partition chunking *)

(** Modelled from the spec: [shared.DivCeil], which is missing from the
    sources. It is the ceiling division the design names for the chunk
    size: the least [c] with [x <= c * y] for a positive [y]. An integer
    division by zero panics. *)
Definition DivCeil (x y : Z) : option Z :=
  if y =? 0 then None else Some (wrap64 (- ((- x) / y))).

(** [partitions[i:end]]: panics unless [0 <= i <= end <= len]. *)
Definition slice {A : Type} (l : list A) (i j : Z) : option (list A) :=
  if (0 <=? i) && (i <=? j) && (j <=? Z.of_nat (length l))
  then Some (take (Z.to_nat (j - i)) (drop (Z.to_nat i) l))
  else None.

(** The loop [for i := 0; i < len(partitions); i += chunkSize] of
    [processPartitions]; it returns no error. [None] when [fuel] iterations
    did not finish it. *)
Fixpoint batchLoop (fuel : nat) (chunkSize : Z) (partitions : list QRepPartition)
    (i : Z) (batches : list (list QRepPartition))
    : option (outcome Empty_set (list (list QRepPartition))) :=
  if i <? Z.of_nat (length partitions) then
    match fuel with
    | O => None
    | S fuel' =>
        let end_ := Z.min (add64 i chunkSize) (Z.of_nat (length partitions)) in
        match slice partitions i end_ with
        | None => Some Panic
        | Some part =>
            batchLoop fuel' chunkSize partitions (add64 i chunkSize)
                      (batches ++ [part])%list
        end
    end
  else Some (Ok batches).

(** The first part of [processPartitions]: the chunks of the partition
    list. One iteration per partition is enough fuel whenever the chunk
    size is positive. *)
Definition chunkPartitions (maxParallelWorkers : Z) (partitions : list QRepPartition)
    : option (outcome Empty_set (list (list QRepPartition))) :=
  match DivCeil (Z.of_nat (length partitions)) maxParallelWorkers with
  | None => Some Panic
  | Some chunkSize =>
      (* the capacity len(partitions)/chunkSize+1 of [batches] *)
      match div64 (Z.of_nat (length partitions)) chunkSize with
      | None => Some Panic
      | Some _ => batchLoop (length partitions) chunkSize partitions 0 []
      end
  end.

(** The batches handed to the child workflows: [BatchId] is the position
    of the chunk, counted from 1, as an [int32]. *)
Definition int32_of (z : Z) : Z := (z + 2 ^ 31) mod 2 ^ 32 - 2 ^ 31.

Definition makeBatches (chunks : list (list QRepPartition)) : list QRepPartitionBatch :=
  imap (fun i parts => {| BatchId := int32_of (Z.of_nat i + 1); Partitions := parts |})
       chunks.

(** The shape of the chunks: every chunk but the last holds exactly
    [chunkSize] partitions, the last one between 1 and [chunkSize]. *)
Fixpoint chunked {A : Type} (chunkSize : Z) (batches : list (list A)) : Prop :=
  match batches with
  | [] => True
  | batch :: rest =>
      match rest with
      | [] => 1 <= Z.of_nat (length batch) <= chunkSize
      | _ :: _ => Z.of_nat (length batch) = chunkSize /\ chunked chunkSize rest
      end
  end.

(** *** Resync *)

(** [strings.TrimSuffix(s, suffix)]. *)
Definition TrimSuffix (s suffix : string) : string :=
  let n := String.length s in
  let k := String.length suffix in
  if (k <=? n)%nat && String.eqb (String.substring (n - k) k s) suffix
  then String.substring 0 (n - k) s
  else s.

(** The condition both resync handlers test. *)
Definition resyncRequested (config : QRepConfig) (state : QRepFlowState) : bool :=
  NeedsResync state && DstTableFullResync config.

(** [handleTableCreationForResync]: when a resync is requested, the
    shadow table is created and [q.config] is redirected to it.
    [created] says whether the CreateTablesFromExisting activity
    succeeded. *)
Definition handleTableCreationForResync (config : QRepConfig) (state : QRepFlowState)
    (created : bool) : outcome string QRepConfig :=
  if resyncRequested config state then
    let renamedTableIdentifier := DestinationTableIdentifier config ++ "_peerdb_resync" in
    if created then Ok (with_destination config renamedTableIdentifier)
    else Err "failed to create table for mirror resync"
  else Ok config.

(** [handleTableRenameForResync]: when a resync is requested, the shadow
    table is renamed over the live one; on success [NeedsResync] is
    cleared. [renamed] says whether the schema fetch and the RenameTables
    activity succeeded. *)
Definition handleTableRenameForResync (config : QRepConfig) (state : QRepFlowState)
    (renamed : bool) : outcome string (QRepConfig * QRepFlowState) :=
  let cleared :=
    {| LastPartition := LastPartition state;
       NumPartitionsProcessed := NumPartitionsProcessed state;
       NeedsResync := false;
       DisableWaitForNewRows := DisableWaitForNewRows state;
       CurrentFlowStatus := CurrentFlowStatus state |} in
  if resyncRequested config state then
    let oldTableIdentifier :=
      TrimSuffix (DestinationTableIdentifier config) "_peerdb_resync" in
    if renamed then Ok (with_destination config oldTableIdentifier, cleared)
    else Err "failed to execute rename tables activity"
  else Ok (config, cleared).

(** [maxParallelWorkers] of [QRepFlowWorkflow]: 16 unless the
    configuration gives a positive number. *)
Definition maxParallelWorkersOf (config : QRepConfig) : Z :=
  if 0 <? MaxParallelWorkers config then MaxParallelWorkers config else 16.

(** [processPartitions]: the partitions are chunked, each chunk is handed
    to a child workflow, and all of them are awaited. [childSucceeds] gives
    the result of the child workflow of a batch. The result is never [None]
    (see [chunkPartitions_total]). *)
Definition processPartitions (childSucceeds : QRepPartitionBatch -> bool)
    (maxParallelWorkers : Z) (partitions : list QRepPartition)
    : option (outcome string unit) :=
  match chunkPartitions maxParallelWorkers partitions with
  | None => None
  | Some Panic => Some Panic
  | Some (Err impossible) => match impossible with end
  | Some (Ok chunks) =>
      if forallb childSucceeds (makeBatches chunks) then Some (Ok tt)
      else Some (Err "failed to wait for child workflow")
  end.

(** *** Signals *)

(** What [signalChan.ReceiveWithTimeout] delivers: a signal, or a timeout
    together with whether the workflow context has been cancelled. *)
Inductive Receive :=
| Received (val : CDCFlowSignal)
| TimedOut (cancelled : bool).

(** The signal channel as the workflow sees it at the end of a run: the
    result of [ReceiveAsync], the successive results of
    [ReceiveWithTimeout], and [ctx.Err] at the final check. *)
Record SignalChannel := {
  async : option CDCFlowSignal;
  deliveries : list Receive;
  cancelledAtEnd : bool
}.

(** How a run of a workflow ends: it continues as new, returns nil, returns
    an error, panics, or is still waiting in the paused loop when the
    deliveries of the signal channel end. *)
Inductive WorkflowResult :=
| ContinueAsNew (config : QRepConfig) (state : QRepFlowState)
| Completed
| Failed (reason : string)
| Panicked
| StillPaused (state : QRepFlowState).

Inductive PausedLoop :=
| Resumed (activeSignal : CDCFlowSignal)
| Cancelled
| Blocked.

(** Modelled from the spec: [model.FlowSignalHandler], which is missing
    from the sources. Signals are latest-wins: a newer signal overwrites
    the active one. The code has the signals [NoopSignal], which resumes,
    and [PauseSignal]. *)
Definition latestWins (activeSignal v : CDCFlowSignal) : CDCFlowSignal := v.

(** The results of the handler registrations, activities and child workflows
    of one run of a workflow; [true] and [Some] stand for success. *)
Record Run := {
  originalRunID : string;
  setWorkflowQueries : bool;
  SetUpdateHandler : bool;
  GetTableSchema : string -> bool;
  CreateNormalizedTable : bool;
  SetupQRepMetadataTables : bool;
  CreateTablesFromExisting : bool;
  GetQRepPartitions : option (list QRepPartition);
  childWorkflow : QRepPartitionBatch -> bool;
  ReplicateXminPartition : option Z;
  ConsolidateQRepPartitions : bool;
  CleanupQRepFlow : bool;
  RenameTables : bool;
  QRepWaitUntilNewRows : bool;
  signalChan : SignalChannel
}.

(** [SetupWatermarkTableOnDestination]: only when configured, the schema of
    the watermark table is fetched and the table is created on the
    destination. *)
Definition SetupWatermarkTableOnDestination (run : Run) (config : QRepConfig) : bool :=
  if config_SetupWatermarkTableOnDestination config
  then GetTableSchema run (WatermarkTable config) && CreateNormalizedTable run
  else true.

(** [consolidatePartitions]: consolidate, then clean up the flow. *)
Definition consolidatePartitions (run : Run) : bool :=
  ConsolidateQRepPartitions run && CleanupQRepFlow run.

(** The checkpoint of [QRepFlowWorkflow]: the counter is a [uint64]. *)
Definition checkpoint (state : QRepFlowState) (partitions : list QRepPartition)
    : QRepFlowState :=
  {| LastPartition :=
       match last partitions with
       | Some lastPartition => Some lastPartition
       | None => LastPartition state
       end;
     NumPartitionsProcessed :=
       (NumPartitionsProcessed state + Z.of_nat (length partitions)) mod 2 ^ 64;
     NeedsResync := NeedsResync state;
     DisableWaitForNewRows := DisableWaitForNewRows state;
     CurrentFlowStatus := CurrentFlowStatus state |}.

Definition with_lastPartition (state : QRepFlowState) (lastPartition : QRepPartition)
    : QRepFlowState :=
  {| LastPartition := Some lastPartition;
     NumPartitionsProcessed := NumPartitionsProcessed state;
     NeedsResync := NeedsResync state;
     DisableWaitForNewRows := DisableWaitForNewRows state;
     CurrentFlowStatus := CurrentFlowStatus state |}.

Section Workflow.

(** [model.FlowSignalHandler] is declared outside this development. *)
Variable FlowSignalHandler : CDCFlowSignal -> CDCFlowSignal -> CDCFlowSignal.

Definition receiveAndHandleSignalAsync (activeSignal : CDCFlowSignal)
    (chan : SignalChannel) : CDCFlowSignal :=
  match async chan with
  | Some val => FlowSignalHandler activeSignal val
  | None => activeSignal
  end.

(** [for q.activeSignal == model.PauseSignal { .. }]: it ends when the
    handler leaves the pause, when the context is cancelled, or stays
    blocked when nothing more is delivered. *)
Fixpoint pausedLoop (activeSignal : CDCFlowSignal) (received : list Receive)
    : PausedLoop :=
  if bool_decide (activeSignal = PauseSignal) then
    match received with
    | [] => Blocked
    | Received val :: rest => pausedLoop (FlowSignalHandler activeSignal val) rest
    | TimedOut true :: _ => Cancelled
    | TimedOut false :: rest => pausedLoop activeSignal rest
    end
  else Resumed activeSignal.

(** The last step of [QRepFlowWorkflow] and of [XminFlowWorkflow]: handle
    signals, then continue as new with the state. [q.activeSignal] is
    [NoopSignal] when it starts. *)
Definition handleSignalsAndContinue (config : QRepConfig) (state : QRepFlowState)
    (chan : SignalChannel) : WorkflowResult :=
  let activeSignal := receiveAndHandleSignalAsync NoopSignal chan in
  if bool_decide (activeSignal = PauseSignal) then
    let state := with_status state STATUS_PAUSED in
    match pausedLoop activeSignal (deliveries chan) with
    | Blocked => StillPaused state
    | Cancelled => Failed "context cancelled"
    | Resumed _ =>
        if cancelledAtEnd chan then Failed "context cancelled"
        else ContinueAsNew config state
    end
  else
    if cancelledAtEnd chan then Failed "context cancelled"
    else ContinueAsNew config state.

(** [QRepFlowWorkflow]: set up, fetch the partitions, replicate them in
    chunks, consolidate, checkpoint, wait for new rows, handle signals and
    continue as new. *)
Definition QRepFlowWorkflow (run : Run) (config : QRepConfig) (state : QRepFlowState)
    : WorkflowResult :=
  let maxParallelWorkers := maxParallelWorkersOf config in
  if negb (setWorkflowQueries run) then Failed "failed to set query handler"
  else if negb (SetUpdateHandler run) then Failed "failed to register query handler"
  else if negb (SetupWatermarkTableOnDestination run config)
  then Failed "failed to setup watermark table"
  else if negb (SetupQRepMetadataTables run) then Failed "failed to setup metadata tables"
  else
    match handleTableCreationForResync config state (CreateTablesFromExisting run) with
    | Err e => Failed e
    | Panic => Panicked
    | Ok config =>
        match GetQRepPartitions run with
        | None => Failed "failed to get partitions"
        | Some partitions =>
            match processPartitions (childWorkflow run) maxParallelWorkers partitions with
            | None => Panicked
            | Some Panic => Panicked
            | Some (Err e) => Failed e
            | Some (Ok _) =>
                if negb (consolidatePartitions run)
                then Failed "failed to consolidate partitions"
                else if InitialCopyOnly config then Completed
                else
                  match handleTableRenameForResync config state
                          (GetTableSchema run (DestinationTableIdentifier config)
                           && RenameTables run) with
                  | Err e => Failed e
                  | Panic => Panicked
                  | Ok (config, state) =>
                      let state := checkpoint state partitions in
                      if negb (DisableWaitForNewRows state)
                         && negb (QRepWaitUntilNewRows run)
                      then Failed "failed while idling for new rows"
                      else handleSignalsAndContinue config state (signalChan run)
                  end
            end
        end
    end.

(** [XminFlowWorkflow]: the same with one xmin partition per run. *)
Definition XminFlowWorkflow (run : Run) (config : QRepConfig) (state : QRepFlowState)
    : WorkflowResult :=
  if negb (setWorkflowQueries run) then Failed "failed to set query handler"
  else if negb (SetupWatermarkTableOnDestination run config)
  then Failed "failed to setup watermark table"
  else if negb (SetupQRepMetadataTables run) then Failed "failed to setup metadata tables"
  else
    match handleTableCreationForResync config state (CreateTablesFromExisting run) with
    | Err e => Failed e
    | Panic => Panicked
    | Ok config =>
        match ReplicateXminPartition run with
        | None => Failed "xmin replication failed"
        | Some lastPartition =>
            if negb (consolidatePartitions run)
            then Failed "failed to consolidate partitions"
            else if InitialCopyOnly config then Completed
            else
              match handleTableRenameForResync config state
                      (GetTableSchema run (DestinationTableIdentifier config)
                       && RenameTables run) with
              | Err e => Failed e
              | Panic => Panicked
              | Ok (config, state) =>
                  let state :=
                    with_lastPartition state
                      {| PartitionId := originalRunID run;
                         Range := Some (IntPartitionRange lastPartition 0) |} in
                  handleSignalsAndContinue config state (signalChan run)
              end
        end
    end.

End Workflow.

(** How a run ends without reaching the signal handling. *)
Definition endsEarly (r : WorkflowResult) : Prop :=
  r = Completed \/ r = Panicked \/ exists reason, r = Failed reason.

End QRep.

(** ** Example inputs *)
Module Examples.

Import Go Protos.
Local Open Scope string_scope.
Local Open Scope Z_scope.

(** *** ClickHouse *)

Definition rawTableName (flowJobName : string) : string :=
  "_peerdb_raw_" ++ flowJobName.

Definition clickhouseType (kind : string) : option string :=
  if String.eqb kind "string" then Some "String"
  else if String.eqb kind "int64" then Some "Int64"
  else None.

Definition usersSchema : TableSchema :=
  {| Columns := [ {| fd_Name := "id"; fd_Type := "int64"; fd_TypeModifier := -1 |};
                  {| fd_Name := "name"; fd_Type := "string"; fd_TypeModifier := -1 |} ];
     PrimaryKeyColumns := ["id"] |}.

Definition rawRow (batch timestamp : Z) : ClickHouse.RawRecord :=
  {| ClickHouse.raw_batch_id := batch;
     ClickHouse.raw_destination_table_name := Some "users";
     ClickHouse.raw_data := "{}";
     ClickHouse.raw_record_type := 0;
     ClickHouse.raw_timestamp := timestamp |}.

(** A flow whose batches 1 and 2 are synced and none is normalized. *)
Definition connector0 : ClickHouse.Connector :=
  {| ClickHouse.pgMetadata := {[ "mirror" := 0 ]};
     ClickHouse.rawTables := {[ "_peerdb_raw_mirror" := [rawRow 1 100; rawRow 2 200] ]};
     ClickHouse.normalizedTables := ∅;
     ClickHouse.executed := [] |}.

Definition request (syncBatchID : Z) : ClickHouse.NormalizeRecordsRequest :=
  {| ClickHouse.FlowJobName := "mirror";
     ClickHouse.SyncBatchID := syncBatchID;
     ClickHouse.TableNameSchemaMapping := {[ "users" := usersSchema ]} |}.

Definition normalize :=
  ClickHouse.NormalizeRecords rawTableName clickhouseType ClickHouse.no_faults.

(** The same flow once its normalize counter has reached batch 2. *)
Definition connectorCaughtUp : ClickHouse.Connector :=
  {| ClickHouse.pgMetadata := {[ "mirror" := 2 ]};
     ClickHouse.rawTables := {[ "_peerdb_raw_mirror" := [rawRow 1 100; rawRow 2 200] ]};
     ClickHouse.normalizedTables := {[ "users" := [rawRow 1 100; rawRow 2 200] ]};
     ClickHouse.executed := [] |}.

(** *** BigQuery *)

Definition datasetTableString (d : BigQuery.datasetTable) : string :=
  BigQuery.dataset d ++ "." ++ BigQuery.table d.

Definition bigQueryType (kind : string) : string :=
  if String.eqb kind "int64" then "INT64" else "STRING".

Definition kindOf (kind : string) : QValueKinds.QValueKind :=
  if String.eqb kind "int64" then QValueKinds.QValueKindInt64
  else if String.eqb kind "string" then QValueKinds.QValueKindString
  else QValueKinds.QValueKindOther kind.

Definition itemsSchema : TableSchema :=
  {| Columns := [ {| fd_Name := "pk"; fd_Type := "int64"; fd_TypeModifier := -1 |};
                  {| fd_Name := "v"; fd_Type := "string"; fd_TypeModifier := -1 |} ];
     PrimaryKeyColumns := ["pk"] |}.

(** A generator with soft delete configured, before [generateMergeStmt]. *)
Definition generator0 : BigQuery.mergeStmtGenerator :=
  {| BigQuery.rawDatasetTable :=
       {| BigQuery.project := EmptyString; BigQuery.dataset := "ds"; BigQuery.table := "_peerdb_raw_mirror" |};
     BigQuery.dstTableName := "items";
     BigQuery.dstDatasetTable :=
       {| BigQuery.project := EmptyString; BigQuery.dataset := "ds"; BigQuery.table := "items" |};
     BigQuery.syncBatchID := 5;
     BigQuery.normalizeBatchID := 2;
     BigQuery.normalizedTableSchema := itemsSchema;
     BigQuery.peerdbCols :=
       {| SoftDeleteColName := "_PEERDB_IS_DELETED";
          SyncedAtColName := "_PEERDB_SYNCED_AT";
          SoftDelete := true |};
     BigQuery.shortColumn := ∅ |}.

(** The groups of unchanged toast columns of the batch: none, and [v]. *)
Definition toastGroups : list string := [EmptyString; "v"].

Definition mergeStmt :=
  BigQuery.generateMergeStmt datasetTableString bigQueryType kindOf generator0 toastGroups.

(** The generator once [generateMergeStmt] has filled its short columns. *)
Definition generator : BigQuery.mergeStmtGenerator := fst mergeStmt.

(** An update of key 1 that reports column [v] unchanged. *)
Definition updateUnchangedV : BigQuery.stagedRecord :=
  {| BigQuery.staged_rt := 1;
     BigQuery.staged_ut := "v";
     BigQuery.staged_values := {[ "_c0" := "1" ]} |}.

(** The destination row of key 1, soft-deleted. *)
Definition softDeletedRow : gmap string BigQuery.cell :=
  {[ "pk" := BigQuery.CellValue "1"; "v" := BigQuery.CellValue "a";
     "_PEERDB_IS_DELETED" := BigQuery.CellBool true ]}.

(** *** Driver values

    An instance of the abstract numbers, times and rationals: each is
    represented by its text. [exampleUnmarshal] gives the slices that
    [json.Unmarshal] produces for the texts of the examples. *)

Definition exampleValue : Type := PeerSQL.GoValue string string string string.

Definition exampleUnmarshal (text : string) : option (list exampleValue) :=
  if String.eqb text "[]" then Some []
  else if String.eqb text "[1.5,2.5]"
  then Some [PeerSQL.GoFloat64 "1.5"; PeerSQL.GoFloat64 "2.5"]
  else if String.eqb text "[true]"
  then Some [PeerSQL.GoBool true]
  else None.

Definition convert :=
  PeerSQL.toQValue string string string string (fun x => x) Some exampleUnmarshal.

(** The JSON driver value holding [text]. *)
Definition jsonValue (text : string) : exampleValue :=
  PeerSQL.PtrInterface (Some (PeerSQL.GoString text)).

(** The 16 bytes 0x10 .. 0x1f. *)
Definition uuidBytes : list Byte.byte :=
  [Byte.x10; Byte.x11; Byte.x12; Byte.x13; Byte.x14; Byte.x15; Byte.x16; Byte.x17;
   Byte.x18; Byte.x19; Byte.x1a; Byte.x1b; Byte.x1c; Byte.x1d; Byte.x1e; Byte.x1f].

(** *** Query replication *)

Definition partition (n : Z) : QRep.QRepPartition :=
  {| QRep.PartitionId := "partition";
     QRep.Range := Some (QRep.IntPartitionRange n (n + 1)) |}.

Definition sevenPartitions : list QRep.QRepPartition :=
  map partition [0; 1; 2; 3; 4; 5; 6].

(** A configuration without full resync. *)
Definition plainConfig : QRep.QRepConfig :=
  {| QRep.FlowJobName := "mirror";
     QRep.WatermarkTable := "public.items";
     QRep.DestinationTableIdentifier := "items";
     QRep.config_SetupWatermarkTableOnDestination := false;
     QRep.MaxParallelWorkers := 3;
     QRep.DstTableFullResync := false;
     QRep.InitialCopyOnly := false |}.

(** A pause is pending at the end of the run; one timeout later the resume
    arrives. *)
Definition pauseThenResume : QRep.SignalChannel :=
  {| QRep.async := Some QRep.PauseSignal;
     QRep.deliveries := [QRep.TimedOut false; QRep.Received QRep.NoopSignal];
     QRep.cancelledAtEnd := false |}.

End Examples.

(** ** ClickHouse connector: setting up a normalized table *)
Module ClickHouseSetup.

Import Go Protos ClickHouse.
Local Open Scope string_scope.
Local Open Scope Z_scope.

Inductive SetupError :=
| ErrCheckIfTableExists
| ErrGenerateCreateTable (e : NormalizeError)
| ErrCreateTable.

Section Setup.

(** [qValueKindToClickhouseType], the kind [qvalue.QValueKindNumeric], and
    [ParseNumericTypmod] and the default precision and scale of the package
    [numeric] are declared outside this development; so is
    [strings.ToLower] on arbitrary text. *)
Variable qValueKindToClickhouseType : string -> option string.
Variable QValueKindNumeric : string.
Variable ParseNumericTypmod : Z -> Z * Z.
Variables PeerDBClickhousePrecision PeerDBClickhouseScale : Z.
Variable ToLower : string -> string.

(** The precision and scale written for a numeric column. *)
Definition numericPrecisionScale (typeModifier : Z) : Z * Z :=
  let (precision, scale) := ParseNumericTypmod typeModifier in
  if (typeModifier =? -1) || (76 <? precision) || (precision <? scale)
  then (PeerDBClickhousePrecision, PeerDBClickhouseScale)
  else (precision, scale).

(** The [switch colType] of the column loop. *)
Definition columnDefinition (column : FieldDescription) (clickhouseType : string)
    : string :=
  let colName := fd_Name column in
  if String.eqb (fd_Type column) QValueKindNumeric then
    let (precision, scale) := numericPrecisionScale (fd_TypeModifier column) in
    "`" ++ colName ++ "` DECIMAL(" ++ FormatInt precision ++ ", "
      ++ FormatInt scale ++ "), "
  else "`" ++ colName ++ "` " ++ clickhouseType ++ ", ".

(** Whether the type of a column has a ClickHouse type. *)
Definition hasClickhouseType (column : FieldDescription) : Prop :=
  is_Some (qValueKindToClickhouseType (fd_Type column)).

(** The loop over [tableSchema.Columns], writing to [stmtBuilder]. *)
Fixpoint writeColumns (columns : list FieldDescription) (stmtBuilder : string)
    : result string :=
  match columns with
  | [] => Ok stmtBuilder
  | column :: rest =>
      match qValueKindToClickhouseType (fd_Type column) with
      | None => Err (ErrColumnType (fd_Type column))
      | Some clickhouseType =>
          writeColumns rest (stmtBuilder ++ columnDefinition column clickhouseType)
      end
  end.

Definition generateCreateTableSQLForNormalizedTable
    (normalizedTable : string) (tableSchema : TableSchema)
    (softDeleteColName syncedAtColName : string) : result string :=
  match writeColumns (Columns tableSchema)
          ("CREATE TABLE IF NOT EXISTS `" ++ normalizedTable ++ "` (") with
  | Ok stmtBuilder =>
      (* synced at column will be added to all normalized tables *)
      let stmtBuilder :=
        if String.eqb syncedAtColName EmptyString then stmtBuilder
        else stmtBuilder ++ "`" ++ ToLower syncedAtColName
               ++ "` DateTime64(9) DEFAULT now(), " in
      (* add sign and version columns *)
      let stmtBuilder := stmtBuilder ++ "`" ++ signColName ++ "` " ++ signColType ++ ", " in
      let stmtBuilder := stmtBuilder ++ "`" ++ versionColName ++ "` " ++ versionColType in
      let stmtBuilder :=
        stmtBuilder ++ ") ENGINE = ReplacingMergeTree(`" ++ versionColName ++ "`) " in
      let pkeys := PrimaryKeyColumns tableSchema in
      if (0 <? length pkeys)%nat then
        let pkeyStr := Join pkeys "," in
        Ok (stmtBuilder ++ "PRIMARY KEY (" ++ pkeyStr ++ ") "
              ++ "ORDER BY (" ++ pkeyStr ++ ")")
      else Ok stmtBuilder
  | Err e => Err e
  | Panic => Panic
  end.

(** [SetupNormalizedTable], over the statements passed to
    [c.database.ExecContext] so far, accepted or not.
    [checkIfTableExists] is the answer of the existence check ([None]
    when it fails) and [execFails] says whether the database answers the
    statement with an error. *)
Definition SetupNormalizedTable
    (checkIfTableExists : string -> option bool) (execFails : string -> bool)
    (sent : list string)
    (tableIdentifier : string) (tableSchema : TableSchema)
    (softDeleteColName syncedAtColName : string)
    : list string * outcome SetupError bool :=
  match checkIfTableExists tableIdentifier with
  | None => (sent, Err ErrCheckIfTableExists)
  | Some true => (sent, Ok true)
  | Some false =>
      match generateCreateTableSQLForNormalizedTable
              tableIdentifier tableSchema softDeleteColName syncedAtColName with
      | Err e => (sent, Err (ErrGenerateCreateTable e))
      | Panic => (sent, Panic)
      | Ok normalizedTableCreateSQL =>
          (* _, err = c.database.ExecContext(ctx, normalizedTableCreateSQL) *)
          let sent := (sent ++ [normalizedTableCreateSQL])%list in
          if execFails normalizedTableCreateSQL then (sent, Err ErrCreateTable)
          else (sent, Ok false)
      end
  end.

End Setup.

End ClickHouseSetup.

(** ** BigQuery connector: schema deltas of query replication *)
Module BigQueryQRep.

Local Open Scope string_scope.

(** A field of [model.QRecordSchema]: its name and its kind. *)
Record SourceField := {
  sf_Name : string;
  sf_Type : string
}.

(** [protos.DeltaAddedColumn]. *)
Record DeltaAddedColumn := {
  ColumnName : string;
  ColumnType : string
}.

Section Deltas.

(** [strings.EqualFold]: equality of two texts under Unicode case
    folding. *)
Variable EqualFold : string -> string -> bool.

(** The inner loop of [replayTableSchemaDeltasQRep]: whether the
    destination schema has the column, ignoring case. *)
Fixpoint hasColumn (colName : string) (dstSchema : list string) : bool :=
  match dstSchema with
  | [] => false
  | dstCol :: rest => if EqualFold colName dstCol then true else hasColumn colName rest
  end.

(** The outer loop: the columns appended to
    [tableSchemaDelta.AddedColumns]. *)
Fixpoint addedColumns (srcFields : list SourceField) (dstSchema : list string)
    (added : list DeltaAddedColumn) : list DeltaAddedColumn :=
  match srcFields with
  | [] => added
  | col :: rest =>
      if hasColumn (sf_Name col) dstSchema then addedColumns rest dstSchema added
      else addedColumns rest dstSchema
             (added ++ [{| ColumnName := sf_Name col; ColumnType := sf_Type col |}])%list
  end.

End Deltas.

End BigQueryQRep.

(** ** Generic SQL query executor: reading the rows of a query *)
Module PeerSQLRows.

Import Go QValueKinds PeerSQL.
Local Open Scope string_scope.

(** [sql.ColumnType], with what [columnTypeToQField] reads from it;
    [ct_Nullable] is the pair [(nullable, ok)]. *)
Record ColumnType := {
  DatabaseTypeName : string;
  ct_Name : string;
  ct_Nullable : bool * bool
}.

(** [model.QField]. *)
Record QField := {
  qf_Name : string;
  qf_Type : QValueKind;
  qf_Nullable : bool
}.

(** [qvalue.QValueKindInt16], which the executor names only in
    [processRows]: a kind outside the constants of [QValueKind], under its
    name. *)
Definition QValueKindInt16 : QValueKind := QValueKindOther "int16".

(** The variables [processRows] hands to [rows.Scan]. *)
Inductive ScanTarget :=
| TargetNullTime      (* *sql.NullTime *)
| TargetNullInt16     (* *sql.NullInt16 *)
| TargetNullInt32     (* *sql.NullInt32 *)
| TargetNullInt64     (* *sql.NullInt64 *)
| TargetNullFloat64   (* *sql.NullFloat64 *)
| TargetNullBool      (* *sql.NullBool *)
| TargetNullString    (* *sql.NullString *)
| TargetBytes         (* *[]byte *)
| TargetInterface.    (* *interface{} *)

(** The [switch qfields[i].Type] that allocates [values[i]]. *)
Definition scanTarget (kind : QValueKind) : ScanTarget :=
  match kind with
  | QValueKindTimestamp | QValueKindTimestampTZ | QValueKindTime
  | QValueKindTimeTZ | QValueKindDate => TargetNullTime
  | QValueKindInt32 => TargetNullInt32
  | QValueKindInt64 => TargetNullInt64
  | QValueKindFloat32 => TargetNullFloat64
  | QValueKindFloat64 => TargetNullFloat64
  | QValueKindBoolean => TargetNullBool
  | QValueKindString => TargetNullString
  | QValueKindBytes | QValueKindBit => TargetBytes
  | QValueKindNumeric => TargetNullString
  | QValueKindUUID => TargetBytes
  | QValueKindOther name =>
      if String.eqb name "int16" then TargetNullInt16 else TargetInterface
  | _ => TargetInterface
  end.

(** The kinds for which [processRows] allocates a variable that a case of
    [toQValue] accepts. *)
Definition scannableKinds : list QValueKind :=
  [ QValueKindInt32; QValueKindInt64; QValueKindFloat32; QValueKindFloat64;
    QValueKindString; QValueKindBoolean; QValueKindTimestamp; QValueKindTimestampTZ;
    QValueKindDate; QValueKindTime; QValueKindTimeTZ; QValueKindNumeric;
    QValueKindBytes; QValueKindBit; QValueKindUUID; QValueKindJSON; QValueKindHStore ].

Section Rows.

Variables float32 float64 time_Time Rat : Type.
Variable float32_of_float64 : float64 -> float32.
Variable Rat_SetString : string -> option Rat.
Variable json_Unmarshal : string -> option (list (GoValue float32 float64 time_Time Rat)).

(** [g.dbtypeToQValueKind]. *)
Variable dbtypeToQValueKind : gmap string QValueKind.

Abbreviation Val := (GoValue float32 float64 time_Time Rat).
Abbreviation QVal := (QValue float32 float64 time_Time Rat).

Inductive RowsError :=
| ErrColumnTypes
| ErrUnsupportedDatabaseType (name : string)
| ErrColumns
| ErrScan
| ErrConversion (e : ConversionError float32 float64 time_Time Rat)
| ErrRows.

(** Whether [val] is a variable of the type [target], as [rows.Scan]
    leaves it: the pointer is not nil. *)
Definition holds (target : ScanTarget) (val : Val) : bool :=
  match target, val with
  | TargetNullTime, PtrNullTime (Some _) => true
  | TargetNullInt16, GoOther typeName => String.eqb typeName "*sql.NullInt16"
  | TargetNullInt32, PtrNullInt32 (Some _) => true
  | TargetNullInt64, PtrNullInt64 (Some _) => true
  | TargetNullFloat64, PtrNullFloat64 (Some _) => true
  | TargetNullBool, PtrNullBool (Some _) => true
  | TargetNullString, PtrNullString (Some _) => true
  | TargetBytes, PtrBytes (Some _) => true
  | TargetInterface, PtrInterface (Some _) => true
  | _, _ => false
  end.

(** [model.QRecordBatch]. *)
Record QRecordBatch := {
  Records : list (list QVal);
  Schema : list QField
}.

Definition columnTypeToQField (ct : ColumnType) : outcome RowsError QField :=
  match dbtypeToQValueKind !! DatabaseTypeName ct with
  | None => Err (ErrUnsupportedDatabaseType (DatabaseTypeName ct))
  | Some qvKind =>
      let (nullable, ok) := ct_Nullable ct in
      Ok {| qf_Name := ct_Name ct; qf_Type := qvKind; qf_Nullable := ok && nullable |}
  end.

(** The loop that converts [dbColTypes] to the fields. *)
Fixpoint toQFields (dbColTypes : list ColumnType) : outcome RowsError (list QField) :=
  match dbColTypes with
  | [] => Ok []
  | ct :: rest =>
      match columnTypeToQField ct with
      | Ok qfield =>
          match toQFields rest with
          | Ok qfields => Ok (qfield :: qfields)
          | Err e => Err e
          | Panic => Panic
          end
      | Err e => Err e
      | Panic => Panic
      end
  end.

(** What the database delivers for one row: [rows.Columns] fails,
    [rows.Scan] fails on a row of [columns] columns, or the variables
    come back filled. *)
Inductive ScannedRow :=
| ColumnsError
| ScanError (columns : nat)
| Scanned (values : list Val).

(** The loop [for i, val := range values] that converts the scanned
    values of one row, from index [i] on. *)
Fixpoint convertValues (qfields : list QField) (i : nat) (values : list Val)
    : outcome RowsError (list QVal) :=
  match values with
  | [] => Ok []
  | val :: rest =>
      match qfields !! i with
      | None => Panic
      | Some qfield =>
          match toQValue float32 float64 time_Time Rat float32_of_float64
                  Rat_SetString json_Unmarshal (qf_Type qfield) val with
          | Ok qv =>
              match convertValues qfields (S i) rest with
              | Ok qValues => Ok (qv :: qValues)
              | Err e => Err e
              | Panic => Panic
              end
          | Err e => Err (ErrConversion e)
          | Panic => Panic
          end
      end
  end.

(** The [rows.Next] loop. Allocating the variables indexes [qfields] by
    the columns of the row, which panics when the row has more columns
    than there are fields. *)
Fixpoint readRows (qfields : list QField) (rows : list ScannedRow)
    (records : list (list QVal)) : outcome RowsError (list (list QVal)) :=
  match rows with
  | [] => Ok records
  | ColumnsError :: _ => Err ErrColumns
  | ScanError columns :: _ =>
      if (columns <=? length qfields)%nat then Err ErrScan else Panic
  | Scanned values :: rest =>
      if (length values <=? length qfields)%nat then
        match convertValues qfields 0 values with
        | Ok qValues => readRows qfields rest (records ++ [qValues])%list
        | Err e => Err e
        | Panic => Panic
        end
      else Panic
  end.

(** [processRows]: [dbColTypes] is the result of [rows.ColumnTypes]
    ([None] when it fails), [rows] the rows delivered until [rows.Next]
    answers false, and [rowsErr] whether [rows.Err] then reports an
    error. *)
Definition processRows (dbColTypes : option (list ColumnType))
    (rows : list ScannedRow) (rowsErr : bool) : outcome RowsError QRecordBatch :=
  match dbColTypes with
  | None => Err ErrColumnTypes
  | Some dbColTypes =>
      match toQFields dbColTypes with
      | Err e => Err e
      | Panic => Panic
      | Ok qfields =>
          match readRows qfields rows [] with
          | Err e => Err e
          | Panic => Panic
          | Ok records =>
              if rowsErr then Err ErrRows
              else Ok {| Records := records; Schema := qfields |}
          end
      end
  end.

(** The elements of a typed slice, boxed. *)
Definition sliceElements (v : Val) : option (list Val) :=
  match v with
  | SliceFloat32 l => Some (map GoFloat32 l)
  | SliceFloat64 l => Some (map GoFloat64 l)
  | SliceInt16 l => Some (map GoInt16 l)
  | SliceInt32 l => Some (map GoInt32 l)
  | SliceInt64 l => Some (map GoInt64 l)
  | SliceString l => Some (map GoString l)
  | SliceInterface l => Some l
  | _ => None
  end.

(** The element type of the array kinds [toQValueArray] has a case
    for. *)
Definition hasElementType (kind : QValueKind) (v : Val) : bool :=
  match kind, v with
  | QValueKindArrayFloat32, GoFloat32 _
  | QValueKindArrayFloat64, GoFloat64 _
  | QValueKindArrayInt16, GoInt16 _
  | QValueKindArrayInt32, GoInt32 _
  | QValueKindArrayInt64, GoInt64 _
  | QValueKindArrayString, GoString _ => true
  | _, _ => false
  end.

Definition copiedArrayKinds : list QValueKind :=
  [ QValueKindArrayFloat32; QValueKindArrayFloat64; QValueKindArrayInt16;
    QValueKindArrayInt32; QValueKindArrayInt64; QValueKindArrayString ].

End Rows.

End PeerSQLRows.

(** ** BigQuery connector: what the generated MERGE does *)
Module MergeRun.

Import Go Protos QValueKinds BigQuery.
Local Open Scope string_scope.
Local Open Scope Z_scope.

(** *** The statement as data

    The parts of the statement that decide which staged record reaches
    which row: the projections and the filter of the flattened CTE, the
    partition and the order of the de-duplicating CTE, and the columns of
    the ON condition. The [render_] functions give back the text of the
    generator. *)

(** The forms of projection of [generateFlattenedCTE]. *)
Inductive castForm :=
| CastParsedJSON     (* CAST(PARSE_JSON(JSON_VALUE(..),..) AS type) *)
| FromBase64         (* FROM_BASE64(JSON_VALUE(..)) *)
| CastArrayElements  (* ARRAY(SELECT CAST(element AS type) FROM UNNEST(..)) *)
| CastGeography      (* CAST(ST_GEOGFROMTEXT(JSON_VALUE(..)) AS type) *)
| CastValue.         (* CAST(JSON_VALUE(..) AS type) *)

Record projection := {
  pj_column : string;   (* the field of _peerdb_data that is read *)
  pj_form : castForm;
  pj_type : string;     (* the BigQuery type of the cast *)
  pj_alias : string     (* AS `alias` *)
}.

Definition render_projection (p : projection) : string :=
  match pj_form p with
  | CastParsedJSON =>
      "CAST(PARSE_JSON(JSON_VALUE(_peerdb_data, '$." ++ pj_column p
        ++ "'),wide_number_mode=>'round') AS " ++ pj_type p ++ ") AS `" ++ pj_alias p ++ "`"
  | FromBase64 =>
      "FROM_BASE64(JSON_VALUE(_peerdb_data,'$." ++ pj_column p
        ++ "')) AS `" ++ pj_alias p ++ "`"
  | CastArrayElements =>
      "ARRAY(SELECT CAST(element AS " ++ pj_type p ++ ") FROM "
        ++ "UNNEST(CAST(JSON_VALUE_ARRAY(_peerdb_data, '$." ++ pj_column p
        ++ "') AS ARRAY<STRING>)) AS element WHERE element IS NOT null) AS `"
        ++ pj_alias p ++ "`"
  | CastGeography =>
      "CAST(ST_GEOGFROMTEXT(JSON_VALUE(_peerdb_data, '$." ++ pj_column p
        ++ "')) AS " ++ pj_type p ++ ") AS `" ++ pj_alias p ++ "`"
  | CastValue =>
      "CAST(JSON_VALUE(_peerdb_data, '$." ++ pj_column p ++ "') AS "
        ++ pj_type p ++ ") AS `" ++ pj_alias p ++ "`"
  end.

(** The flattened CTE [_f]: the projections, the raw table, and the
    filter on the batch id and the destination table. *)
Record flattenedCTE := {
  fl_projections : list projection;
  fl_rawTable : string;
  fl_after : Z;            (* _peerdb_batch_id > .. *)
  fl_upto : Z;             (* _peerdb_batch_id <= .. *)
  fl_destination : string  (* _peerdb_destination_table_name = '..' *)
}.

Definition render_flattenedCTE (f : flattenedCTE) : string :=
  "WITH _f AS (SELECT "
    ++ Join (map render_projection (fl_projections f)
               ++ ["_peerdb_timestamp"; "_peerdb_record_type AS _rt";
                   "_peerdb_unchanged_toast_columns AS _ut"])%list ","
    ++ " FROM `" ++ fl_rawTable f ++ "` WHERE _peerdb_batch_id>" ++ FormatInt (fl_after f)
    ++ " AND _peerdb_batch_id<=" ++ FormatInt (fl_upto f)
    ++ " AND _peerdb_destination_table_name='" ++ fl_destination f ++ "')".

(** The de-duplicating CTE [_dd]: the rows of [_f] are ranked within the
    partition of the concatenated columns by [_peerdb_timestamp], and the
    rows of one rank are kept. *)
Record dedupCTE := {
  dd_partition : list string;  (* CONCAT(c1, '_peerdb_concat_', c2, ..) *)
  dd_descending : bool;        (* ORDER BY _peerdb_timestamp DESC *)
  dd_rank : Z                  (* WHERE _peerdb_rank=.. *)
}.

Definition render_dedupCTE (d : dedupCTE) : string :=
  "_dd AS (" ++ newline
    ++ tab ++ tab ++ "SELECT _peerdb_ranked.* FROM(" ++ newline
    ++ tab ++ tab ++ tab ++ tab ++ "SELECT RANK() OVER(" ++ newline
    ++ tab ++ tab ++ tab ++ tab ++ tab ++ "PARTITION BY "
    ++ "(CONCAT(" ++ Join (dd_partition d) ", '_peerdb_concat_', " ++ "))"
    ++ " ORDER BY _peerdb_timestamp" ++ (if dd_descending d then " DESC" else " ASC")
    ++ newline
    ++ tab ++ tab ++ tab ++ tab ++ ") AS _peerdb_rank,* FROM _f" ++ newline
    ++ tab ++ tab ++ tab ++ ") _peerdb_ranked" ++ newline
    ++ tab ++ tab ++ tab ++ "WHERE _peerdb_rank=" ++ FormatInt (dd_rank d) ++ newline
    ++ tab ++ ") SELECT * FROM _dd".

(** The MERGE: the table, the source [_d], the columns compared by the
    ON condition ([_t.column = _d.alias]) and the branches. *)
Record mergeStatement := {
  ms_target : string;
  ms_flattened : flattenedCTE;
  ms_deduped : dedupCTE;
  ms_on : list (string * string);
  ms_branches : list mergeBranch
}.

Definition render_mergeStatement (s : mergeStatement) : string :=
  "MERGE `" ++ ms_target s ++ "` _t USING("
    ++ render_flattenedCTE (ms_flattened s) ++ "," ++ render_dedupCTE (ms_deduped s)
    ++ ") _d ON "
    ++ Join (map (fun on => "_t." ++ fst on ++ "=_d." ++ snd on) (ms_on s)) " AND "
    ++ " " ++ Join (map render_mergeBranch (ms_branches s)) " " ++ ";".

Section Statement.

Variable datasetTable_string : datasetTable -> string.
Variable qValueKindToBigQueryType : string -> string.
Variable QValueKind_of : string -> QValueKind.

(** The [switch] of [generateFlattenedCTE] on the kind of the column. *)
Definition castFormOf (kind : QValueKind) : castForm :=
  match kind with
  | QValueKindJSON | QValueKindHStore => CastParsedJSON
  | QValueKindBytes | QValueKindBit => FromBase64
  | QValueKindArrayFloat32 | QValueKindArrayFloat64 | QValueKindArrayInt16
  | QValueKindArrayInt32 | QValueKindArrayInt64 | QValueKindArrayString
  | QValueKindArrayBoolean | QValueKindArrayTimestamp | QValueKindArrayTimestampTZ
  | QValueKindArrayDate => CastArrayElements
  | QValueKindGeography | QValueKindGeometry | QValueKindPoint => CastGeography
  | _ => CastValue
  end.

Definition projectionOf (m : mergeStmtGenerator) (column : FieldDescription) : projection :=
  let bqType := qValueKindToBigQueryType (fd_Type column) in
  {| pj_column := fd_Name column;
     pj_form := castFormOf (QValueKind_of (fd_Type column));
     pj_type := if String.eqb bqType FloatFieldType then "FLOAT64" else bqType;
     pj_alias := shortColumnOf m (fd_Name column) |}.

Definition flattenedOf (m : mergeStmtGenerator) : flattenedCTE :=
  {| fl_projections := map (projectionOf m) (Columns (normalizedTableSchema m));
     fl_rawTable := datasetTable_string (rawDatasetTable m);
     fl_after := normalizeBatchID m;
     fl_upto := syncBatchID m;
     fl_destination := dstTableName m |}.

Definition dedupOf (m : mergeStmtGenerator) : dedupCTE :=
  {| dd_partition := map (shortColumnOf m) (PrimaryKeyColumns (normalizedTableSchema m));
     dd_descending := true;
     dd_rank := 1 |}.

(** The statement of a generator whose short columns are filled. *)
Definition statementOf (m : mergeStmtGenerator) (unchangedToastColumns : list string)
    : mergeStatement :=
  {| ms_target := table (dstDatasetTable m);
     ms_flattened := flattenedOf m;
     ms_deduped := dedupOf m;
     ms_on := map (fun pkeyColName => (pkeyColName, shortColumnOf m pkeyColName))
                  (PrimaryKeyColumns (normalizedTableSchema m));
     ms_branches := mergeBranches m unchangedToastColumns |}.

End Statement.

(** *** The evaluation of the statement

    BigQuery evaluates the statement; what follows is the reading of its
    SQL on which the properties rest. The raw table is a list of records,
    the destination table a list of rows. *)

(** A record of the raw table. *)
Record rawRecord := {
  rr_batch_id : Z;                (* _peerdb_batch_id *)
  rr_destination : option string; (* _peerdb_destination_table_name *)
  rr_timestamp : Z;               (* _peerdb_timestamp *)
  rr_type : Z;                    (* _peerdb_record_type, 2 for a delete *)
  rr_unchanged : string;          (* _peerdb_unchanged_toast_columns *)
  rr_data : gmap string string    (* the fields of the document _peerdb_data *)
}.

(** A row of [_f]: its timestamp and the staged record. *)
Record flatRow := {
  fr_timestamp : Z;
  fr_record : stagedRecord
}.

(** A row of the destination table, by column. *)
Abbreviation row := (gmap string cell).

Definition valueCell (value : option string) : cell :=
  match value with
  | Some v => CellValue v
  | None => CellNull
  end.

(** [CONCAT]: NULL as soon as an argument is NULL. *)
Fixpoint CONCAT (args : list (option string)) : option string :=
  match args with
  | [] => Some EmptyString
  | None :: _ => None
  | Some arg :: rest =>
      match CONCAT rest with
      | Some s => Some (arg ++ s)
      | None => None
      end
  end.

(** The arguments [c1, sep, c2, sep, ..] of the CONCAT of the partition. *)
Fixpoint separated {A : Type} (sep : A) (l : list A) : list A :=
  match l with
  | [] => []
  | [x] => [x]
  | x :: rest => x :: sep :: separated sep rest
  end.

Inductive MergeError :=
| ErrMultipleSourceRows.  (* UPDATE/MERGE must match at most one source row
                             for each target row *)

Section Evaluation.

(** The value of a projection, given its form, its type and the field of
    the document ([None] for a missing field); [None] is NULL. The casts
    are BigQuery's. *)
Variable evalCast : castForm -> string -> option string -> option string.

Definition projectionValue (p : projection) (data : gmap string string) : option string :=
  evalCast (pj_form p) (pj_type p) (data !! pj_column p).

(** The values of a row of [_f], by alias. *)
Definition stagedValues (projections : list projection) (data : gmap string string)
    : gmap string string :=
  list_to_map
    (omap (fun p => (fun v => (pj_alias p, v)) <$> projectionValue p data) projections).

(** The WHERE clause of [_f]. *)
Definition selected (f : flattenedCTE) (r : rawRecord) : bool :=
  (fl_after f <? rr_batch_id r) && (rr_batch_id r <=? fl_upto f)
  && match rr_destination r with
     | Some name => String.eqb name (fl_destination f)
     | None => false
     end.

Definition flatten (f : flattenedCTE) (r : rawRecord) : flatRow :=
  {| fr_timestamp := rr_timestamp r;
     fr_record := {| staged_rt := rr_type r;
                     staged_ut := rr_unchanged r;
                     staged_values := stagedValues (fl_projections f) (rr_data r) |} |}.

Definition evalFlattened (f : flattenedCTE) (raw : list rawRecord) : list flatRow :=
  map (flatten f) (filter (fun r => selected f r = true) raw).

(** The value of PARTITION BY for a row of [_f]. *)
Definition partitionKey (d : dedupCTE) (r : flatRow) : option string :=
  CONCAT (separated (Some "_peerdb_concat_")
            (map (fun alias => staged_values (fr_record r) !! alias) (dd_partition d))).

(** Whether [a] comes strictly before [b] in the order of the ranking. *)
Definition ranksBefore (d : dedupCTE) (a b : flatRow) : bool :=
  if dd_descending d then fr_timestamp b <? fr_timestamp a
  else fr_timestamp a <? fr_timestamp b.

(** [RANK()]: one more than the number of rows of the partition that come
    strictly before the row; rows of equal timestamp share their rank. *)
Definition rankOf (d : dedupCTE) (rows : list flatRow) (r : flatRow) : Z :=
  1 + Z.of_nat (length (filter (fun other => partitionKey d other = partitionKey d r
                                             /\ ranksBefore d other r = true) rows)).

Definition keptRows (d : dedupCTE) (all rows : list flatRow) : list flatRow :=
  filter (fun r => rankOf d all r = dd_rank d) rows.

Definition evalDedup (d : dedupCTE) (rows : list flatRow) : list flatRow :=
  keptRows d rows rows.

(** The rows of the source [_d]. *)
Definition sourceRows (s : mergeStatement) (raw : list rawRecord) : list stagedRecord :=
  map fr_record (evalDedup (ms_deduped s) (evalFlattened (ms_flattened s) raw)).

(** The ON condition: every compared column of the row holds the value
    the staged record has under the alias; NULL equals nothing. *)
Definition onHolds (on : list (string * string)) (t : row) (d : stagedRecord) : bool :=
  forallb (fun c => match t !! fst c, staged_values d !! snd c with
                    | Some (CellValue x), Some y => String.eqb x y
                    | _, _ => false
                    end) on.

(** The condition of a branch, for a staged record that has ([matched])
    or has not found a row. *)
Definition branchApplies (matched : bool) (d : stagedRecord) (b : mergeBranch) : bool :=
  Bool.eqb (mb_matched b) matched
  && Bool.eqb (mb_delete b) (staged_rt d =? 2)
  && match mb_unchanged b with
     | Some ut => String.eqb ut (staged_ut d)
     | None => true
     end.

(** INSERT (columns) VALUES(shorts): the i-th column receives the value
    under the i-th short name. *)
Fixpoint insertValues (columns shorts : list string) (d : stagedRecord) (r : row) : row :=
  match columns, shorts with
  | column :: columns, short :: shorts =>
      insertValues columns shorts d (<[column := evalRhs d (FromStaged short)]> r)
  | _, _ => r
  end.

Definition insertedRow (columns shorts : list string) (syncedAt : string)
    (softDeleted : option string) (d : stagedRecord) : row :=
  let r := <[syncedAt := CellNow]> (insertValues columns shorts d ∅) in
  match softDeleted with
  | Some c => <[c := CellBool true]> r
  | None => r
  end.

(** What an action leaves of the row [t] ([None] when there is none):
    the row after the action, or no row. *)
Definition evalAction (a : mergeAction) (d : stagedRecord) (t : option row) : option row :=
  match a with
  | InsertRow columns shorts syncedAt softDeleted =>
      Some (insertedRow columns shorts syncedAt softDeleted d)
  | UpdateRow sets => applySets d sets <$> t
  | MarkDeleted softDeleteCol syncedAt =>
      (fun t => let t := <[softDeleteCol := CellBool true]> t in
                match syncedAt with
                | Some c => <[c := CellNow]> t
                | None => t
                end) <$> t
  | DeleteRow => None
  end.

(** A row of the table: it is left as it is when no row of the source
    meets the ON condition with it; with one such row, the first branch
    for matched rows whose condition holds is applied; with more than
    one the statement fails. *)
Definition mergeMatched (s : mergeStatement) (source : list stagedRecord) (t : row)
    : outcome MergeError (option row) :=
  match filter (fun d => onHolds (ms_on s) t d = true) source with
  | [] => Ok (Some t)
  | [d] =>
      match List.find (branchApplies true d) (ms_branches s) with
      | Some b => Ok (evalAction (mb_action b) d (Some t))
      | None => Ok (Some t)
      end
  | _ :: _ :: _ => Err ErrMultipleSourceRows
  end.

(** A row of the source that meets the ON condition with no row of the
    table: the first branch for rows not matched whose condition holds
    is applied. *)
Definition mergeNotMatched (s : mergeStatement) (dst : list row) (d : stagedRecord)
    : option row :=
  if existsb (fun t => onHolds (ms_on s) t d) dst then None
  else match List.find (branchApplies false d) (ms_branches s) with
       | Some b => evalAction (mb_action b) d None
       | None => None
       end.

Fixpoint mergeRows (s : mergeStatement) (source : list stagedRecord) (dst : list row)
    : outcome MergeError (list row) :=
  match dst with
  | [] => Ok []
  | t :: rest =>
      match mergeMatched s source t with
      | Ok t' =>
          match mergeRows s source rest with
          | Ok rows => Ok (match t' with Some t' => t' :: rows | None => rows end)
          | Err e => Err e
          | Panic => Panic
          end
      | Err e => Err e
      | Panic => Panic
      end
  end.

(** The table after the statement. *)
Definition runMerge (s : mergeStatement) (raw : list rawRecord) (dst : list row)
    : outcome MergeError (list row) :=
  let source := sourceRows s raw in
  match mergeRows s source dst with
  | Ok rows => Ok (rows ++ omap (mergeNotMatched s dst) source)%list
  | Err e => Err e
  | Panic => Panic
  end.

End Evaluation.

End MergeRun.

(** ** Further example inputs *)
Module Scenarios.

Import Go Protos.
Local Open Scope string_scope.
Local Open Scope Z_scope.

(** *** ClickHouse table set-up *)

(** An instance of the numeric package for the examples: the precision
    and the scale share the type modifier, offset by 4. *)
Definition parseNumericTypmod (typmod : Z) : Z * Z :=
  (Z.shiftr (typmod - 4) 16, Z.land (typmod - 4) 65535).

(** A column of type numeric(10, 2). *)
Definition amountColumn : FieldDescription :=
  {| fd_Name := "amount"; fd_Type := "numeric"; fd_TypeModifier := 655366 |}.

(** *** BigQuery *)

(** The generator of the examples without soft delete. *)
Definition hardDeleteGenerator : BigQuery.mergeStmtGenerator :=
  {| BigQuery.rawDatasetTable := BigQuery.rawDatasetTable Examples.generator0;
     BigQuery.dstTableName := "items";
     BigQuery.dstDatasetTable := BigQuery.dstDatasetTable Examples.generator0;
     BigQuery.syncBatchID := 5;
     BigQuery.normalizeBatchID := 2;
     BigQuery.normalizedTableSchema := Examples.itemsSchema;
     BigQuery.peerdbCols :=
       {| SoftDeleteColName := EmptyString;
          SyncedAtColName := "_PEERDB_SYNCED_AT";
          SoftDelete := false |};
     BigQuery.shortColumn := ∅ |}.

(** A delete of key 1 that reports column [v] unchanged. *)
Definition deleteUnchangedV : BigQuery.stagedRecord :=
  {| BigQuery.staged_rt := 2;
     BigQuery.staged_ut := "v";
     BigQuery.staged_values := {[ "_c0" := "1" ]} |}.

(** The destination row of key 1. *)
Definition liveRow : gmap string BigQuery.cell :=
  {[ "pk" := BigQuery.CellValue "1"; "v" := BigQuery.CellValue "a";
     "_PEERDB_IS_DELETED" := BigQuery.CellBool false ]}.

(** An update of key 1 that reports the columns [v] and [w] unchanged. *)
Definition updateUnchangedVW : BigQuery.stagedRecord :=
  {| BigQuery.staged_rt := 1;
     BigQuery.staged_ut := "v,w";
     BigQuery.staged_values := {[ "_c0" := "1" ]} |}.

(** A table with a column whose name holds a comma. *)
Definition commaSchema : TableSchema :=
  {| Columns := [ {| fd_Name := "a,b"; fd_Type := "string"; fd_TypeModifier := -1 |};
                  {| fd_Name := "c"; fd_Type := "string"; fd_TypeModifier := -1 |} ];
     PrimaryKeyColumns := ["c"] |}.

Definition commaGenerator0 : BigQuery.mergeStmtGenerator :=
  {| BigQuery.rawDatasetTable := BigQuery.rawDatasetTable Examples.generator0;
     BigQuery.dstTableName := "items";
     BigQuery.dstDatasetTable := BigQuery.dstDatasetTable Examples.generator0;
     BigQuery.syncBatchID := 5;
     BigQuery.normalizeBatchID := 2;
     BigQuery.normalizedTableSchema := commaSchema;
     BigQuery.peerdbCols := BigQuery.peerdbCols Examples.generator0;
     BigQuery.shortColumn := ∅ |}.

(** The generator once [generateMergeStmt] has filled its short columns,
    for the one group of unchanged columns that holds the column [a,b]. *)
Definition commaGenerator : BigQuery.mergeStmtGenerator :=
  fst (BigQuery.generateMergeStmt Examples.datasetTableString Examples.bigQueryType
         Examples.kindOf commaGenerator0 [Go.Join ["a,b"] ","]).

(** An update of key 1 that reports the column [a,b] unchanged; the
    staged record has a value under the short name of every column. *)
Definition updateUnchangedAB : BigQuery.stagedRecord :=
  {| BigQuery.staged_rt := 1;
     BigQuery.staged_ut := Go.Join ["a,b"] ",";
     BigQuery.staged_values := {[ "_c0" := "new"; "_c1" := "1" ]} |}.

Definition commaRow : gmap string BigQuery.cell :=
  {[ "a,b" := BigQuery.CellValue "old"; "c" := BigQuery.CellValue "1" ]}.

(** The source schema of a query replication with a column the
    destination lacks. *)
Definition sourceFields : list BigQueryQRep.SourceField :=
  [ {| BigQueryQRep.sf_Name := "pk"; BigQueryQRep.sf_Type := "int64" |};
    {| BigQueryQRep.sf_Name := "note"; BigQueryQRep.sf_Type := "string" |} ].

(** *** Rows of a query *)

Definition dbTypes : gmap string QValueKinds.QValueKind :=
  {[ "INT4" := QValueKinds.QValueKindInt32; "TEXT" := QValueKinds.QValueKindString ]}.

Definition idColumn : PeerSQLRows.ColumnType :=
  {| PeerSQLRows.DatabaseTypeName := "INT4";
     PeerSQLRows.ct_Name := "id";
     PeerSQLRows.ct_Nullable := (false, true) |}.

Definition nameColumn : PeerSQLRows.ColumnType :=
  {| PeerSQLRows.DatabaseTypeName := "TEXT";
     PeerSQLRows.ct_Name := "name";
     PeerSQLRows.ct_Nullable := (true, true) |}.

Definition pointColumn : PeerSQLRows.ColumnType :=
  {| PeerSQLRows.DatabaseTypeName := "POINT";
     PeerSQLRows.ct_Name := "at";
     PeerSQLRows.ct_Nullable := (true, true) |}.

(** The row (7, NULL) as [rows.Scan] leaves it. *)
Definition scannedRow :=
  PeerSQLRows.Scanned string string string string
    [PeerSQL.PtrNullInt32 (Some (true, 7)); PeerSQL.PtrNullString (Some (false, EmptyString))].

Definition processQueryRows :=
  PeerSQLRows.processRows string string string string (fun x => x) Some
    Examples.exampleUnmarshal dbTypes.

(** The variable allocated for an int16 column. *)
Definition int16Variable : Examples.exampleValue := PeerSQL.GoOther "*sql.NullInt16".

(** *** Query replication *)

(** No signal is pending and the context is not cancelled. *)
Definition quietChannel : QRep.SignalChannel :=
  {| QRep.async := None; QRep.deliveries := []; QRep.cancelledAtEnd := false |}.

(** A run in which every activity and child workflow succeeds. *)
Definition steadyRun (partitions : list QRep.QRepPartition) : QRep.Run :=
  {| QRep.originalRunID := "run-1";
     QRep.setWorkflowQueries := true;
     QRep.SetUpdateHandler := true;
     QRep.GetTableSchema := fun _ => true;
     QRep.CreateNormalizedTable := true;
     QRep.SetupQRepMetadataTables := true;
     QRep.CreateTablesFromExisting := true;
     QRep.GetQRepPartitions := Some partitions;
     QRep.childWorkflow := fun _ => true;
     QRep.ReplicateXminPartition := Some 742;
     QRep.ConsolidateQRepPartitions := true;
     QRep.CleanupQRepFlow := true;
     QRep.RenameTables := true;
     QRep.QRepWaitUntilNewRows := true;
     QRep.signalChan := quietChannel |}.

(** The configuration of the examples with full resync of the
    destination table. *)
Definition resyncConfig : QRep.QRepConfig :=
  {| QRep.FlowJobName := "mirror";
     QRep.WatermarkTable := "public.items";
     QRep.DestinationTableIdentifier := "items";
     QRep.config_SetupWatermarkTableOnDestination := false;
     QRep.MaxParallelWorkers := 3;
     QRep.DstTableFullResync := true;
     QRep.InitialCopyOnly := false |}.

(** The configuration of the examples for an initial copy. *)
Definition initialCopyConfig : QRep.QRepConfig :=
  {| QRep.FlowJobName := "mirror";
     QRep.WatermarkTable := "public.items";
     QRep.DestinationTableIdentifier := "items";
     QRep.config_SetupWatermarkTableOnDestination := false;
     QRep.MaxParallelWorkers := 3;
     QRep.DstTableFullResync := false;
     QRep.InitialCopyOnly := true |}.

(** *** A run of the generated MERGE *)

(** The casts as the identity on the text of a value. *)
Definition exampleCast (form : MergeRun.castForm) (type : string)
    (value : option string) : option string := value.

(** A record of the raw table for the table [items], with no unchanged
    columns. *)
Definition itemRecord (batch timestamp type : Z) (pk v : string) : MergeRun.rawRecord :=
  {| MergeRun.rr_batch_id := batch;
     MergeRun.rr_destination := Some "items";
     MergeRun.rr_timestamp := timestamp;
     MergeRun.rr_type := type;
     MergeRun.rr_unchanged := EmptyString;
     MergeRun.rr_data := {[ "pk" := pk; "v" := v ]} |}.

(** Key 1 is inserted, deleted and then written again. *)
Definition insertedItem : MergeRun.rawRecord := itemRecord 3 100 0 "1" "a".
Definition deletedItem : MergeRun.rawRecord := itemRecord 3 200 2 "1" "a".
Definition upsertedItem : MergeRun.rawRecord := itemRecord 4 300 1 "1" "b".

Definition itemsStatement : MergeRun.mergeStatement :=
  MergeRun.statementOf Examples.datasetTableString Examples.bigQueryType Examples.kindOf
    Examples.generator Examples.toastGroups.

(** A table whose primary key has two columns. *)
Definition pairsSchema : TableSchema :=
  {| Columns := [ {| fd_Name := "a"; fd_Type := "string"; fd_TypeModifier := -1 |};
                  {| fd_Name := "b"; fd_Type := "string"; fd_TypeModifier := -1 |};
                  {| fd_Name := "v"; fd_Type := "string"; fd_TypeModifier := -1 |} ];
     PrimaryKeyColumns := ["a"; "b"] |}.

Definition pairsGenerator0 : BigQuery.mergeStmtGenerator :=
  {| BigQuery.rawDatasetTable := BigQuery.rawDatasetTable Examples.generator0;
     BigQuery.dstTableName := "pairs";
     BigQuery.dstDatasetTable :=
       {| BigQuery.project := EmptyString; BigQuery.dataset := "ds";
          BigQuery.table := "pairs" |};
     BigQuery.syncBatchID := 5;
     BigQuery.normalizeBatchID := 2;
     BigQuery.normalizedTableSchema := pairsSchema;
     BigQuery.peerdbCols := BigQuery.peerdbCols Examples.generator0;
     BigQuery.shortColumn := ∅ |}.

Definition pairsStatement : MergeRun.mergeStatement :=
  MergeRun.statementOf Examples.datasetTableString Examples.bigQueryType Examples.kindOf
    (fst (BigQuery.generateMergeStmt Examples.datasetTableString Examples.bigQueryType
            Examples.kindOf pairsGenerator0 [EmptyString]))
    [EmptyString].

Definition pairRecord (timestamp type : Z) (a b v : string) : MergeRun.rawRecord :=
  {| MergeRun.rr_batch_id := 3;
     MergeRun.rr_destination := Some "pairs";
     MergeRun.rr_timestamp := timestamp;
     MergeRun.rr_type := type;
     MergeRun.rr_unchanged := EmptyString;
     MergeRun.rr_data := {[ "a" := a; "b" := b; "v" := v ]} |}.

(** An update of the key (k, 1_peerdb_concat_2), and a later insert of
    the key (k_peerdb_concat_1, 2). *)
Definition upsertedPair : MergeRun.rawRecord :=
  pairRecord 300 1 "k" "1_peerdb_concat_2" "new".
Definition otherPair : MergeRun.rawRecord :=
  pairRecord 400 0 "k_peerdb_concat_1" "2" "other".

(** The row of the key (k, 1_peerdb_concat_2), soft-deleted by an earlier
    delete. *)
Definition deletedPairRow : gmap string BigQuery.cell :=
  {[ "a" := BigQuery.CellValue "k"; "b" := BigQuery.CellValue "1_peerdb_concat_2";
     "v" := BigQuery.CellValue "old"; "_PEERDB_IS_DELETED" := BigQuery.CellBool true ]}.

End Scenarios.

(** * Properties *)

Module GoFacts.

Import Go.
Local Open Scope Z_scope.

Lemma wrap64_id z : in_int64 z -> wrap64 z = z.
Proof.
  unfold in_int64, min_int64, max_int64, wrap64. intros Hz.
  rewrite Z.mod_small by lia. lia.
Qed.

Lemma add64_exact a b : in_int64 (a + b) -> add64 a b = a + b.
Proof. apply wrap64_id. Qed.

Lemma wrap64_range z : in_int64 (wrap64 z).
Proof.
  unfold in_int64, min_int64, max_int64, wrap64.
  pose proof (Z.mod_pos_bound (z + 2 ^ 63) (2 ^ 64) ltac:(lia)). lia.
Qed.

Lemma add64_moves i c : in_int64 i -> in_int64 c -> c <> 0 -> add64 i c <> i.
Proof.
  unfold in_int64, min_int64, max_int64, add64, wrap64. intros Hi Hc Hne Heq.
  pose proof (Z.div_mod (i + c + 2 ^ 63) (2 ^ 64) ltac:(lia)) as Hdm.
  pose proof (Z.mod_pos_bound (i + c + 2 ^ 63) (2 ^ 64) ltac:(lia)) as Hmod.
  set (q := (i + c + 2 ^ 63) / 2 ^ 64) in *.
  assert (c = 2 ^ 64 * q) by lia. nia.
Qed.

Lemma SplitComma_nonempty s : SplitComma s <> [].
Proof.
  destruct s as [|a s]; simpl; [discriminate|].
  destruct (SplitComma s); [discriminate|].
  destruct (Ascii.eqb a ","%char); discriminate.
Qed.

Local Open Scope string_scope.

Lemma append_cons x (a b : string) : String x a ++ b = String x (a ++ b).
Proof. reflexivity. Qed.

Lemma append_assoc (a b c : string) : (a ++ b) ++ c = a ++ (b ++ c).
Proof.
  induction a as [|x a IH]; [reflexivity|].
  rewrite !append_cons. f_equal. exact IH.
Qed.

Lemma append_nil_r (a : string) : a ++ EmptyString = a.
Proof.
  induction a as [|x a IH]; [reflexivity|].
  rewrite append_cons. f_equal. exact IH.
Qed.

Lemma Join_cons x y l sep : Join (x :: y :: l) sep = x ++ sep ++ Join (y :: l) sep.
Proof. reflexivity. Qed.

Lemma Join_snoc l z sep : l <> [] -> Join (l ++ [z]) sep = Join l sep ++ sep ++ z.
Proof.
  induction l as [|x l IH]; [congruence|]. intros _.
  destruct l as [|y l]; [reflexivity|].
  change (Join (x :: (y :: l ++ [z])%list) sep = Join (x :: y :: l) sep ++ sep ++ z).
  rewrite !Join_cons, append_assoc, append_assoc. f_equal. f_equal.
  apply IH. discriminate.
Qed.

Lemma Join_first_last x mid z sep :
  mid <> [] -> Join (x :: mid ++ [z]) sep = x ++ sep ++ Join mid sep ++ sep ++ z.
Proof.
  intros Hmid. destruct mid as [|y l]; [congruence|].
  change (Join (x :: y :: (l ++ [z])%list) sep = x ++ sep ++ Join (y :: l) sep ++ sep ++ z).
  rewrite Join_cons. f_equal. f_equal.
  apply (Join_snoc (y :: l)). discriminate.
Qed.

Lemma SplitComma_cons a s :
  SplitComma (String a s)
  = if Ascii.eqb a ","%char then EmptyString :: SplitComma s
    else match SplitComma s with
         | field :: fields => String a field :: fields
         | [] => [String a EmptyString]
         end.
Proof.
  simpl. destruct (SplitComma s) as [|field fields] eqn:Hs.
  - exfalso. exact (SplitComma_nonempty s Hs).
  - reflexivity.
Qed.

(** Joining with commas and splitting at commas are inverse to each
    other on a list that is not empty and whose texts hold no comma. *)
Lemma SplitComma_Join (holdsComma : string -> bool) l :
  (forall a s, holdsComma (String a s) = Ascii.eqb a ","%char || holdsComma s) ->
  l <> [] ->
  Forall (fun s => holdsComma s = false) l ->
  SplitComma (Join l ",") = l.
Proof.
  intros Hcons Hne Hall.
  assert (Hone : forall s, holdsComma s = false -> SplitComma s = [s]).
  { induction s as [|a s IH]; intros Hs; [reflexivity|].
    rewrite Hcons in Hs. apply orb_false_iff in Hs as [Ha Hs].
    rewrite SplitComma_cons, Ha, (IH Hs). reflexivity. }
  assert (Hmore : forall s t, holdsComma s = false ->
            SplitComma (s ++ "," ++ t) = s :: SplitComma t).
  { induction s as [|a s IH]; intros t Hs.
    - change (EmptyString ++ "," ++ t) with (String ","%char t).
      rewrite SplitComma_cons. reflexivity.
    - rewrite Hcons in Hs. apply orb_false_iff in Hs as [Ha Hs].
      rewrite append_cons, SplitComma_cons, Ha, (IH t Hs). reflexivity. }
  induction Hall as [|x l Hx Hall IH]; [congruence|]. clear Hne.
  destruct l as [|y l]; [apply Hone, Hx|].
  rewrite Join_cons, Hmore by exact Hx. f_equal. apply IH. discriminate.
Qed.

Lemma take_all_but_last {A} (l : list A) (x : A) :
  take (length (l ++ [x]) - 1) (l ++ [x]) = l.
Proof. apply take_app_length'. rewrite length_app. simpl. lia. Qed.

End GoFacts.

(** ** NormalizeRecords of the ClickHouse connector *)
Module ClickHouseFacts.

Import Go GoFacts Protos ClickHouse.
Local Open Scope string_scope.
Local Open Scope Z_scope.

Section Facts.

Variable getRawTableName : string -> string.
Variable qValueKindToClickhouseType : string -> option string.

Abbreviation NormalizeRecords := (NormalizeRecords getRawTableName qValueKindToClickhouseType).
Abbreviation normalizeTables := (normalizeTables qValueKindToClickhouseType).

Lemma appendsInRange_refl n s c : appendsInRange n s c c.
Proof.
  split; [reflexivity|]. intros tbl. exists []. split; [|constructor].
  symmetry. apply app_nil_r.
Qed.

Lemma appendsInRange_trans n s c1 c2 c3 :
  appendsInRange n s c1 c2 -> appendsInRange n s c2 c3 -> appendsInRange n s c1 c3.
Proof.
  intros [Hraw12 H12] [Hraw23 H23]. split; [congruence|].
  intros tbl. destruct (H12 tbl) as (a1 & E1 & F1). destruct (H23 tbl) as (a2 & E2 & F2).
  exists (a1 ++ a2)%list. split.
  - rewrite E2, E1. symmetry. apply app_assoc.
  - apply Forall_app; split; assumption.
Qed.

Lemma selectedRows_in_range raw tbl n s :
  Forall (in_batch_range n s) (selectedRows raw tbl n s).
Proof.
  apply Forall_forall. intros r Hr. unfold selectedRows, rows_in_batch in Hr.
  apply list_elem_of_filter in Hr as [_ Hr].
  apply list_elem_of_filter in Hr as [Hr _]. exact Hr.
Qed.

Lemma ExecInsertSelect_appends f c q rawTbl tbl n s c' :
  ExecInsertSelect f c q rawTbl tbl n s = Ok c' ->
  pgMetadata c' = pgMetadata c /\ appendsInRange n s c c'.
Proof.
  unfold ExecInsertSelect. destruct (fail_exec f tbl); [discriminate|].
  destruct (rawTables c !! rawTbl) as [raw|] eqn:Hraw; [|discriminate].
  intros [= <-]. split; [reflexivity|]. split; [reflexivity|].
  intros tbl'. unfold tableRows; simpl.
  destruct (decide (tbl = tbl')) as [<-|Hne].
  - rewrite lookup_insert_eq. simpl. eexists. split; [reflexivity|].
    apply selectedRows_in_range.
  - rewrite lookup_insert_ne by assumption. exists []. split; [|constructor].
    symmetry. apply app_nil_r.
Qed.

Lemma normalizeTables_appends f req rawTbl n tbls : forall c c' r,
  normalizeTables f req rawTbl n tbls c = (c', r) ->
  pgMetadata c' = pgMetadata c /\ appendsInRange n (SyncBatchID req) c c'.
Proof.
  induction tbls as [|tbl rest IH]; intros c c' r; simpl.
  - intros [= <- <-]. split; [reflexivity | apply appendsInRange_refl].
  - destruct (TableNameSchemaMapping req !! tbl) as [schema|];
      [|intros [= <- <-]; split; [reflexivity | apply appendsInRange_refl]].
    destruct (insertIntoSelectQuery _ rawTbl tbl schema n (SyncBatchID req)) as [q| |];
      try (intros [= <- <-]; split; [reflexivity | apply appendsInRange_refl]).
    destruct (ExecInsertSelect f c q rawTbl tbl n (SyncBatchID req)) as [c1| |] eqn:Hexec;
      try (intros [= <- <-]; split; [reflexivity | apply appendsInRange_refl]).
    intros Hrest. apply ExecInsertSelect_appends in Hexec as [Hmeta Happ].
    apply IH in Hrest as [Hmeta' Happ']. split; [congruence|].
    eapply appendsInRange_trans; eassumption.
Qed.

(** One invocation, for a flow whose stored counter is [n]: the raw
    tables are kept, the normalized tables only receive rows of the
    range (n, SyncBatchID], and the stored counter is either kept or,
    when the invocation reports [Done], moved to [n + 1]. *)
Lemma NormalizeRecords_step f c req n :
  pgMetadata c !! FlowJobName req = Some n ->
  in_int64 n -> in_int64 (SyncBatchID req) ->
  appendsInRange n (SyncBatchID req) c (fst (NormalizeRecords f c req))
  /\ ((pgMetadata (fst (NormalizeRecords f c req)) = pgMetadata c
       /\ forall resp, snd (NormalizeRecords f c req) = Ok resp -> Done resp = false)
      \/ (n < SyncBatchID req
          /\ pgMetadata (fst (NormalizeRecords f c req))
             = <[FlowJobName req := n + 1]> (pgMetadata c)
          /\ snd (NormalizeRecords f c req)
             = Ok {| Done := true; StartBatchID := n + 1;
                     EndBatchID := SyncBatchID req |})).
Proof.
  intros Hn Hn64 Hs64. unfold NormalizeRecords, GetLastNormalizeBatchID,
    pgMetadata_GetLastNormalizeBatchID.
  destruct (fail_get f); simpl;
    [split; [apply appendsInRange_refl | left; split; [reflexivity | discriminate]]|].
  rewrite Hn.
  destruct (SyncBatchID req <=? n) eqn:Hle; simpl.
  { split; [apply appendsInRange_refl|]. left. split; [reflexivity|].
    intros resp [= <-]. reflexivity. }
  apply Z.leb_gt in Hle.
  destruct (getDistinctTableNamesInBatch _ f c (FlowJobName req) (SyncBatchID req) n)
    as [tbls| |]; simpl;
    try (split; [apply appendsInRange_refl | left; split; [reflexivity | discriminate]]).
  destruct (normalizeTables f req (getRawTableName (FlowJobName req)) n tbls c)
    as [c1 r] eqn:Hloop.
  apply normalizeTables_appends in Hloop as [Hmeta Happ].
  destruct r as [[]| |]; simpl;
    try (split; [exact Happ | left; split; [exact Hmeta | discriminate]]).
  unfold pgMetadata_UpdateNormalizeBatchID.
  destruct (fail_update f); simpl;
    [split; [exact Happ | left; split; [exact Hmeta | discriminate]]|].
  assert (Hadd : add64 n 1 = n + 1).
  { apply add64_exact. unfold in_int64, min_int64, max_int64 in *. lia. }
  rewrite Hadd. split.
  - destruct Happ as [Hraw Hrows]. split; [exact Hraw|]. exact Hrows.
  - right. split; [exact Hle|]. split; [|reflexivity]. simpl. congruence.
Qed.


(** The statement of a table restricts the batch ids to the half-open range
    (normBatchID, syncBatchID]. *)
Lemma insertIntoSelectQuery_batch_range rawTbl tbl schema n s q :
  insertIntoSelectQuery qValueKindToClickhouseType rawTbl tbl schema n s = Ok q ->
  exists selection,
    q = selection ++ " WHERE _peerdb_batch_id > " ++ FormatInt n
          ++ " AND _peerdb_batch_id <= " ++ FormatInt s
          ++ " AND _peerdb_destination_table_name = '" ++ tbl ++ "'"
          ++ " ORDER BY _peerdb_timestamp".
Proof.
  unfold insertIntoSelectQuery.
  destruct (buildColumns _ (Columns schema) "(" EmptyString) as [[colSelector projection]| |];
    [|discriminate|discriminate].
  intros [= <-].
  exists ("INSERT INTO " ++ tbl
            ++ ((colSelector ++ "`" ++ signColName ++ "`,") ++ versionColName ++ ") ")
            ++ "SELECT "
            ++ ((projection ++ "intDiv(_peerdb_record_type, 2) AS `" ++ signColName ++ "`,")
                  ++ "_peerdb_timestamp AS `" ++ versionColName ++ "`")
            ++ " FROM " ++ rawTbl).
  rewrite !append_assoc. reflexivity.
Qed.

Lemma syncIdsFrom_lower lo lo' invocations :
  lo' <= lo -> syncIdsFrom lo invocations -> syncIdsFrom lo' invocations.
Proof.
  destruct invocations as [|[f req] rest]; simpl; [trivial|].
  intros Hlo [Hs Hrest]. split; [lia | exact Hrest].
Qed.

(** C10. When the stored normalize batch id of the flow is greater than or
    equal to the requested sync batch id, [NormalizeRecords] answers
    [Done = false] and returns the connector it was given: no statement is
    sent to the database, no table is written and the stored normalize batch
    id is kept. *)
Theorem NormalizeRecords_caught_up_is_noop f c req n :
  fail_get f = false ->
  pgMetadata c !! FlowJobName req = Some n ->
  SyncBatchID req <= n ->
  NormalizeRecords f c req
  = (c, Ok {| Done := false; StartBatchID := n; EndBatchID := SyncBatchID req |}).
Proof.
  intros Hget Hn Hle. unfold NormalizeRecords, GetLastNormalizeBatchID,
    pgMetadata_GetLastNormalizeBatchID.
  rewrite Hget, Hn. apply Z.leb_le in Hle. rewrite Hle. reflexivity.
Qed.

(** C2. Over every sequence of invocations for a flow whose requested sync
    batch ids never decrease and start at or above the stored normalize
    batch id, each invocation leaves a stored normalize batch id that is
    not below the one it found and not above the requested sync batch id,
    and the rows it writes all have a batch id in the half-open range
    (stored normalize batch id, requested sync batch id]. *)
Theorem normalize_batch_counter_invariant flow invocations : forall c n,
  pgMetadata c !! flow = Some n ->
  in_int64 n ->
  Forall (fun inv => FlowJobName (snd inv) = flow /\ in_int64 (SyncBatchID (snd inv)))
         invocations ->
  syncIdsFrom n invocations ->
  eachInvocation getRawTableName qValueKindToClickhouseType
    (fun c f req c' =>
       exists k k',
         pgMetadata c !! flow = Some k /\ pgMetadata c' !! flow = Some k'
         /\ k <= k' /\ k' <= SyncBatchID req
         /\ appendsInRange k (SyncBatchID req) c c')
    c invocations.
Proof.
  induction invocations as [|[f req] rest IH]; intros c n Hn Hn64 Hall Hsync; simpl;
    [trivial|].
  apply Forall_cons in Hall as [[Hflow Hs64] Hall]. simpl in Hflow, Hs64.
  destruct Hsync as [Hns Hsync]. subst flow.
  destruct (NormalizeRecords_step f c req n Hn Hn64 Hs64) as [Happ Hcases].
  destruct Hcases as [[Hmeta _] | (Hlt & Hmeta & _)].
  - split.
    + exists n, n. rewrite Hmeta. split; [exact Hn|]. split; [exact Hn|].
      split; [lia|]. split; [exact Hns | exact Happ].
    + apply (IH _ n); try assumption; [congruence|].
      eapply syncIdsFrom_lower; [|exact Hsync]. exact Hns.
  - assert (Hk' : pgMetadata (fst (NormalizeRecords f c req)) !! FlowJobName req
                  = Some (n + 1)).
    { rewrite Hmeta. apply lookup_insert_eq. }
    split.
    + exists n, (n + 1). split; [exact Hn|]. split; [exact Hk'|].
      split; [lia|]. split; [lia | exact Happ].
    + apply (IH _ (n + 1)); try assumption.
      * unfold in_int64, min_int64, max_int64 in *. lia.
      * eapply syncIdsFrom_lower; [|exact Hsync]. lia.
Qed.

End Facts.

(** C10 at the example flow: its counter stands at 2 and sync batch 2 is
    requested. *)
Lemma NormalizeRecords_caught_up_is_noop_witness :
  fail_get no_faults = false
  /\ pgMetadata Examples.connectorCaughtUp !! FlowJobName (Examples.request 2) = Some 2
  /\ SyncBatchID (Examples.request 2) <= 2
  /\ Examples.normalize Examples.connectorCaughtUp (Examples.request 2)
     = (Examples.connectorCaughtUp,
        Ok {| Done := false; StartBatchID := 2; EndBatchID := 2 |}).
Proof.
  assert (H1 : fail_get no_faults = false) by reflexivity.
  assert (H2 : pgMetadata Examples.connectorCaughtUp !! FlowJobName (Examples.request 2)
               = Some 2) by (vm_compute; reflexivity).
  assert (H3 : SyncBatchID (Examples.request 2) <= 2) by (simpl; lia).
  split; [exact H1|]. split; [exact H2|]. split; [exact H3|].
  exact (NormalizeRecords_caught_up_is_noop Examples.rawTableName Examples.clickhouseType
           no_faults Examples.connectorCaughtUp (Examples.request 2) 2 H1 H2 H3).
Defined.

(** C2 at the example flow: three invocations, for sync batch ids 1, 2
    and 2. *)
Lemma normalize_batch_counter_invariant_witness :
  eachInvocation Examples.rawTableName Examples.clickhouseType
    (fun c f req c' =>
       exists k k',
         pgMetadata c !! "mirror" = Some k /\ pgMetadata c' !! "mirror" = Some k'
         /\ k <= k' /\ k' <= SyncBatchID req
         /\ appendsInRange k (SyncBatchID req) c c')
    Examples.connector0
    [(no_faults, Examples.request 1); (no_faults, Examples.request 2);
     (no_faults, Examples.request 2)].
Proof.
  apply (normalize_batch_counter_invariant Examples.rawTableName Examples.clickhouseType
           "mirror" _ Examples.connector0 0).
  - vm_compute; reflexivity.
  - unfold in_int64, min_int64, max_int64. lia.
  - repeat constructor; simpl; unfold in_int64, min_int64, max_int64; lia.
  - simpl. lia.
Defined.

(** C1. With batches 1 and 2 staged and the stored normalize batch id at 0,
    the invocation for sync batch id 2 writes the rows of both batches and
    succeeds, yet it stores 1 as the normalize batch id, not 2; the next
    invocation therefore writes the rows of batch 2 a second time. *)
Theorem NormalizeRecords_stores_next_id_not_sync_id :
  let first := Examples.normalize Examples.connector0 (Examples.request 2) in
  let second := Examples.normalize (fst first) (Examples.request 2) in
  snd first = Ok {| Done := true; StartBatchID := 1; EndBatchID := 2 |}
  /\ tableRows (fst first) "users" = [Examples.rawRow 1 100; Examples.rawRow 2 200]
  /\ pgMetadata (fst first) !! "mirror" = Some 1
  /\ pgMetadata (fst first) !! "mirror" <> Some (SyncBatchID (Examples.request 2))
  /\ tableRows (fst second) "users"
     = [Examples.rawRow 1 100; Examples.rawRow 2 200; Examples.rawRow 2 200].
Proof.
  vm_compute. repeat split; try reflexivity. discriminate.
Qed.

End ClickHouseFacts.

(** ** The merge statement generator of the BigQuery connector *)
Module BigQueryFacts.

Import Go GoFacts Protos QValueKinds BigQuery.
Local Open Scope string_scope.
Local Open Scope Z_scope.

Lemma render_data_assignments m cols :
  map render_assignment
      (map (fun colName => {| asg_column := colName;
                              asg_value := FromStaged (shortColumnOf m colName) |}) cols)
  = map (fun colName => "`" ++ colName ++ "`=_d." ++ shortColumnOf m colName) cols.
Proof. rewrite map_map. reflexivity. Qed.

Lemma updateStatementsFor_render m allCols cols :
  updateStatementsFor m allCols cols
  = map render_updateClause (updateClausesFor m allCols cols).
Proof.
  unfold updateStatementsFor, updateClausesFor, updateSets, bookkeepingSets, handleSoftDelete.
  destruct (negb (SyncedAtColName (peerdbCols m) =? EmptyString)%string);
    destruct (SoftDelete (peerdbCols m) && negb (SoftDeleteColName (peerdbCols m) =? EmptyString)%string);
    simpl; unfold render_updateClause; simpl;
    rewrite ?map_app, ?render_data_assignments, ?take_all_but_last, <- ?app_assoc, ?app_nil_r;
    reflexivity.
Qed.

Lemma generateUpdateStatements_render m allCols unchangedToastColumns :
  generateUpdateStatements m allCols unchangedToastColumns
  = map render_updateClause (updateClauses m allCols unchangedToastColumns).
Proof.
  unfold generateUpdateStatements, updateClauses.
  induction unchangedToastColumns as [|cols rest IH]; simpl; [reflexivity|].
  rewrite map_app, IH, updateStatementsFor_render. reflexivity.
Qed.

Lemma applySets_app rec s1 s2 row :
  applySets rec (s1 ++ s2) row = applySets rec s2 (applySets rec s1 row).
Proof. unfold applySets. apply foldl_app. Qed.

Lemma applySets_frame rec sets c : forall row,
  c ∉ map asg_column sets -> applySets rec sets row !! c = row !! c.
Proof.
  induction sets as [|a sets IH]; intros row Hc; simpl; [reflexivity|].
  simpl in Hc. apply not_elem_of_cons in Hc as [Hne Hc].
  change (applySets rec sets (<[asg_column a := evalRhs rec (asg_value a)]> row) !! c
          = row !! c).
  rewrite IH by exact Hc. apply lookup_insert_ne. congruence.
Qed.

Lemma applySets_agree rec c v sets : forall row,
  (exists a, a ∈ sets /\ asg_column a = c) ->
  (forall a, a ∈ sets -> asg_column a = c -> asg_value a = v) ->
  applySets rec sets row !! c = Some (evalRhs rec v).
Proof.
  induction sets as [|a sets IH] using rev_ind; intros row [a0 [Hin Hcol]] Hsame.
  - inversion Hin.
  - rewrite applySets_app. simpl.
    destruct (decide (asg_column a = c)) as [Ha|Ha].
    + rewrite Ha, lookup_insert_eq. f_equal. f_equal. apply Hsame; [|exact Ha].
      apply elem_of_app. right. constructor.
    + rewrite lookup_insert_ne by exact Ha. apply IH.
      * apply elem_of_app in Hin as [Hin|Hin]; [exists a0; split; assumption|].
        apply list_elem_of_singleton in Hin. congruence.
      * intros a' Hin' Hc'. apply Hsame; [|exact Hc']. apply elem_of_app. left. exact Hin'.
Qed.

Lemma ArrayMinus_spec first second c :
  c ∈ ArrayMinus first second <-> c ∈ first /\ c ∉ second.
Proof. unfold ArrayMinus. rewrite list_elem_of_filter. tauto. Qed.

Lemma bookkeepingSets_columns m deleted c :
  c ∈ map asg_column (bookkeepingSets m deleted) ->
  c = SyncedAtColName (peerdbCols m) \/ c = SoftDeleteColName (peerdbCols m).
Proof.
  unfold bookkeepingSets.
  destruct (negb (SyncedAtColName (peerdbCols m) =? EmptyString)%string);
    destruct (handleSoftDelete m); simpl; intros Hc;
    repeat (apply elem_of_cons in Hc as [Hc|Hc]; [auto|]); inversion Hc.
Qed.

Lemma updateSets_columns m allCols cols deleted :
  map asg_column (updateSets m allCols cols deleted)
  = (ArrayMinus allCols (SplitComma cols) ++ map asg_column (bookkeepingSets m deleted))%list.
Proof.
  unfold updateSets. rewrite map_app, map_map. simpl. rewrite map_id. reflexivity.
Qed.

Lemma find_update_clause m allCols rec U : forall uts,
  U ∈ uts -> staged_rt rec <> 2 -> staged_ut rec = U ->
  List.find (clauseApplies rec) (updateClauses m allCols uts)
  = Some {| uc_delete := false; uc_unchanged := U;
            uc_sets := updateSets m allCols U false |}.
Proof.
  intros uts Hin Hrt Hut. apply Z.eqb_neq in Hrt.
  induction uts as [|g rest IH]; [inversion Hin|].
  unfold updateClauses. simpl. unfold clauseApplies at 1. simpl.
  rewrite Hrt, Hut. simpl.
  destruct (String.eqb_spec g U) as [->|Hne]; [reflexivity|].
  apply elem_of_cons in Hin as [Hin|Hin]; [congruence|].
  destruct (handleSoftDelete m); simpl.
  - unfold clauseApplies at 1. simpl. rewrite Hrt. simpl. apply IH, Hin.
  - apply IH, Hin.
Qed.

Lemma setsTrue_no_true_literal sd sets :
  Forall (fun a => asg_value a <> BoolLiteral true) sets ->
  setsTrue sd (UpdateRow sets) = false.
Proof.
  intros Hall. simpl. induction Hall as [|a sets Ha _ IH]; simpl; [reflexivity|].
  rewrite IH, orb_false_r. rewrite (bool_decide_eq_false_2 _ Ha). apply andb_false_r.
Qed.

Lemma updateSets_false_no_true_literal m allCols cols :
  Forall (fun a => asg_value a <> BoolLiteral true) (updateSets m allCols cols false).
Proof.
  unfold updateSets, bookkeepingSets. apply Forall_app. split.
  - apply Forall_forall. intros a Ha. apply list_elem_of_fmap in Ha as (c & -> & _).
    discriminate.
  - destruct (negb (SyncedAtColName (peerdbCols m) =? EmptyString)%string);
      destruct (handleSoftDelete m); simpl; repeat constructor; discriminate.
Qed.

Lemma updateClauses_elem m allCols uts cl :
  cl ∈ updateClauses m allCols uts ->
  exists cols, cols ∈ uts
    /\ uc_unchanged cl = cols
    /\ uc_sets cl = updateSets m allCols cols (uc_delete cl)
    /\ (uc_delete cl = true -> handleSoftDelete m = true).
Proof.
  unfold updateClauses. intros Hcl. rewrite list_elem_of_In in Hcl.
  apply in_flat_map in Hcl as (cols & Hcols & Hcl).
  exists cols. rewrite list_elem_of_In. split; [exact Hcols|].
  unfold updateClausesFor in Hcl. destruct Hcl as [<-|Hcl]; [simpl; auto; repeat split; discriminate|].
  destruct (handleSoftDelete m); [|inversion Hcl].
  destruct Hcl as [<-|[]]. simpl. auto.
Qed.

Lemma updateSets_soft_delete_last m allCols cols deleted :
  handleSoftDelete m = true ->
  exists sets,
    updateSets m allCols cols deleted
    = (sets ++ [{| asg_column := SoftDeleteColName (peerdbCols m);
                   asg_value := BoolLiteral deleted |}])%list.
Proof.
  intros Hsd. unfold updateSets, bookkeepingSets. rewrite Hsd.
  eexists. rewrite !app_assoc. reflexivity.
Qed.

(** The branch of a group: for the text [U] of a group of unchanged toast
    columns and a non-delete staged record of that group, the generator
    emits the branch [WHEN MATCHED AND _rt!=2 AND _ut='U' THEN UPDATE SET
    ..], it is the branch that applies to the record, and what it assigns
    is determined by the fields of [U] between commas. *)
Lemma update_clause_of_group m allCols uts U rec row :
  U ∈ uts ->
  staged_rt rec <> 2 ->
  staged_ut rec = U ->
  let clause := {| uc_delete := false; uc_unchanged := U;
                   uc_sets := updateSets m allCols U false |} in
  render_updateClause clause ∈ generateUpdateStatements m allCols uts
  /\ List.find (clauseApplies rec) (updateClauses m allCols uts) = Some clause
  /\ map asg_column (uc_sets clause)
     = (ArrayMinus allCols (SplitComma U)
        ++ map asg_column (bookkeepingSets m false))%list
  /\ (forall c, c ∈ SplitComma U ->
        c <> SyncedAtColName (peerdbCols m) -> c <> SoftDeleteColName (peerdbCols m) ->
        applyMatched (updateClauses m allCols uts) rec row !! c = row !! c)
  /\ (forall c, c ∈ allCols -> c ∉ SplitComma U ->
        c <> SyncedAtColName (peerdbCols m) -> c <> SoftDeleteColName (peerdbCols m) ->
        applyMatched (updateClauses m allCols uts) rec row !! c
        = Some (evalRhs rec (FromStaged (shortColumnOf m c)))).
Proof.
  intros HU Hrt Hut clause.
  pose proof (find_update_clause m allCols rec U uts HU Hrt Hut) as Hfind.
  fold clause in Hfind.
  split; [|split; [exact Hfind|split; [apply updateSets_columns|split]]].
  - rewrite generateUpdateStatements_render. apply list_elem_of_fmap_2.
    apply list_elem_of_In. apply List.find_some in Hfind as [Hin _]. exact Hin.
  - intros c Hc Hsync Hsd. unfold applyMatched. rewrite Hfind.
    apply applySets_frame. simpl. rewrite updateSets_columns.
    intros Hin. apply elem_of_app in Hin as [Hin|Hin].
    + apply ArrayMinus_spec in Hin as [_ Hin]. contradiction.
    + apply bookkeepingSets_columns in Hin as [Hin|Hin]; contradiction.
  - intros c Hc HnU Hsync Hsd. unfold applyMatched. rewrite Hfind.
    apply (applySets_agree rec c (FromStaged (shortColumnOf m c))); unfold clause; simpl.
    + exists {| asg_column := c; asg_value := FromStaged (shortColumnOf m c) |}.
      split; [|reflexivity]. unfold updateSets. apply elem_of_app. left.
      apply (list_elem_of_fmap_2 (fun colName =>
               {| asg_column := colName; asg_value := FromStaged (shortColumnOf m colName) |})).
      apply ArrayMinus_spec. split; assumption.
    + intros a Ha Hcol. unfold updateSets in Ha. apply elem_of_app in Ha as [Ha|Ha].
      * apply list_elem_of_fmap in Ha as (c' & -> & _). simpl in Hcol. subst c'. reflexivity.
      * exfalso. assert (Hb : c ∈ map asg_column (bookkeepingSets m false)).
        { rewrite <- Hcol. apply list_elem_of_fmap_2. exact Ha. }
        apply bookkeepingSets_columns in Hb as [Hb|Hb]; contradiction.
Qed.

(** The columns the generator takes out when the text of the group is
    the comma-separated list of the names of [U]. *)
Lemma ArrayMinus_of_joined allCols U :
  Forall (fun c => containsComma c = false) U ->
  EmptyString ∉ allCols ->
  ArrayMinus allCols (SplitComma (Join U ",")) = filter (fun c => c ∉ U) allCols
  /\ forall c, c ∈ U -> c ∈ SplitComma (Join U ",").
Proof.
  intros Hcomma Hempty. destruct U as [|u U].
  - split; [|intros c Hc; inversion Hc].
    change (SplitComma (Join [] ",")) with [EmptyString]. unfold ArrayMinus.
    induction allCols as [|c rest IH]; [reflexivity|].
    apply not_elem_of_cons in Hempty as [Hne Hempty].
    rewrite !filter_cons_True.
    + f_equal. apply IH, Hempty.
    + intros Hin. inversion Hin.
    + intros Hin. apply list_elem_of_singleton in Hin. congruence.
  - rewrite (SplitComma_Join containsComma) by (try discriminate; auto).
    split; [reflexivity | auto].
Qed.


Section Generator.
Variable datasetTable_string : datasetTable -> string.
Variable qValueKindToBigQueryType : string -> string.
Variable QValueKind_of : string -> QValueKind.
Abbreviation generateMergeStmt := (generateMergeStmt datasetTable_string qValueKindToBigQueryType QValueKind_of).

Abbreviation mergeHeader :=
  (mergeHeader datasetTable_string qValueKindToBigQueryType QValueKind_of).

Lemma render_branchOfClause cl :
  render_mergeBranch (branchOfClause cl) = render_updateClause cl.
Proof. destruct cl; reflexivity. Qed.

Lemma render_insertBranch m :
  render_mergeBranch (insertBranch m)
  = "WHEN NOT MATCHED AND _d._rt!=2 THEN INSERT (" ++ insertColumnsSQL m
      ++ ") VALUES(" ++ insertValuesSQL m ++ ")".
Proof.
  unfold render_mergeBranch, insertBranch, insertColumnsSQL, insertValuesSQL. simpl.
  rewrite map_map. reflexivity.
Qed.

Lemma render_softDeleteInsert m :
  render_mergeBranch
    {| mb_matched := false; mb_delete := true; mb_unchanged := None;
       mb_action := InsertRow (map fd_Name (Columns (normalizedTableSchema m)))
                              (shortNames (Columns (normalizedTableSchema m)))
                              (SyncedAtColName (peerdbCols m))
                              (Some (SoftDeleteColName (peerdbCols m))) |}
  = "WHEN NOT MATCHED AND _d._rt=2 THEN INSERT ("
      ++ (insertColumnsSQL m ++ ",`" ++ SoftDeleteColName (peerdbCols m) ++ "`")
      ++ ") VALUES(" ++ (insertValuesSQL m ++ ",TRUE") ++ ")".
Proof.
  unfold render_mergeBranch, insertColumnsSQL, insertValuesSQL. simpl.
  rewrite map_map, !append_assoc. reflexivity.
Qed.

Lemma render_deleteBranch m :
  render_mergeBranch (deleteBranch m) = "WHEN MATCHED AND _d._rt=2 THEN " ++ deletePart m.
Proof.
  unfold render_mergeBranch, deleteBranch, deletePart.
  destruct (SoftDelete (peerdbCols m)); simpl; [|reflexivity].
  destruct (negb (SyncedAtColName (peerdbCols m) =? EmptyString)%string); simpl.
  - rewrite !append_assoc. reflexivity.
  - rewrite append_nil_r. reflexivity.
Qed.

Lemma render_middleBranches m uts :
  map render_mergeBranch (middleBranches m uts)
  = (generateUpdateStatements m (map fd_Name (Columns (normalizedTableSchema m))) uts
     ++ (if SoftDelete (peerdbCols m)
         then [("WHEN NOT MATCHED AND _d._rt=2 THEN INSERT ("
                 ++ (insertColumnsSQL m ++ ",`" ++ SoftDeleteColName (peerdbCols m) ++ "`")
                 ++ ") VALUES(" ++ (insertValuesSQL m ++ ",TRUE") ++ ")")%string]
         else []))%list.
Proof.
  unfold middleBranches. rewrite map_app, map_map, generateUpdateStatements_render.
  rewrite (map_ext _ render_updateClause render_branchOfClause).
  f_equal.
  destruct (SoftDelete (peerdbCols m)); [|reflexivity].
  simpl. rewrite render_softDeleteInsert. reflexivity.
Qed.

Lemma generateMergeStmt_render m0 uts :
  let m := fst (generateMergeStmt m0 uts) in
  snd (generateMergeStmt m0 uts)
  = mergeHeader m ++ " " ++ render_mergeBranch (insertBranch m) ++ " "
      ++ Join (map render_mergeBranch (middleBranches m uts)) " " ++ " "
      ++ render_mergeBranch (deleteBranch m) ++ ";".
Proof.
  unfold generateMergeStmt, BigQuery.generateMergeStmt. simpl.
  set (m := with_shortColumn m0 _).
  rewrite render_insertBranch, render_deleteBranch, render_middleBranches.
  unfold mergeHeader. rewrite !append_assoc.
  change (peerdbCols m) with (peerdbCols m0).
  change (normalizedTableSchema m) with (normalizedTableSchema m0).
  change (dstDatasetTable m) with (dstDatasetTable m0).
  destruct (SoftDelete (peerdbCols m0)); [reflexivity|].
  rewrite app_nil_r. reflexivity.
Qed.

(** The branches with soft delete configured (the flag set and the column
    named): the generated MERGE is its header followed by the branches of
    [mergeBranches]; every matched non-delete branch is an UPDATE whose last
    assignment sets the soft-delete column to FALSE, so the column reads
    FALSE after it is applied; a branch that writes TRUE into the
    soft-delete column is a delete branch ([_rt=2]); and a matched insert or
    update record of a generated group leaves the row with the marker
    cleared. *)
Lemma mergeBranches_soft_delete m0 uts :
  SoftDelete (peerdbCols m0) = true ->
  SoftDeleteColName (peerdbCols m0) <> EmptyString ->
  let m := fst (generateMergeStmt m0 uts) in
  let sd := SoftDeleteColName (peerdbCols m0) in
  let cleared := {| asg_column := sd; asg_value := BoolLiteral false |} in
  snd (generateMergeStmt m0 uts)
  = mergeHeader m ++ " " ++ Join (map render_mergeBranch (mergeBranches m uts)) " " ++ ";"
  /\ (forall b, b ∈ mergeBranches m uts -> mb_matched b = true -> mb_delete b = false ->
        exists sets, mb_action b = UpdateRow (sets ++ [cleared])
          /\ forall rec row, applySets rec (sets ++ [cleared]) row !! sd = Some (CellBool false))
  /\ (forall b, b ∈ mergeBranches m uts -> setsTrue sd (mb_action b) = true ->
        mb_delete b = true)
  /\ (forall rec row, staged_rt rec <> 2 -> staged_ut rec ∈ uts ->
        applyMatched (updateClauses m (map fd_Name (Columns (normalizedTableSchema m0))) uts)
          rec row !! sd = Some (CellBool false)).
Proof.
  intros Hsoft Hname m sd cleared.
  assert (Hm : peerdbCols m = peerdbCols m0) by reflexivity.
  assert (Hschema : normalizedTableSchema m = normalizedTableSchema m0) by reflexivity.
  assert (Hhandle : handleSoftDelete m = true).
  { unfold handleSoftDelete. rewrite Hm, Hsoft. simpl.
    destruct (String.eqb_spec (SoftDeleteColName (peerdbCols m0)) EmptyString); [contradiction|reflexivity]. }
  split; [|split; [|split]].
  - pose proof (generateMergeStmt_render m0 uts) as Hrender.
    cbv zeta in Hrender. fold m in Hrender. rewrite Hrender.
    unfold mergeBranches.
    assert (Hmid : middleBranches m uts <> []).
    { unfold middleBranches. rewrite Hm, Hsoft.
      destruct (map branchOfClause _); discriminate. }
    change (map render_mergeBranch (insertBranch m :: middleBranches m uts ++ [deleteBranch m]))
      with (render_mergeBranch (insertBranch m)
              :: map render_mergeBranch (middleBranches m uts ++ [deleteBranch m]))%list.
    rewrite map_app.
    change (map render_mergeBranch [deleteBranch m])
      with [render_mergeBranch (deleteBranch m)].
    rewrite Join_first_last;
      [|destruct (middleBranches m uts); [congruence|discriminate]].
    rewrite !append_assoc. reflexivity.
  - intros b Hb Hmatched Hdel. unfold mergeBranches in Hb.
    apply elem_of_cons in Hb as [->|Hb]; [discriminate|].
    apply elem_of_app in Hb as [Hb|Hb];
      [|apply list_elem_of_singleton in Hb; subst b; discriminate].
    unfold middleBranches in Hb. apply elem_of_app in Hb as [Hb|Hb].
    + apply list_elem_of_fmap in Hb as (cl & -> & Hcl).
      apply updateClauses_elem in Hcl as (cols & _ & _ & Hsets & _).
      simpl in Hdel. rewrite Hdel in Hsets.
      destruct (updateSets_soft_delete_last m (map fd_Name (Columns (normalizedTableSchema m)))
                  cols false Hhandle) as (sets & Hlast).
      exists sets. simpl. rewrite Hsets, Hlast. split; [reflexivity|].
      intros rec row. rewrite applySets_app. simpl. apply lookup_insert_eq.
    + rewrite Hm, Hsoft in Hb. apply list_elem_of_singleton in Hb. subst b. discriminate.
  - intros b Hb Htrue. unfold mergeBranches in Hb.
    apply elem_of_cons in Hb as [->|Hb]; [discriminate|].
    apply elem_of_app in Hb as [Hb|Hb];
      [|apply list_elem_of_singleton in Hb; subst b; reflexivity].
    unfold middleBranches in Hb. apply elem_of_app in Hb as [Hb|Hb].
    + apply list_elem_of_fmap in Hb as (cl & -> & Hcl).
      apply updateClauses_elem in Hcl as (cols & _ & _ & Hsets & _).
      simpl. destruct (uc_delete cl) eqn:Hdel; [reflexivity|].
      exfalso. simpl in Htrue. rewrite Hsets in Htrue.
      pose proof (setsTrue_no_true_literal sd _
                    (updateSets_false_no_true_literal m
                       (map fd_Name (Columns (normalizedTableSchema m))) cols)) as Hfalse.
      simpl in Hfalse. congruence.
    + rewrite Hm, Hsoft in Hb. apply list_elem_of_singleton in Hb. subst b. reflexivity.
  - intros rec row Hrt Hut. unfold applyMatched.
    rewrite (find_update_clause m _ rec (staged_ut rec) uts Hut Hrt eq_refl). simpl.
    destruct (updateSets_soft_delete_last m (map fd_Name (Columns (normalizedTableSchema m0)))
                (staged_ut rec) false Hhandle) as (sets & Hlast).
    rewrite Hlast, applySets_app. simpl. apply lookup_insert_eq.
Qed.

(** The WHERE clause of the flattened CTE selects the batch ids in the
    half-open range (normalizeBatchID, syncBatchID]. *)
Lemma generateFlattenedCTE_batch_range m :
  exists selection,
    generateFlattenedCTE datasetTable_string qValueKindToBigQueryType QValueKind_of m
    = selection ++ "WHERE _peerdb_batch_id>" ++ FormatInt (normalizeBatchID m)
        ++ " AND _peerdb_batch_id<=" ++ FormatInt (syncBatchID m)
        ++ " AND _peerdb_destination_table_name='" ++ dstTableName m ++ "')".
Proof.
  exists ("WITH _f AS (SELECT "
            ++ Join (map (castStmt qValueKindToBigQueryType QValueKind_of m)
                         (Columns (normalizedTableSchema m))
                       ++ ["_peerdb_timestamp"; "_peerdb_record_type AS _rt";
                           "_peerdb_unchanged_toast_columns AS _ut"])%list ","
            ++ " FROM `" ++ datasetTable_string (rawDatasetTable m) ++ "` ").
  unfold generateFlattenedCTE, flattenedWhere.
  rewrite !append_assoc. reflexivity.
Qed.

End Generator.



End BigQueryFacts.

(** ** Conversion of driver values *)
Module PeerSQLFacts.

Import Go GoFacts QValueKinds PeerSQL.
Local Open Scope string_scope.

Section Conversion.

Variables float32 float64 time_Time Rat : Type.
Variable float32_of_float64 : float64 -> float32.
Variable Rat_SetString : string -> option Rat.
Variable json_Unmarshal : string -> option (list (GoValue float32 float64 time_Time Rat)).

Abbreviation Val := (GoValue float32 float64 time_Time Rat).
Abbreviation toQValue :=
  (toQValue float32 float64 time_Time Rat float32_of_float64 Rat_SetString json_Unmarshal).
Abbreviation toQValueArray := (toQValueArray float32 float64 time_Time Rat).

(** Copying a slice whose elements all pass the assertion gives the
    payloads in order. *)
Lemma assertEach_map {T : Type} (assertT : Val -> option T) (wrap : T -> Val) xs :
  (forall x, assertT (wrap x) = Some x) ->
  assertEach float32 float64 time_Time Rat assertT (map wrap xs) = Some xs.
Proof.
  intros Hwrap. induction xs as [|x xs IH]; simpl; [reflexivity|].
  rewrite Hwrap, IH. reflexivity.
Qed.

(** The JSON case on a text that starts with a bracket and decodes. *)
Lemma toQValue_json_decoded text v :
  HasPrefix text "[" = true ->
  json_Unmarshal text = Some v ->
  toQValue QValueKindJSON (PtrInterface (Some (GoString text)))
  = match v with
    | [] => Ok {| Kind := QValueKindJSON; Value := GoString text |}
    | first :: _ =>
        toQValueArray (arrayKindOfFirst float32 float64 time_Time Rat first)
                      (SliceInterface v)
    end.
Proof.
  intros Hprefix Hdecode. simpl. rewrite Hprefix, Hdecode.
  destruct v; reflexivity.
Qed.


(** A slice of one primitive type converts to the array kind of that type
    with the payloads in order. *)
Lemma toQValueArray_homogeneous :
  (forall xs, toQValueArray QValueKindArrayFloat32
                (SliceInterface (map GoFloat32 xs))
              = Ok {| Kind := QValueKindArrayFloat32; Value := SliceFloat32 xs |})
  /\ (forall xs, toQValueArray QValueKindArrayFloat64
                   (SliceInterface (map GoFloat64 xs))
                 = Ok {| Kind := QValueKindArrayFloat64; Value := SliceFloat64 xs |})
  /\ (forall xs, toQValueArray QValueKindArrayInt16
                   (SliceInterface (map GoInt16 xs))
                 = Ok {| Kind := QValueKindArrayInt16; Value := SliceInt16 xs |})
  /\ (forall xs, toQValueArray QValueKindArrayInt32
                   (SliceInterface (map GoInt32 xs))
                 = Ok {| Kind := QValueKindArrayInt32; Value := SliceInt32 xs |})
  /\ (forall xs, toQValueArray QValueKindArrayInt64
                   (SliceInterface (map GoInt64 xs))
                 = Ok {| Kind := QValueKindArrayInt64; Value := SliceInt64 xs |})
  /\ (forall xs, toQValueArray QValueKindArrayString
                   (SliceInterface (map GoString xs))
                 = Ok {| Kind := QValueKindArrayString; Value := SliceString xs |}).
Proof.
  split; [|split; [|split; [|split; [|split]]]]; intros xs;
    unfold PeerSQL.toQValueArray, copyElements;
    rewrite assertEach_map by reflexivity; reflexivity.
Qed.

(** C7. For a JSON-kind driver value holding a text. When the text does
    not begin with an opening bracket, whatever it decodes to, the result
    keeps the JSON kind and the original text. When it begins with one
    and decodes to a non-empty array whose elements all have the runtime
    type float32, float64, int16, int32, int64 or string, the result has
    the array kind of that type and holds the elements in order; when it
    begins with one and decodes to the empty array, the result keeps the
    JSON kind and the original text. *)
Theorem toQValue_json_array_by_first_element text :
  let val := PtrInterface (Some (GoString text)) in
  (HasPrefix text "[" = false ->
   toQValue QValueKindJSON val = Ok {| Kind := QValueKindJSON; Value := GoString text |})
  /\ (HasPrefix text "[" = true ->
      (json_Unmarshal text = Some [] ->
       toQValue QValueKindJSON val
       = Ok {| Kind := QValueKindJSON; Value := GoString text |})
      /\ (forall x xs, json_Unmarshal text = Some (map GoFloat32 (x :: xs)) ->
            toQValue QValueKindJSON val
            = Ok {| Kind := QValueKindArrayFloat32; Value := SliceFloat32 (x :: xs) |})
      /\ (forall x xs, json_Unmarshal text = Some (map GoFloat64 (x :: xs)) ->
            toQValue QValueKindJSON val
            = Ok {| Kind := QValueKindArrayFloat64; Value := SliceFloat64 (x :: xs) |})
      /\ (forall x xs, json_Unmarshal text = Some (map GoInt16 (x :: xs)) ->
            toQValue QValueKindJSON val
            = Ok {| Kind := QValueKindArrayInt16; Value := SliceInt16 (x :: xs) |})
      /\ (forall x xs, json_Unmarshal text = Some (map GoInt32 (x :: xs)) ->
            toQValue QValueKindJSON val
            = Ok {| Kind := QValueKindArrayInt32; Value := SliceInt32 (x :: xs) |})
      /\ (forall x xs, json_Unmarshal text = Some (map GoInt64 (x :: xs)) ->
            toQValue QValueKindJSON val
            = Ok {| Kind := QValueKindArrayInt64; Value := SliceInt64 (x :: xs) |})
      /\ (forall x xs, json_Unmarshal text = Some (map GoString (x :: xs)) ->
            toQValue QValueKindJSON val
            = Ok {| Kind := QValueKindArrayString; Value := SliceString (x :: xs) |})).
Proof.
  intros val. split.
  { intros Hprefix. unfold val. simpl. rewrite Hprefix. reflexivity. }
  intros Hprefix.
  destruct toQValueArray_homogeneous as (H32 & H64 & Hi16 & Hi32 & Hi64 & Hstr).
  split; [|split; [|split; [|split; [|split; [|split]]]]]; intros; unfold val;
    erewrite toQValue_json_decoded by eassumption.
  - reflexivity.
  - apply (H32 (x :: xs)).
  - apply (H64 (x :: xs)).
  - apply (Hi16 (x :: xs)).
  - apply (Hi32 (x :: xs)).
  - apply (Hi64 (x :: xs)).
  - apply (Hstr (x :: xs)).
Qed.

(** A first element of any other runtime type selects the scalar string
    kind, for which the array conversion has no case. *)
Lemma toQValue_json_array_other_first text first rest :
  HasPrefix text "[" = true ->
  json_Unmarshal text = Some (first :: rest) ->
  arrayKindOfFirst float32 float64 time_Time Rat first = QValueKindString ->
  toQValue QValueKindJSON (PtrInterface (Some (GoString text)))
  = Ok {| Kind := QValueKindString; Value := GoNil |}.
Proof.
  intros Hprefix Hdecode Hkind.
  erewrite toQValue_json_decoded by eassumption. cbv beta iota.
  rewrite Hkind. reflexivity.
Qed.

(** A UUID delivered as a slice of 16 bytes becomes its canonical text. *)
Lemma toQValue_uuid_slice v :
  length v = 16%nat ->
  toQValue QValueKindUUID (PtrBytes (Some v))
  = Ok {| Kind := QValueKindString; Value := GoString (uuid_String v) |}.
Proof.
  intros Hlen. simpl. unfold uuid_FromBytes. rewrite Hlen. reflexivity.
Qed.

(** The second branch of the UUID case, for a pointer to an array of 16
    bytes, returns the array as it is; [processRows], the one caller of
    [toQValue], allocates a byte slice for a UUID column and never
    passes such a pointer. *)
Lemma toQValue_uuid_byte_array v :
  toQValue QValueKindUUID (PtrByteArray16 (Some v))
  = Ok {| Kind := QValueKindString; Value := GoByteArray16 v |}.
Proof. reflexivity. Qed.

End Conversion.

(** C7 at the example: the text [1.5,2.5] becomes an array of float64. *)
Lemma toQValue_json_array_by_first_element_witness :
  HasPrefix "[1.5,2.5]" "[" = true
  /\ Examples.convert QValueKindJSON (Examples.jsonValue "[1.5,2.5]")
     = Ok {| Kind := QValueKindArrayFloat64;
             Value := SliceFloat64 ["1.5"; "2.5"] |}.
Proof.
  assert (H1 : HasPrefix "[1.5,2.5]" "[" = true) by reflexivity.
  split; [exact H1|].
  destruct (toQValue_json_array_by_first_element string string string string
              (fun x => x) Some Examples.exampleUnmarshal "[1.5,2.5]")
    as (_ & Harrays).
  destruct (Harrays H1) as (_ & _ & H64 & _).
  apply (H64 "1.5" ["2.5"]). reflexivity.
Defined.

(** C7 as stated fails on the empty array: the text [[]] keeps the JSON
    kind and is not classified as an array of strings. *)
Lemma toQValue_empty_json_array_stays_json :
  Examples.convert QValueKindJSON (Examples.jsonValue "[]")
  = Ok {| Kind := QValueKindJSON; Value := GoString "[]" |}
  /\ Examples.convert QValueKindJSON (Examples.jsonValue "[]")
     <> Ok {| Kind := QValueKindArrayString; Value := SliceString [] |}.
Proof. split; [reflexivity | discriminate]. Qed.

End PeerSQLFacts.

(** ** The query replication workflows *)
Module QRepFacts.

Import Go GoFacts QRep.
Local Open Scope string_scope.
Local Open Scope Z_scope.

Lemma DivCeil_ceiling x y :
  1 <= x -> 1 <= y -> x <= 2 ^ 62 ->
  exists c, DivCeil x y = Some c /\ 1 <= c <= x /\ (c - 1) * y < x <= c * y.
Proof.
  intros Hx Hy Hbound. unfold DivCeil.
  destruct (Z.eqb_spec y 0) as [->|_]; [lia|].
  pose proof (Z.div_mod (- x) y ltac:(lia)) as Hdm.
  pose proof (Z.mod_pos_bound (- x) y ltac:(lia)) as Hmod.
  set (q := (- x) / y) in *.
  assert (Hc : 1 <= - q <= x /\ (- q - 1) * y < x <= - q * y) by nia.
  exists (- q). rewrite wrap64_id; [auto|].
  unfold in_int64, min_int64, max_int64. lia.
Qed.

Lemma slice_take_drop {A} (l : list A) i j :
  0 <= i -> i <= j -> j <= Z.of_nat (length l) ->
  slice l i j = Some (take (Z.to_nat (j - i)) (drop (Z.to_nat i) l)).
Proof.
  intros H0 Hij Hj. unfold slice.
  destruct (Z.leb_spec 0 i); [|lia]. destruct (Z.leb_spec i j); [|lia].
  destruct (Z.leb_spec j (Z.of_nat (length l))); [|lia]. reflexivity.
Qed.

Lemma slice_Some_inv {A} (l : list A) i j part :
  slice l i j = Some part -> 0 <= i /\ i <= j /\ j <= Z.of_nat (length l).
Proof.
  unfold slice. destruct (Z.leb_spec 0 i); [|discriminate].
  destruct (Z.leb_spec i j); [|discriminate].
  destruct (Z.leb_spec j (Z.of_nat (length l))); [|discriminate]. auto.
Qed.

Lemma batchLoop_total chunkSize partitions fuel :
  in_int64 chunkSize -> chunkSize <> 0 ->
  forall i batches,
  in_int64 i -> Z.of_nat (length partitions) - i <= Z.of_nat fuel ->
  batchLoop fuel chunkSize partitions i batches <> None.
Proof.
  intros Hc Hne. induction fuel as [|fuel IH]; intros i batches Hi Hfuel; simpl.
  - destruct (Z.ltb_spec i (Z.of_nat (length partitions))); [lia | discriminate].
  - destruct (Z.ltb_spec i (Z.of_nat (length partitions))) as [Hlt|]; [|discriminate].
    destruct (slice partitions i _) as [part|] eqn:Hslice; [|discriminate].
    apply slice_Some_inv in Hslice as (H0 & Hend & _).
    pose proof (add64_moves i chunkSize Hi Hc Hne) as Hmove.
    apply IH; [apply wrap64_range | lia].
Qed.

(** The chunking always finishes within its fuel. *)
Lemma chunkPartitions_total maxParallelWorkers partitions :
  chunkPartitions maxParallelWorkers partitions <> None.
Proof.
  unfold chunkPartitions, DivCeil.
  destruct (maxParallelWorkers =? 0); [discriminate|].
  unfold div64. destruct (Z.eqb_spec (wrap64 (- (- Z.of_nat (length partitions) / maxParallelWorkers))) 0);
    [discriminate|].
  apply batchLoop_total; try assumption.
  - apply wrap64_range.
  - unfold in_int64, min_int64, max_int64. lia.
  - lia.
Qed.

(** The loop from index [i] on: it appends to [batches] the chunks of the
    partitions from [i] on. *)
Lemma batchLoop_chunks partitions chunkSize fuel :
  1 <= chunkSize ->
  chunkSize <= Z.of_nat (length partitions) ->
  Z.of_nat (length partitions) <= 2 ^ 62 ->
  forall i batches,
  0 <= i -> Z.of_nat (length partitions) - i <= Z.of_nat fuel ->
  exists rest,
    batchLoop fuel chunkSize partitions i batches = Some (Ok (batches ++ rest)%list)
    /\ concat rest = drop (Z.to_nat i) partitions
    /\ chunked chunkSize rest
    /\ (rest = []
        \/ Z.of_nat (length rest) * chunkSize
           < Z.of_nat (length partitions) - i + chunkSize)
    /\ (i < Z.of_nat (length partitions) -> rest <> []).
Proof.
  intros chunkSize_pos chunkSize_le length_bound.
  set (n := Z.of_nat (length partitions)) in *.
  induction fuel as [|fuel IH]; intros i batches Hi Hfuel.
  - exists []. simpl. destruct (Z.ltb_spec i (Z.of_nat (length partitions))); [unfold n in *; lia|].
    rewrite app_nil_r. repeat split; auto.
    + symmetry. apply drop_ge. lia.
    + unfold n. lia.
  - simpl. destruct (Z.ltb_spec i (Z.of_nat (length partitions))) as [Hlt|Hge].
    + assert (Hadd : add64 i chunkSize = i + chunkSize).
      { apply add64_exact. unfold in_int64, min_int64, max_int64. lia. }
      rewrite Hadd.
      rewrite slice_take_drop by lia.
      destruct (IH (i + chunkSize) (batches ++ [take (Z.to_nat (Z.min (i + chunkSize) (Z.of_nat (length partitions)) - i)) (drop (Z.to_nat i) partitions)])%list)
        as (rest & Hloop & Hconcat & Hchunked & Hlen & Hne); [lia | unfold n in *; lia |].
      set (part := take _ _) in *.
      assert (Hpart : Z.of_nat (length part) = Z.min chunkSize (n - i)).
      { unfold part. rewrite length_take, length_drop. unfold n. lia. }
      exists (part :: rest). split; [|split; [|split; [|split]]].
      * rewrite Hloop, <- app_assoc. reflexivity.
      * simpl. rewrite Hconcat. unfold part.
        destruct (Z.le_gt_cases (i + chunkSize) (Z.of_nat (length partitions))) as [Hfit|Hover].
        -- rewrite Z.min_l by lia.
           replace (Z.to_nat (i + chunkSize)) with (Z.to_nat i + Z.to_nat (i + chunkSize - i))%nat by lia.
           rewrite <- drop_drop. apply take_drop.
        -- rewrite Z.min_r by lia.
           rewrite (drop_ge partitions (Z.to_nat (i + chunkSize))) by lia.
           rewrite app_nil_r. apply take_ge. rewrite length_drop. lia.
      * simpl. destruct rest as [|r rest'].
        -- lia.
        -- split; [|exact Hchunked].
           destruct (Z.lt_ge_cases (i + chunkSize) n) as [Hmore|Hdone]; [lia|].
           exfalso. destruct Hlen as [Hlen|Hlen]; [discriminate|].
           simpl length in Hlen. nia.
      * right. simpl length. destruct Hlen as [->|Hlen]; simpl; [unfold n; lia|]. lia.
      * discriminate.
    + exists []. rewrite app_nil_r. repeat split; auto.
      * symmetry. apply drop_ge. lia.
      * unfold n. lia.
Qed.


(** C5. For a non-empty list of partitions and at least one worker, the
    chunking of [processPartitions] finishes with at most
    [maxParallelWorkers] groups whose in-order concatenation is the
    original list; the chunk size is the ceiling of the number of partitions
    over the number of workers, every group but the last has exactly that
    size, and the last group has between 1 and that many partitions. *)
Theorem chunkPartitions_spec maxParallelWorkers partitions :
  1 <= maxParallelWorkers ->
  partitions <> [] ->
  Z.of_nat (length partitions) <= 2 ^ 62 ->
  exists chunkSize batches,
    DivCeil (Z.of_nat (length partitions)) maxParallelWorkers = Some chunkSize
    /\ (chunkSize - 1) * maxParallelWorkers < Z.of_nat (length partitions)
         <= chunkSize * maxParallelWorkers
    /\ chunkPartitions maxParallelWorkers partitions = Some (Ok batches)
    /\ Z.of_nat (length batches) <= maxParallelWorkers
    /\ concat batches = partitions
    /\ chunked chunkSize batches.
Proof.
  intros HW Hne Hbound.
  assert (Hlen : 1 <= Z.of_nat (length partitions)).
  { destruct partitions; [congruence|]. simpl length. lia. }
  destruct (DivCeil_ceiling _ maxParallelWorkers Hlen HW Hbound)
    as (c & Hdiv & Hc & Hceil).
  destruct (batchLoop_chunks partitions c (length partitions)
              ltac:(lia) ltac:(lia) Hbound 0 [] ltac:(lia) ltac:(lia))
    as (rest & Hloop & Hconcat & Hchunked & Hcount & _).
  exists c, rest. split; [exact Hdiv|]. split; [exact Hceil|].
  split; [|split; [|split]].
  - unfold chunkPartitions. rewrite Hdiv. unfold div64.
    destruct (Z.eqb_spec c 0); [lia|]. exact Hloop.
  - destruct Hcount as [->|Hcount]; [simpl; lia|]. nia.
  - rewrite Hconcat. reflexivity.
  - exact Hchunked.
Qed.

(** C5 at the example: seven partitions for three workers. *)
Lemma chunkPartitions_spec_witness :
  1 <= 3 /\ Examples.sevenPartitions <> []
  /\ Z.of_nat (length Examples.sevenPartitions) <= 2 ^ 62
  /\ exists chunkSize batches,
       chunkPartitions 3 Examples.sevenPartitions = Some (Ok batches)
       /\ Z.of_nat (length batches) <= 3
       /\ concat batches = Examples.sevenPartitions
       /\ chunked chunkSize batches.
Proof.
  assert (H1 : 1 <= 3) by lia.
  assert (H2 : Examples.sevenPartitions <> []) by discriminate.
  assert (H3 : Z.of_nat (length Examples.sevenPartitions) <= 2 ^ 62) by (simpl; lia).
  split; [exact H1|]. split; [exact H2|]. split; [exact H3|].
  destruct (chunkPartitions_spec 3 Examples.sevenPartitions H1 H2 H3)
    as (c & batches & _ & _ & Hres & Hlen & Hcat & Hshape).
  exists c, batches. auto.
Defined.

(** C5 as stated fails: seven partitions for three workers are chunked
    into groups of 3, 3 and 1, and 3 and 1 differ by two. *)
Lemma chunk_sizes_differ_by_two :
  exists batches,
    chunkPartitions 3 Examples.sevenPartitions = Some (Ok batches)
    /\ map length batches = [3; 3; 1]%nat
    /\ ~ (forall a b, a ∈ batches -> b ∈ batches -> (length a <= length b + 1)%nat).
Proof.
  eexists. split; [vm_compute; reflexivity|]. split; [reflexivity|].
  intros Hall.
  specialize (Hall (map Examples.partition [0; 1; 2]) (map Examples.partition [6])).
  simpl in Hall. 
  assert (3 <= 2)%nat; [|lia]. apply Hall.
  - apply list_elem_of_In. simpl. auto.
  - apply list_elem_of_In. simpl. auto.
Qed.

(** C9. The state a flow starts with has status Running, the sentinel
    partition as last partition, zero partitions processed and
    [NeedsResync] set, whatever the configuration; the resync handlers act
    on it exactly when the configuration asks for a full resync. *)
Theorem NewQRepFlowState_initial :
  CurrentFlowStatus NewQRepFlowState = STATUS_RUNNING
  /\ LastPartition NewQRepFlowState
     = Some {| PartitionId := "not-applicable-partition"; Range := None |}
  /\ NumPartitionsProcessed NewQRepFlowState = 0
  /\ NeedsResync NewQRepFlowState = true
  /\ forall config,
       resyncRequested config NewQRepFlowState = DstTableFullResync config
       /\ (DstTableFullResync config = false ->
           forall created,
             handleTableCreationForResync config NewQRepFlowState created = Ok config)
       /\ (DstTableFullResync config = true ->
           handleTableCreationForResync config NewQRepFlowState true
           = Ok (with_destination config
                   (DestinationTableIdentifier config ++ "_peerdb_resync"))).
Proof.
  repeat split; try reflexivity.
  - intros Hoff created. unfold handleTableCreationForResync, resyncRequested.
    rewrite Hoff. reflexivity.
  - intros Hon. unfold handleTableCreationForResync, resyncRequested.
    rewrite Hon. reflexivity.
Qed.

(** C9 as stated fails: without full resync configured the initial state
    still has [NeedsResync] set. *)
Lemma NewQRepFlowState_resync_without_full_resync :
  DstTableFullResync Examples.plainConfig = false
  /\ NeedsResync NewQRepFlowState = true
  /\ NeedsResync NewQRepFlowState <> DstTableFullResync Examples.plainConfig.
Proof. repeat split; try reflexivity. discriminate. Qed.

Section Signals.
Variable FlowSignalHandler : CDCFlowSignal -> CDCFlowSignal -> CDCFlowSignal.


Ltac case_step :=
  match goal with
  | |- context [if ?b then _ else _] => destruct b
  | |- context [match ?x with _ => _ end] => destruct x
  end.

(** A run of either workflow ends early or ends with the signal handling
    of the state it has reached. *)
Lemma QRepFlowWorkflow_ends_with_signals run config state :
  endsEarly (QRepFlowWorkflow FlowSignalHandler run config state)
  \/ exists config' state',
       QRepFlowWorkflow FlowSignalHandler run config state
       = handleSignalsAndContinue FlowSignalHandler config' state' (signalChan run).
Proof.
  unfold QRepFlowWorkflow, endsEarly.
  repeat (first [ solve [eauto 6] | case_step ]).
Qed.

Lemma XminFlowWorkflow_ends_with_signals run config state :
  endsEarly (XminFlowWorkflow FlowSignalHandler run config state)
  \/ exists config' state',
       XminFlowWorkflow FlowSignalHandler run config state
       = handleSignalsAndContinue FlowSignalHandler config' state' (signalChan run).
Proof.
  unfold XminFlowWorkflow, endsEarly.
  repeat (first [ solve [eauto 6] | case_step ]).
Qed.

(** Without a pause the state is carried over as it is. *)
Lemma no_pause_keeps_state config state chan :
  receiveAndHandleSignalAsync FlowSignalHandler NoopSignal chan <> PauseSignal ->
  cancelledAtEnd chan = false ->
  handleSignalsAndContinue FlowSignalHandler config state chan = ContinueAsNew config state.
Proof.
  intros Hno Hctx. unfold handleSignalsAndContinue.
  rewrite bool_decide_eq_false_2 by exact Hno. rewrite Hctx. reflexivity.
Qed.

End Signals.



End QRepFacts.

(** ** Formatting and text lengths *)
Module GoFormatFacts.
Import Go GoFacts.
Local Open Scope string_scope.
Local Open Scope Z_scope.

Lemma to_int_nonnil z :
  Z.to_int z <> Decimal.Pos Decimal.Nil /\ Z.to_int z <> Decimal.Neg Decimal.Nil.
Proof.
  destruct z as [|p|p]; simpl; split; try discriminate; intros [= H];
    exact (DecimalPos.Unsigned.to_uint_nonnil p H).
Qed.

(** [strconv.FormatInt] gives different texts for different numbers. *)
Lemma FormatInt_inj a b : FormatInt a = FormatInt b -> a = b.
Proof.
  unfold FormatInt. intros H.
  destruct (to_int_nonnil a) as [Ha1 Ha2]. destruct (to_int_nonnil b) as [Hb1 Hb2].
  pose proof (NilZero.isi (Z.to_int a) Ha1 Ha2) as Ea.
  pose proof (NilZero.isi (Z.to_int b) Hb1 Hb2) as Eb.
  rewrite H in Ea. rewrite Ea in Eb. injection Eb as Eb.
  apply DecimalZ.to_int_inj. exact Eb.
Qed.

Lemma append_length (a b : string) :
  String.length (a ++ b) = (String.length a + String.length b)%nat.
Proof.
  induction a as [|x a IH]; [reflexivity|].
  rewrite append_cons. simpl. rewrite IH. reflexivity.
Qed.

End GoFormatFacts.

(** ** One pass of NormalizeRecords *)
Module NormalizePassFacts.

Import Go GoFacts Protos ClickHouse.
Local Open Scope string_scope.
Local Open Scope Z_scope.

Section Facts.

Variable getRawTableName : string -> string.
Variable qValueKindToClickhouseType : string -> option string.

Abbreviation NormalizeRecords := (NormalizeRecords getRawTableName qValueKindToClickhouseType).
Abbreviation normalizeTables := (normalizeTables qValueKindToClickhouseType).
Abbreviation getDistinctTableNamesInBatch := (getDistinctTableNamesInBatch getRawTableName).

(** A scan loop that finishes has met no failing scan and no NULL
    name, and has appended every name to the names collected so far. *)
Lemma scanTableNames_Ok f rows : forall i acc names,
  scanTableNames f i rows acc = Ok names ->
  exists scanned,
    rows = map Some scanned /\ names = (acc ++ scanned)%list
    /\ forall j, (j < length rows)%nat -> fail_scan f (i + j) = false.
Proof.
  induction rows as [|row rest IH]; intros i acc names; simpl.
  - intros [= <-]. exists []. split; [reflexivity|].
    split; [symmetry; apply app_nil_r | intros j Hj; lia].
  - destruct (fail_scan f i) eqn:Hscan; [discriminate|].
    destruct row as [name|]; [|discriminate].
    intros H. apply IH in H as (scanned & -> & -> & Hrest). exists (name :: scanned).
    split; [reflexivity|]. split; [rewrite <- app_assoc; reflexivity|].
    intros [|j] Hj.
    + rewrite Nat.add_0_r. exact Hscan.
    + replace (i + S j)%nat with (S i + j)%nat by lia. apply Hrest. lia.
Qed.

(** The scan loop does not panic; it stops with an error at the first
    row whose scan fails or whose name is NULL. *)
Lemma scanTableNames_result f rows : forall i acc,
  match scanTableNames f i rows acc with
  | Ok _ => True
  | Err e =>
      (e = ErrScanTableName
       /\ exists j, (j < length rows)%nat /\ fail_scan f (i + j) = true)
      \/ (e = ErrTableNameNotValid /\ In None rows)
  | Panic => False
  end.
Proof.
  induction rows as [|row rest IH]; intros i acc; simpl; [exact I|].
  destruct (fail_scan f i) eqn:Hscan.
  { left. split; [reflexivity|]. exists 0%nat. rewrite Nat.add_0_r. split; [lia | exact Hscan]. }
  destruct row as [name|]; [|right; split; [reflexivity | left; reflexivity]].
  specialize (IH (S i) (acc ++ [name])%list).
  destruct (scanTableNames f (S i) rest (acc ++ [name])%list) as [names|e|];
    [exact I| |exact IH].
  destruct IH as [[-> (j & Hj & Hfail)] | [-> Hin]].
  - left. split; [reflexivity|]. exists (S j).
    replace (i + S j)%nat with (S i + j)%nat by lia. split; [lia | exact Hfail].
  - right. split; [reflexivity | right; exact Hin].
Qed.

Lemma elem_of_distinctTableNames raw n s o :
  o ∈ distinctTableNames raw n s
  <-> exists r, r ∈ raw /\ in_batch_range n s r /\ raw_destination_table_name r = o.
Proof.
  unfold distinctTableNames. rewrite elem_of_remove_dups.
  change (map raw_destination_table_name (rows_in_batch raw n s))
    with (raw_destination_table_name <$> rows_in_batch raw n s).
  rewrite list_elem_of_fmap. unfold rows_in_batch. split.
  - intros (r & -> & Hr). apply list_elem_of_filter in Hr as [Hrange Hr].
    exists r. auto.
  - intros (r & Hr & Hrange & <-). exists r. split; [reflexivity|].
    apply list_elem_of_filter. auto.
Qed.

Lemma tableNames_of_batch f raw n s names :
  scanTableNames f 0 (distinctTableNames raw n s) [] = Ok names ->
  NoDup names
  /\ (forall tbl, tbl ∈ names <->
        exists r, r ∈ raw /\ in_batch_range n s r /\ raw_destination_table_name r = Some tbl)
  /\ (forall r, r ∈ raw -> in_batch_range n s r -> raw_destination_table_name r <> None).
Proof.
  intros H. apply scanTableNames_Ok in H as (scanned & Hrows & -> & _). simpl.
  assert (Hnd : NoDup (map Some scanned)).
  { rewrite <- Hrows. apply NoDup_remove_dups. }
  assert (Hmem : forall o, o ∈ map Some scanned <->
            exists r, r ∈ raw /\ in_batch_range n s r /\ raw_destination_table_name r = o).
  { intros o. rewrite <- Hrows. apply elem_of_distinctTableNames. }
  split; [|split].
  - change (map Some scanned) with (Some <$> scanned) in Hnd.
    apply (NoDup_fmap_1 Some). exact Hnd.
  - intros tbl. rewrite <- Hmem.
    change (map Some scanned) with (@Some string <$> scanned).
    rewrite list_elem_of_fmap. split.
    + intros Hin. exists tbl. auto.
    + intros (t & [= ->] & Hin). exact Hin.
  - intros r Hr Hrange Hnone.
    assert (Hin : None ∈ map Some scanned).
    { apply Hmem. exists r. auto. }
    change (map Some scanned) with (@Some string <$> scanned) in Hin.
    apply list_elem_of_fmap in Hin as (t & [=] & _).
Qed.


Lemma buildColumns_Ok columns : forall colSelector projection built,
  buildColumns qValueKindToClickhouseType columns colSelector projection = Ok built ->
  Forall (fun column => is_Some (qValueKindToClickhouseType (fd_Type column))) columns.
Proof.
  induction columns as [|column rest IH]; intros colSelector projection built; simpl.
  - constructor.
  - destruct (qValueKindToClickhouseType (fd_Type column)) as [t|] eqn:Ht; [|discriminate].
    intros H. constructor; [rewrite Ht; eexists; reflexivity | eapply IH; exact H].
Qed.

(** A table list that the loop finishes: every table has a schema with
    convertible column types, one statement is sent per table, and each
    table receives the rows selected for it once. *)
Lemma normalizeTables_Ok f req rawTbl raw n tbls : forall c c',
  NoDup tbls ->
  rawTables c !! rawTbl = Some raw ->
  normalizeTables f req rawTbl n tbls c = (c', Ok tt) ->
  length (executed c') = (length (executed c) + length tbls)%nat
  /\ Forall (fun tbl => exists schema,
               TableNameSchemaMapping req !! tbl = Some schema
               /\ Forall (fun column => is_Some (qValueKindToClickhouseType (fd_Type column)))
                         (Columns schema)) tbls
  /\ forall tbl,
       tableRows c' tbl
       = (tableRows c tbl
            ++ (if decide (tbl ∈ tbls) then selectedRows raw tbl n (SyncBatchID req)
                else []))%list.
Proof.
  induction tbls as [|tbl rest IH]; intros c c' Hnd Hraw; simpl.
  - intros [= <-]. split; [lia|]. split; [constructor|].
    intros tbl. destruct (decide (tbl ∈ [])) as [Hin|_]; [inversion Hin|].
    symmetry. apply app_nil_r.
  - apply NoDup_cons in Hnd as [Hnotin Hnd].
    destruct (TableNameSchemaMapping req !! tbl) as [schema|] eqn:Hschema; [|discriminate].
    destruct (insertIntoSelectQuery _ rawTbl tbl schema n (SyncBatchID req)) as [q| |] eqn:Hq;
      [|discriminate|discriminate].
    unfold ExecInsertSelect. destruct (fail_exec f tbl); [discriminate|].
    rewrite Hraw. intros Hrest.
    apply IH in Hrest as (Hlen & Hschemas & Hrows); [|exact Hnd|exact Hraw].
    simpl in Hlen. rewrite length_app in Hlen. simpl in Hlen.
    split; [lia|]. split.
    + constructor; [|exact Hschemas]. exists schema. split; [exact Hschema|].
      unfold insertIntoSelectQuery in Hq.
      destruct (buildColumns _ (Columns schema) "(" EmptyString) as [built| |] eqn:Hb;
        [|discriminate|discriminate].
      eapply buildColumns_Ok; exact Hb.
    + intros tbl'. rewrite Hrows. unfold tableRows at 1; simpl.
      destruct (decide (tbl' = tbl)) as [->|Hne].
      * rewrite lookup_insert_eq. simpl.
        destruct (decide (tbl ∈ rest)) as [Hin|_]; [exact (False_ind _ (Hnotin Hin))|].
        destruct (decide (tbl ∈ tbl :: rest)) as [_|Hnin];
          [|exfalso; apply Hnin; left].
        rewrite app_nil_r. reflexivity.
      * rewrite lookup_insert_ne by congruence.
        destruct (decide (tbl' ∈ rest)) as [Hin|Hnin];
          destruct (decide (tbl' ∈ tbl :: rest)) as [Hin'|Hnin']; try reflexivity.
        -- exfalso. apply Hnin'. right. exact Hin.
        -- exfalso. apply elem_of_cons in Hin' as [?|?]; [congruence | exact (Hnin H)].
Qed.

(** A table list that the loop finishes: the database has accepted the
    statement of every table. *)
Lemma normalizeTables_exec f req rawTbl n tbls : forall c c',
  normalizeTables f req rawTbl n tbls c = (c', Ok tt) ->
  Forall (fun tbl => fail_exec f tbl = false) tbls.
Proof.
  induction tbls as [|tbl rest IH]; intros c c'; simpl; [constructor|].
  destruct (TableNameSchemaMapping req !! tbl) as [schema|]; [|discriminate].
  destruct (insertIntoSelectQuery _ rawTbl tbl schema n (SyncBatchID req)) as [q| |];
    [|discriminate|discriminate].
  unfold ExecInsertSelect. destruct (fail_exec f tbl) eqn:Hexec; [discriminate|].
  destruct (rawTables c !! rawTbl); [|discriminate]. intros Hrest.
  constructor; [exact Hexec | eapply IH; exact Hrest].
Qed.

(** What an invocation that reports [Done] went through. *)
Lemma NormalizeRecords_Done f c req c' resp n raw :
  pgMetadata c !! FlowJobName req = Some n ->
  rawTables c !! getRawTableName (FlowJobName req) = Some raw ->
  NormalizeRecords f c req = (c', Ok resp) ->
  Done resp = true ->
  exists names c1,
    fail_rows f = None
    /\ scanTableNames f 0 (distinctTableNames raw n (SyncBatchID req)) [] = Ok names
    /\ normalizeTables f req (getRawTableName (FlowJobName req)) n names c = (c1, Ok tt)
    /\ normalizedTables c' = normalizedTables c1
    /\ executed c' = executed c1.
Proof.
  intros Hn Hraw. unfold NormalizeRecords, GetLastNormalizeBatchID,
    pgMetadata_GetLastNormalizeBatchID.
  destruct (fail_get f); [discriminate|]. rewrite Hn.
  destruct (SyncBatchID req <=? n); [intros [= <- <-]; discriminate|].
  unfold ClickHouse.getDistinctTableNamesInBatch.
  destruct (fail_distinct f); [discriminate|]. rewrite Hraw. cbv zeta.
  unfold deliveredRows.
  destruct (fail_rows f) as [delivered|] eqn:Hrows.
  { destruct (scanTableNames f 0 _ []); discriminate. }
  destruct (scanTableNames f 0 _ []) as [names| |] eqn:Hnames; [|discriminate|discriminate].
  destruct (normalizeTables f req (getRawTableName (FlowJobName req)) n names c)
    as [c1 [[]| |]] eqn:Hloop; [|discriminate|discriminate].
  unfold pgMetadata_UpdateNormalizeBatchID. destruct (fail_update f); [discriminate|].
  intros [= <- <-] _. exists names, c1. auto.
Qed.

(** X1. [getDistinctTableNamesInBatch], when its query succeeds, never
    panics. It returns names only if the iteration of the reply reported
    no error, no scan of a row of the reply failed and no raw row of the
    range (normalizeBatchID, syncBatchID] has a NULL destination table
    name; the names are then, without repetition, exactly the destination
    table names of the raw rows of that range. It fails with the error of
    a failing scan of a delivered row, of a NULL name of a row of the
    range, or of the iteration of the reply, each only when that has
    happened. *)
Theorem getDistinctTableNamesInBatch_names f c flow s n raw :
  fail_distinct f = false ->
  rawTables c !! getRawTableName flow = Some raw ->
  match getDistinctTableNamesInBatch f c flow s n with
  | Ok names =>
      fail_rows f = None
      /\ (forall i, (i < length (distinctTableNames raw n s))%nat -> fail_scan f i = false)
      /\ NoDup names
      /\ (forall tbl, tbl ∈ names <->
            exists r, r ∈ raw /\ in_batch_range n s r
                      /\ raw_destination_table_name r = Some tbl)
      /\ (forall r, r ∈ raw -> in_batch_range n s r -> raw_destination_table_name r <> None)
  | Err e =>
      (e = ErrScanTableName
       /\ exists i, (i < length (deliveredRows f (distinctTableNames raw n s)))%nat
                    /\ fail_scan f i = true)
      \/ (e = ErrTableNameNotValid
          /\ exists r, r ∈ raw /\ in_batch_range n s r /\ raw_destination_table_name r = None)
      \/ (e = ErrReadRows /\ is_Some (fail_rows f))
  | Panic => False
  end.
Proof.
  intros Hf Hraw. unfold ClickHouse.getDistinctTableNamesInBatch. rewrite Hf, Hraw.
  cbv zeta.
  pose proof (scanTableNames_result f (deliveredRows f (distinctTableNames raw n s)) 0 [])
    as Hres.
  destruct (scanTableNames f 0 (deliveredRows f (distinctTableNames raw n s)) [])
    as [names|e|] eqn:E; [| |exact Hres].
  - unfold deliveredRows in E. destruct (fail_rows f) as [delivered|] eqn:Hrows.
    { right. right. split; [reflexivity | eexists; reflexivity]. }
    split; [reflexivity|]. split.
    + apply scanTableNames_Ok in E as (_ & _ & _ & Hscan). exact Hscan.
    + eapply tableNames_of_batch. exact E.
  - destruct Hres as [[-> Hscan] | [-> Hin]].
    + left. split; [reflexivity | exact Hscan].
    + right. left. split; [reflexivity|].
      assert (Hnone : None ∈ distinctTableNames raw n s).
      { apply list_elem_of_In in Hin. unfold deliveredRows in Hin.
        destruct (fail_rows f) as [delivered|]; [|exact Hin].
        apply elem_of_take in Hin as (i & Hi & _).
        eapply list_elem_of_lookup_2; exact Hi. }
      apply elem_of_distinctTableNames in Hnone as (r & Hr & Hrange & Hdst).
      exists r. auto.
Qed.

(** X2. An invocation of [NormalizeRecords] that reports [Done] has
    appended to every normalized table exactly the raw rows of the range
    (stored normalize batch id, requested sync batch id] addressed to it,
    once each, and nothing to the other tables; no raw row of the range
    is without a destination table. *)
Theorem NormalizeRecords_done_copies_pending_rows f c req c' resp n raw :
  pgMetadata c !! FlowJobName req = Some n ->
  rawTables c !! getRawTableName (FlowJobName req) = Some raw ->
  NormalizeRecords f c req = (c', Ok resp) ->
  Done resp = true ->
  (forall tbl,
     tableRows c' tbl = (tableRows c tbl ++ selectedRows raw tbl n (SyncBatchID req))%list)
  /\ (forall r, r ∈ raw -> in_batch_range n (SyncBatchID req) r ->
        exists tbl, raw_destination_table_name r = Some tbl /\ r ∈ tableRows c' tbl).
Proof.
  intros Hn Hraw Hrun Hdone.
  destruct (NormalizeRecords_Done f c req c' resp n raw Hn Hraw Hrun Hdone)
    as (names & c1 & _ & Hnames & Hloop & Htables & _).
  apply tableNames_of_batch in Hnames as (Hnd & Hmem & Hsome).
  apply (normalizeTables_Ok f req _ raw n names c c1 Hnd Hraw) in Hloop
    as (_ & _ & Hrows).
  assert (Hall : forall tbl,
            tableRows c' tbl
            = (tableRows c tbl ++ selectedRows raw tbl n (SyncBatchID req))%list).
  { intros tbl. unfold tableRows at 1. rewrite Htables. fold (tableRows c1 tbl).
    rewrite Hrows. destruct (decide (tbl ∈ names)) as [Hin|Hnin]; [reflexivity|].
    f_equal. symmetry. unfold selectedRows.
    destruct (filter _ (rows_in_batch raw n (SyncBatchID req))) as [|r rest] eqn:Hsel;
      [reflexivity|].
    exfalso. apply Hnin. apply Hmem.
    assert (Hr : r ∈ filter (fun r => raw_destination_table_name r = Some tbl)
                        (rows_in_batch raw n (SyncBatchID req))).
    { rewrite Hsel. left. }
    apply list_elem_of_filter in Hr as [Hdst Hr].
    apply list_elem_of_filter in Hr as [Hrange Hr]. exists r. auto. }
  split; [exact Hall|].
  intros r Hr Hrange.
  destruct (raw_destination_table_name r) as [tbl|] eqn:Hdst;
    [|exfalso; exact (Hsome r Hr Hrange Hdst)].
  exists tbl. split; [reflexivity|]. rewrite Hall. apply elem_of_app. right.
  unfold selectedRows, rows_in_batch.
  apply list_elem_of_filter. split; [exact Hdst|].
  apply list_elem_of_filter. auto.
Qed.

(** X3. An invocation of [NormalizeRecords] reports [Done] only if the
    request maps the destination table of every raw row of the range to a
    schema whose column types all have a ClickHouse type; it has then sent
    one statement for each distinct destination table of the range. *)
Theorem NormalizeRecords_done_needs_schemas f c req c' resp n raw :
  pgMetadata c !! FlowJobName req = Some n ->
  rawTables c !! getRawTableName (FlowJobName req) = Some raw ->
  NormalizeRecords f c req = (c', Ok resp) ->
  Done resp = true ->
  (forall r, r ∈ raw -> in_batch_range n (SyncBatchID req) r ->
     exists tbl schema,
       raw_destination_table_name r = Some tbl
       /\ TableNameSchemaMapping req !! tbl = Some schema
       /\ Forall (fun column => is_Some (qValueKindToClickhouseType (fd_Type column)))
                 (Columns schema))
  /\ length (executed c')
     = (length (executed c)
        + length (remove_dups (map raw_destination_table_name
                                 (rows_in_batch raw n (SyncBatchID req)))))%nat.
Proof.
  intros Hn Hraw Hrun Hdone.
  destruct (NormalizeRecords_Done f c req c' resp n raw Hn Hraw Hrun Hdone)
    as (names & c1 & _ & Hnames & Hloop & _ & Hexec).
  pose proof (scanTableNames_Ok _ _ _ _ _ Hnames) as (scanned & Hscanned & Heq & _).
  unfold distinctTableNames in Hscanned. simpl in Heq. subst scanned.
  apply tableNames_of_batch in Hnames as (Hnd & Hmem & Hsome).
  apply (normalizeTables_Ok f req _ raw n names c c1 Hnd Hraw) in Hloop
    as (Hlen & Hschemas & _).
  split.
  - intros r Hr Hrange.
    destruct (raw_destination_table_name r) as [tbl|] eqn:Hdst;
      [|exfalso; exact (Hsome r Hr Hrange Hdst)].
    assert (Hin : tbl ∈ names) by (apply Hmem; exists r; auto).
    rewrite Forall_forall in Hschemas. destruct (Hschemas tbl Hin) as (schema & Hs & Hcols).
    exists tbl, schema. auto.
  - rewrite Hexec, Hlen, Hscanned, length_map. reflexivity.
Qed.

(** X4. Whatever [NormalizeRecords] returns, it leaves the raw tables and
    the stored batch ids of the other flows as they were, and it changes
    the stored batch id of its own flow only in an invocation that reports
    [Done]. *)
Theorem NormalizeRecords_touches_only_own_counter f c req :
  let c' := fst (NormalizeRecords f c req) in
  rawTables c' = rawTables c
  /\ (forall flow, flow <> FlowJobName req -> pgMetadata c' !! flow = pgMetadata c !! flow)
  /\ match snd (NormalizeRecords f c req) with
     | Ok resp => Done resp = true \/ pgMetadata c' = pgMetadata c
     | Err _ | Panic => pgMetadata c' = pgMetadata c
     end.
Proof.
  unfold NormalizeRecords, GetLastNormalizeBatchID, pgMetadata_GetLastNormalizeBatchID.
  destruct (fail_get f); simpl; [auto|].
  destruct (pgMetadata c !! FlowJobName req) as [n|]; simpl; [|auto].
  destruct (SyncBatchID req <=? n); simpl; [auto|].
  destruct (ClickHouse.getDistinctTableNamesInBatch _ f c (FlowJobName req) (SyncBatchID req) n)
    as [tbls| |]; simpl; [|auto|auto].
  destruct (normalizeTables f req (getRawTableName (FlowJobName req)) n tbls c)
    as [c1 r] eqn:Hloop.
  apply ClickHouseFacts.normalizeTables_appends in Hloop as [Hmeta [Hraw _]].
  destruct r as [[]| |]; simpl; [|rewrite Hmeta; auto|rewrite Hmeta; auto].
  unfold pgMetadata_UpdateNormalizeBatchID.
  destruct (fail_update f); simpl; [rewrite Hmeta; auto|].
  split; [exact Hraw|]. split; [|left; reflexivity].
  intros flow Hflow. rewrite lookup_insert_ne by congruence. rewrite Hmeta. reflexivity.
Qed.

(** X26. Every response of [NormalizeRecords] names the requested sync
    batch id as [EndBatchID]. With [Done = false] the stored normalize
    batch id is at or above it and is returned as [StartBatchID]; with
    [Done = true] the stored id [n] was below it, the id stored
    afterwards and returned as [StartBatchID] is [n + 1], whatever the
    distance to the sync batch id, and no call to the outside failed:
    not the read of the stored id, the query for the table names, the
    scan of a row of its reply, the iteration of the reply, the statement
    of a destination table of the range, or the update of the stored
    id. *)
Theorem NormalizeRecords_response f c req n :
  pgMetadata c !! FlowJobName req = Some n ->
  in_int64 n -> in_int64 (SyncBatchID req) ->
  match snd (NormalizeRecords f c req) with
  | Ok resp =>
      EndBatchID resp = SyncBatchID req
      /\ (if Done resp
          then n < SyncBatchID req
               /\ StartBatchID resp = n + 1
               /\ pgMetadata (fst (NormalizeRecords f c req)) !! FlowJobName req
                  = Some (n + 1)
               /\ fail_get f = false /\ fail_distinct f = false /\ fail_update f = false
               /\ fail_rows f = None
               /\ exists raw,
                    rawTables c !! getRawTableName (FlowJobName req) = Some raw
                    /\ (forall i,
                          (i < length (distinctTableNames raw n (SyncBatchID req)))%nat ->
                          fail_scan f i = false)
                    /\ (forall r tbl,
                          r ∈ raw -> in_batch_range n (SyncBatchID req) r ->
                          raw_destination_table_name r = Some tbl ->
                          fail_exec f tbl = false)
          else SyncBatchID req <= n
               /\ StartBatchID resp = n
               /\ fst (NormalizeRecords f c req) = c)
  | Err _ | Panic => True
  end.
Proof.
  intros Hn Hn64 Hs64. unfold ClickHouse.NormalizeRecords,
    GetLastNormalizeBatchID, pgMetadata_GetLastNormalizeBatchID.
  destruct (fail_get f); simpl; [exact I|]. rewrite Hn.
  destruct (Z.leb_spec (SyncBatchID req) n) as [Hle|Hlt]; simpl.
  { split; [reflexivity|]. auto. }
  unfold ClickHouse.getDistinctTableNamesInBatch.
  destruct (fail_distinct f); simpl; [exact I|].
  destruct (rawTables c !! getRawTableName (FlowJobName req)) as [raw|]; simpl; [|exact I].
  unfold deliveredRows.
  destruct (fail_rows f) as [delivered|] eqn:Hrows.
  { destruct (scanTableNames f 0 _ []); simpl; exact I. }
  destruct (scanTableNames f 0 _ []) as [tbls| |] eqn:Hnames; simpl; [|exact I|exact I].
  destruct (normalizeTables f req (getRawTableName (FlowJobName req)) n tbls c)
    as [c1 [[]| |]] eqn:Hloop; simpl; [|exact I|exact I].
  unfold pgMetadata_UpdateNormalizeBatchID.
  destruct (fail_update f); simpl; [exact I|].
  assert (Hadd : add64 n 1 = n + 1).
  { apply add64_exact. unfold in_int64, min_int64, max_int64 in *. lia. }
  rewrite Hadd. split; [reflexivity|]. split; [exact Hlt|]. split; [reflexivity|].
  split; [apply lookup_insert_eq|]. do 4 (split; [reflexivity|]).
  exists raw. split; [reflexivity|]. split.
  - apply scanTableNames_Ok in Hnames as (_ & _ & _ & Hscan). exact Hscan.
  - intros r tbl Hr Hrange Hdst.
    apply normalizeTables_exec in Hloop. rewrite Forall_forall in Hloop. apply Hloop.
    apply tableNames_of_batch in Hnames as (_ & Hmem & _). apply Hmem. exists r. auto.
Qed.

End Facts.

(** X1 at the example flow: the rows of batches 1 and 2 are addressed to
    one table. *)
Lemma getDistinctTableNamesInBatch_names_witness :
  fail_distinct no_faults = false
  /\ getDistinctTableNamesInBatch Examples.rawTableName no_faults Examples.connector0
       "mirror" 2 0 = Ok ["users"]
  /\ NoDup ["users"].
Proof.
  assert (H1 : fail_distinct no_faults = false) by reflexivity.
  assert (H2 : rawTables Examples.connector0 !! Examples.rawTableName "mirror"
               = Some [Examples.rawRow 1 100; Examples.rawRow 2 200])
    by (vm_compute; reflexivity).
  assert (E : getDistinctTableNamesInBatch Examples.rawTableName no_faults
                Examples.connector0 "mirror" 2 0 = Ok ["users"])
    by (vm_compute; reflexivity).
  pose proof (getDistinctTableNamesInBatch_names Examples.rawTableName no_faults
                Examples.connector0 "mirror" 2 0 _ H1 H2) as H.
  rewrite E in H. destruct H as (_ & _ & Hnd & _).
  split; [exact H1|]. split; [exact E | exact Hnd].
Defined.

(** X2 at the example flow: the pass for sync batch 2 copies the rows of
    batches 1 and 2. *)
Lemma NormalizeRecords_done_copies_pending_rows_witness :
  pgMetadata Examples.connector0 !! FlowJobName (Examples.request 2) = Some 0
  /\ tableRows (fst (Examples.normalize Examples.connector0 (Examples.request 2))) "users"
     = [Examples.rawRow 1 100; Examples.rawRow 2 200].
Proof.
  assert (H1 : pgMetadata Examples.connector0 !! FlowJobName (Examples.request 2) = Some 0)
    by (vm_compute; reflexivity).
  assert (H2 : rawTables Examples.connector0
                 !! Examples.rawTableName (FlowJobName (Examples.request 2))
               = Some [Examples.rawRow 1 100; Examples.rawRow 2 200])
    by (vm_compute; reflexivity).
  assert (H3 : NormalizeRecords Examples.rawTableName Examples.clickhouseType no_faults
                 Examples.connector0 (Examples.request 2)
               = (fst (Examples.normalize Examples.connector0 (Examples.request 2)),
                  Ok {| Done := true; StartBatchID := 1; EndBatchID := 2 |}))
    by (vm_compute; reflexivity).
  split; [exact H1|].
  destruct (NormalizeRecords_done_copies_pending_rows Examples.rawTableName
              Examples.clickhouseType no_faults Examples.connector0 (Examples.request 2)
              _ _ 0 _ H1 H2 H3 eq_refl) as [Hall _].
  rewrite Hall. vm_compute. reflexivity.
Defined.

(** X3 at the example flow: the pass sends one statement, for the one
    destination table of the range. *)
Lemma NormalizeRecords_done_needs_schemas_witness :
  pgMetadata Examples.connector0 !! FlowJobName (Examples.request 2) = Some 0
  /\ length (executed (fst (Examples.normalize Examples.connector0 (Examples.request 2))))
     = 1%nat.
Proof.
  assert (H1 : pgMetadata Examples.connector0 !! FlowJobName (Examples.request 2) = Some 0)
    by (vm_compute; reflexivity).
  assert (H2 : rawTables Examples.connector0
                 !! Examples.rawTableName (FlowJobName (Examples.request 2))
               = Some [Examples.rawRow 1 100; Examples.rawRow 2 200])
    by (vm_compute; reflexivity).
  assert (H3 : NormalizeRecords Examples.rawTableName Examples.clickhouseType no_faults
                 Examples.connector0 (Examples.request 2)
               = (fst (Examples.normalize Examples.connector0 (Examples.request 2)),
                  Ok {| Done := true; StartBatchID := 1; EndBatchID := 2 |}))
    by (vm_compute; reflexivity).
  split; [exact H1|].
  destruct (NormalizeRecords_done_needs_schemas Examples.rawTableName
              Examples.clickhouseType no_faults Examples.connector0 (Examples.request 2)
              _ _ 0 _ H1 H2 H3 eq_refl) as [_ Hlen].
  rewrite Hlen. vm_compute. reflexivity.
Defined.

(** X26 at the example flow: the pass for sync batch 2 stores 1. *)
Lemma NormalizeRecords_response_witness :
  pgMetadata Examples.connector0 !! FlowJobName (Examples.request 2) = Some 0
  /\ pgMetadata (fst (Examples.normalize Examples.connector0 (Examples.request 2)))
       !! FlowJobName (Examples.request 2)
     = Some (0 + 1).
Proof.
  assert (H1 : pgMetadata Examples.connector0 !! FlowJobName (Examples.request 2) = Some 0)
    by (vm_compute; reflexivity).
  assert (H2 : in_int64 0) by (unfold in_int64, min_int64, max_int64; lia).
  assert (H3 : in_int64 (SyncBatchID (Examples.request 2)))
    by (unfold in_int64, min_int64, max_int64; simpl; lia).
  split; [exact H1|].
  pose proof (NormalizeRecords_response Examples.rawTableName Examples.clickhouseType
                no_faults Examples.connector0 (Examples.request 2) 0 H1 H2 H3) as H.
  assert (E : snd (NormalizeRecords Examples.rawTableName Examples.clickhouseType
                     no_faults Examples.connector0 (Examples.request 2))
              = Ok {| Done := true; StartBatchID := 1; EndBatchID := 2 |})
    by (vm_compute; reflexivity).
  rewrite E in H. destruct H as (_ & _ & _ & Hstored & _). exact Hstored.
Defined.

End NormalizePassFacts.

(** ** Setting up a normalized ClickHouse table *)
Module ClickHouseSetupFacts.

Import Go GoFacts Protos ClickHouse ClickHouseSetup.
Local Open Scope string_scope.
Local Open Scope Z_scope.

Section Facts.

Variable qValueKindToClickhouseType : string -> option string.
Variable QValueKindNumeric : string.
Variable ParseNumericTypmod : Z -> Z * Z.
Variables PeerDBClickhousePrecision PeerDBClickhouseScale : Z.
Variable ToLower : string -> string.

Abbreviation writeColumns :=
  (writeColumns qValueKindToClickhouseType QValueKindNumeric ParseNumericTypmod
     PeerDBClickhousePrecision PeerDBClickhouseScale).
Abbreviation generateCreateTableSQLForNormalizedTable :=
  (generateCreateTableSQLForNormalizedTable qValueKindToClickhouseType QValueKindNumeric
     ParseNumericTypmod PeerDBClickhousePrecision PeerDBClickhouseScale ToLower).
Abbreviation SetupNormalizedTable :=
  (SetupNormalizedTable qValueKindToClickhouseType QValueKindNumeric
     ParseNumericTypmod PeerDBClickhousePrecision PeerDBClickhouseScale ToLower).

Abbreviation hasClickhouseType :=
  (hasClickhouseType qValueKindToClickhouseType).

Lemma writeColumns_result columns : forall stmtBuilder,
  (Forall hasClickhouseType columns
   /\ exists stmt, writeColumns columns stmtBuilder = Ok stmt)
  \/ (exists before column after,
        columns = (before ++ column :: after)%list
        /\ Forall hasClickhouseType before
        /\ qValueKindToClickhouseType (fd_Type column) = None
        /\ writeColumns columns stmtBuilder = Err (ErrColumnType (fd_Type column))).
Proof.
  induction columns as [|column rest IH]; intros stmtBuilder; simpl.
  - left. split; [constructor | eexists; reflexivity].
  - destruct (qValueKindToClickhouseType (fd_Type column)) as [t|] eqn:Ht.
    + destruct (IH (stmtBuilder
                      ++ columnDefinition QValueKindNumeric ParseNumericTypmod
                           PeerDBClickhousePrecision PeerDBClickhouseScale column t))
        as [[Hall Hok] | (before & bad & after & -> & Hbefore & Hbad & Herr)].
      * left. split; [|exact Hok]. constructor; [|exact Hall].
        unfold hasClickhouseType. rewrite Ht. eexists; reflexivity.
      * right. exists (column :: before), bad, after. split; [reflexivity|].
        split; [|split; assumption]. constructor; [|exact Hbefore].
        unfold hasClickhouseType. rewrite Ht. eexists; reflexivity.
    + right. exists [], column, rest. split; [reflexivity|].
      split; [constructor|]. split; [exact Ht | reflexivity].
Qed.

Lemma generateCreateTableSQL_result normalizedTable tableSchema softDelete syncedAt :
  (Forall hasClickhouseType (Columns tableSchema)
   /\ exists stmt,
        generateCreateTableSQLForNormalizedTable normalizedTable tableSchema
          softDelete syncedAt = Ok stmt)
  \/ (exists before column after,
        Columns tableSchema = (before ++ column :: after)%list
        /\ Forall hasClickhouseType before
        /\ qValueKindToClickhouseType (fd_Type column) = None
        /\ generateCreateTableSQLForNormalizedTable normalizedTable tableSchema
             softDelete syncedAt = Err (ErrColumnType (fd_Type column))).
Proof.
  unfold ClickHouseSetup.generateCreateTableSQLForNormalizedTable.
  destruct (writeColumns_result (Columns tableSchema)
              ("CREATE TABLE IF NOT EXISTS `" ++ normalizedTable ++ "` ("))
    as [[Hall [stmt ->]] | (before & column & after & Hcols & Hbefore & Hbad & ->)].
  - left. split; [exact Hall|].
    destruct (0 <? length (PrimaryKeyColumns tableSchema))%nat; eexists; reflexivity.
  - right. exists before, column, after. auto.
Qed.

(** X5. [generateCreateTableSQLForNormalizedTable], given a schema that
    is not nil, never panics; it
    returns a statement exactly when every column type of the schema has a
    ClickHouse type, and otherwise fails on the first column whose type
    has none, numeric columns included. The type modifiers and the names
    of the soft-delete and synced-at columns never make it fail. *)
Theorem generateCreateTableSQL_fails_on_first_unmapped_column
    normalizedTable tableSchema softDelete syncedAt :
  match generateCreateTableSQLForNormalizedTable normalizedTable tableSchema
          softDelete syncedAt with
  | Ok _ => Forall hasClickhouseType (Columns tableSchema)
  | Err e =>
      exists before column after,
        Columns tableSchema = (before ++ column :: after)%list
        /\ Forall hasClickhouseType before
        /\ qValueKindToClickhouseType (fd_Type column) = None
        /\ e = ErrColumnType (fd_Type column)
  | Panic => False
  end.
Proof.
  destruct (generateCreateTableSQL_result normalizedTable tableSchema softDelete syncedAt)
    as [[Hall [stmt ->]] | (before & column & after & Hcols & Hbefore & Hbad & ->)].
  - exact Hall.
  - exists before, column, after. auto.
Qed.

(** X6. Provided the default precision and scale of the numeric package
    are themselves within the limits, the DECIMAL type written for a
    numeric column never has a precision above 76 nor a scale above its
    precision, whatever the type modifier of the column. *)
Theorem numeric_column_within_decimal_limits column clickhouseType :
  PeerDBClickhousePrecision <= 76 ->
  PeerDBClickhouseScale <= PeerDBClickhousePrecision ->
  fd_Type column = QValueKindNumeric ->
  exists precision scale,
    columnDefinition QValueKindNumeric ParseNumericTypmod
      PeerDBClickhousePrecision PeerDBClickhouseScale column clickhouseType
    = "`" ++ fd_Name column ++ "` DECIMAL(" ++ FormatInt precision ++ ", "
        ++ FormatInt scale ++ "), "
    /\ precision <= 76 /\ scale <= precision.
Proof.
  intros Hp Hs Hnumeric. unfold columnDefinition. rewrite Hnumeric, String.eqb_refl.
  unfold numericPrecisionScale.
  destruct (ParseNumericTypmod (fd_TypeModifier column)) as [precision scale].
  destruct (fd_TypeModifier column =? -1); simpl;
    [exists PeerDBClickhousePrecision, PeerDBClickhouseScale; auto|].
  destruct (76 <? precision) eqn:H76; simpl;
    [exists PeerDBClickhousePrecision, PeerDBClickhouseScale; auto|].
  destruct (precision <? scale) eqn:Hscale;
    [exists PeerDBClickhousePrecision, PeerDBClickhouseScale; auto|].
  exists precision, scale. apply Z.ltb_ge in H76, Hscale. auto.
Qed.

(** X7. [SetupNormalizedTable] passes at most one statement to the
    database. It passes one, the generated CREATE TABLE statement, exactly
    when the existence check answers no and every column type has a
    ClickHouse type; it then answers that the table did not exist if the
    database accepts the statement, and fails if the database refuses it.
    In every other case it passes nothing and answers neither of the two.
    It answers that the table existed exactly when the check says so. *)
Theorem SetupNormalizedTable_creates_missing_table
    checkIfTableExists execFails sent tableIdentifier tableSchema softDelete syncedAt :
  let run := SetupNormalizedTable checkIfTableExists execFails sent
               tableIdentifier tableSchema softDelete syncedAt in
  (snd run = Ok true <-> checkIfTableExists tableIdentifier = Some true)
  /\ ((exists stmt,
         checkIfTableExists tableIdentifier = Some false
         /\ Forall hasClickhouseType (Columns tableSchema)
         /\ generateCreateTableSQLForNormalizedTable tableIdentifier tableSchema
              softDelete syncedAt = Ok stmt
         /\ fst run = (sent ++ [stmt])%list
         /\ snd run = if execFails stmt then Err ErrCreateTable else Ok false)
      \/ (fst run = sent
          /\ snd run <> Ok false /\ snd run <> Err ErrCreateTable
          /\ (checkIfTableExists tableIdentifier <> Some false
              \/ ~ Forall hasClickhouseType (Columns tableSchema)))).
Proof.
  unfold ClickHouseSetup.SetupNormalizedTable.
  destruct (checkIfTableExists tableIdentifier) as [[|]|]; simpl.
  - split; [tauto|]. right. repeat split; try discriminate. left. discriminate.
  - destruct (generateCreateTableSQL_result tableIdentifier tableSchema softDelete syncedAt)
      as [[Hall [stmt ->]] | (before & column & after & Hcols & Hbefore & Hbad & ->)].
    + split; [destruct (execFails stmt); split; discriminate|].
      left. exists stmt. destruct (execFails stmt); auto.
    + simpl. split; [split; discriminate|]. right. repeat split; try discriminate.
      right. intros Hall. rewrite Hcols in Hall.
      apply Forall_app in Hall as [_ Hall]. apply Forall_cons in Hall as [[t Ht] _].
      congruence.
  - split; [split; discriminate|]. right. repeat split; try discriminate. left. discriminate.
Qed.

End Facts.

(** X6 at a column of type numeric(10, 2), with 76 and 38 as the default
    precision and scale. *)
Lemma numeric_column_within_decimal_limits_witness :
  fd_Type Scenarios.amountColumn = "numeric"
  /\ exists precision scale,
       columnDefinition "numeric" Scenarios.parseNumericTypmod 76 38
         Scenarios.amountColumn "Decimal(76, 38)"
       = "`" ++ fd_Name Scenarios.amountColumn ++ "` DECIMAL(" ++ FormatInt precision
           ++ ", " ++ FormatInt scale ++ "), "
       /\ precision <= 76 /\ scale <= precision.
Proof.
  assert (H1 : (76 <= 76)%Z) by lia.
  assert (H2 : (38 <= 76)%Z) by lia.
  assert (H3 : fd_Type Scenarios.amountColumn = "numeric") by reflexivity.
  split; [exact H3|].
  exact (numeric_column_within_decimal_limits "numeric" Scenarios.parseNumericTypmod 76 38
           Scenarios.amountColumn "Decimal(76, 38)" H1 H2 H3).
Defined.

End ClickHouseSetupFacts.

(** ** Further properties of the merge statement generator *)
Module MergeFacts.

Import Go GoFacts GoFormatFacts Protos QValueKinds BigQuery BigQueryFacts.
Local Open Scope string_scope.
Local Open Scope Z_scope.

Lemma recordShortColumns_other name columns : forall i sc,
  name ∉ map fd_Name columns ->
  recordShortColumns i columns sc !! name = sc !! name.
Proof.
  induction columns as [|col rest IH]; intros i sc Hname; simpl; [reflexivity|].
  simpl in Hname. apply not_elem_of_cons in Hname as [Hne Hname].
  rewrite IH by exact Hname. apply lookup_insert_ne. congruence.
Qed.

Lemma recordShortColumns_names columns : forall i sc,
  NoDup (map fd_Name columns) ->
  map (fun col => default EmptyString (recordShortColumns i columns sc !! fd_Name col))
      columns
  = imap (fun j _ => "_c" ++ FormatInt (Z.of_nat (i + j))) columns.
Proof.
  induction columns as [|col rest IH]; intros i sc Hnd; [reflexivity|].
  simpl in Hnd. apply NoDup_cons in Hnd as [Hnotin Hnd].
  cbn [map imap recordShortColumns]. f_equal.
  - rewrite recordShortColumns_other by exact Hnotin.
    rewrite lookup_insert_eq. simpl. rewrite Nat.add_0_r. reflexivity.
  - transitivity (map (fun col0 => default EmptyString
                         (recordShortColumns (S i) rest
                            (<[fd_Name col := "_c" ++ FormatInt (Z.of_nat i)]> sc)
                          !! fd_Name col0)) rest); [reflexivity|].
    rewrite IH by exact Hnd. apply imap_ext. intros j x _. simpl.
    rewrite Nat.add_succ_r. reflexivity.
Qed.

Lemma shortNames_lookup columns j name :
  shortNames columns !! j = Some name -> name = "_c" ++ FormatInt (Z.of_nat j).
Proof.
  unfold shortNames. rewrite list_lookup_imap.
  destruct (columns !! j); simpl; [intros [= <-]; reflexivity | discriminate].
Qed.

Lemma shortNames_NoDup columns : NoDup (shortNames columns).
Proof.
  apply NoDup_alt. intros i j name Hi Hj.
  apply shortNames_lookup in Hi, Hj. rewrite Hi in Hj.
  injection Hj as Hj. apply FormatInt_inj in Hj. lia.
Qed.

Lemma updateStatementsFor_length m allCols cols :
  length (updateStatementsFor m allCols cols) = if handleSoftDelete m then 2%nat else 1%nat.
Proof.
  unfold updateStatementsFor, handleSoftDelete.
  destruct (SoftDelete (peerdbCols m) && negb (SoftDeleteColName (peerdbCols m) =? EmptyString)%string);
    reflexivity.
Qed.

Lemma ArrayMinus_none first second :
  Forall (fun element => element ∉ second) first -> ArrayMinus first second = first.
Proof.
  unfold ArrayMinus. induction 1 as [|x l Hx _ IH]; [reflexivity|].
  rewrite filter_cons_True by exact Hx. rewrite IH. reflexivity.
Qed.

Lemma find_delete_clause m allCols rec : forall uts,
  handleSoftDelete m = true ->
  staged_ut rec ∈ uts -> staged_rt rec = 2 ->
  List.find (clauseApplies rec) (updateClauses m allCols uts)
  = Some {| uc_delete := true; uc_unchanged := staged_ut rec;
            uc_sets := updateSets m allCols (staged_ut rec) true |}.
Proof.
  intros uts Hsd Hin Hrt. apply Z.eqb_eq in Hrt.
  induction uts as [|g rest IH]; [inversion Hin|].
  unfold updateClauses. simpl. unfold clauseApplies at 1. simpl.
  rewrite Hrt, Hsd. simpl. unfold clauseApplies at 1. simpl. rewrite Hrt. simpl.
  destruct (String.eqb_spec g (staged_ut rec)) as [->|Hne]; [reflexivity|].
  apply elem_of_cons in Hin as [Hin|Hin]; [congruence|]. apply IH, Hin.
Qed.

Lemma updateClauses_without_soft_delete m allCols uts :
  handleSoftDelete m = false ->
  updateClauses m allCols uts
  = map (fun cols => {| uc_delete := false; uc_unchanged := cols;
                        uc_sets := updateSets m allCols cols false |}) uts.
Proof.
  intros Hhandle. induction uts as [|cols rest IH]; [reflexivity|].
  change (updateClauses m allCols (cols :: rest))
    with (updateClausesFor m allCols cols ++ updateClauses m allCols rest)%list.
  rewrite IH. unfold updateClausesFor. rewrite Hhandle. reflexivity.
Qed.

Section Generator.
Variable datasetTable_string : datasetTable -> string.
Variable qValueKindToBigQueryType : string -> string.
Variable QValueKind_of : string -> QValueKind.
Abbreviation generateMergeStmt :=
  (generateMergeStmt datasetTable_string qValueKindToBigQueryType QValueKind_of).
Abbreviation mergeHeader :=
  (mergeHeader datasetTable_string qValueKindToBigQueryType QValueKind_of).

(** X8. After [generateMergeStmt], for a schema whose column names are
    distinct, the short name the generator has recorded for the i-th column
    (the alias of its projection in the flattened CTE and the source of its
    UPDATE assignment) is [_c<i>], the i-th value of the INSERT branches;
    and the short names of distinct positions differ. *)
Theorem generateMergeStmt_short_columns_by_position m0 uts :
  NoDup (map fd_Name (Columns (normalizedTableSchema m0))) ->
  let m := fst (generateMergeStmt m0 uts) in
  map (fun col => shortColumnOf m (fd_Name col)) (Columns (normalizedTableSchema m0))
  = shortNames (Columns (normalizedTableSchema m0))
  /\ (forall i col, Columns (normalizedTableSchema m0) !! i = Some col ->
        shortColumnOf m (fd_Name col) = "_c" ++ FormatInt (Z.of_nat i))
  /\ NoDup (shortNames (Columns (normalizedTableSchema m0))).
Proof.
  intros Hnd m.
  assert (Hmap : map (fun col => shortColumnOf m (fd_Name col))
                     (Columns (normalizedTableSchema m0))
                 = shortNames (Columns (normalizedTableSchema m0))).
  { unfold m, shortColumnOf. simpl.
    rewrite (recordShortColumns_names _ 0 (shortColumn m0) Hnd). reflexivity. }
  split; [exact Hmap|]. split; [|apply shortNames_NoDup].
  intros i col Hi. apply (shortNames_lookup (Columns (normalizedTableSchema m0))).
  rewrite <- Hmap.
  change (map ?f ?l) with (f <$> l). rewrite list_lookup_fmap, Hi. reflexivity.
Qed.

(** X9. Without soft delete, the generated MERGE is its header, the
    INSERT branch, one UPDATE branch for each group of unchanged toast
    columns and a final branch that deletes the matched row; no branch
    writes TRUE into any column. *)
Theorem hard_delete_statement_never_marks_rows m0 uts :
  SoftDelete (peerdbCols m0) = false ->
  let m := fst (generateMergeStmt m0 uts) in
  snd (generateMergeStmt m0 uts)
  = mergeHeader m ++ " " ++ render_mergeBranch (insertBranch m) ++ " "
      ++ Join (map render_mergeBranch (middleBranches m uts)) " " ++ " "
      ++ "WHEN MATCHED AND _d._rt=2 THEN DELETE;"
  /\ length (middleBranches m uts) = length uts
  /\ mb_action (deleteBranch m) = DeleteRow
  /\ forall b sd, b ∈ mergeBranches m uts -> setsTrue sd (mb_action b) = false.
Proof.
  intros Hsoft m.
  assert (Hm : peerdbCols m = peerdbCols m0) by reflexivity.
  assert (Hhandle : handleSoftDelete m = false).
  { unfold handleSoftDelete. rewrite Hm, Hsoft. reflexivity. }
  assert (Hmid : middleBranches m uts
                 = map (fun cols => branchOfClause
                          {| uc_delete := false; uc_unchanged := cols;
                             uc_sets := updateSets m (map fd_Name (Columns (normalizedTableSchema m)))
                                          cols false |}) uts).
  { unfold middleBranches. rewrite Hm, Hsoft, app_nil_r.
    rewrite (updateClauses_without_soft_delete m _ uts Hhandle), map_map. reflexivity. }
  split; [|split; [|split]].
  - pose proof (generateMergeStmt_render datasetTable_string qValueKindToBigQueryType
                  QValueKind_of m0 uts) as Hrender.
    cbv zeta in Hrender. fold m in Hrender. rewrite Hrender.
    unfold deleteBranch. rewrite Hm, Hsoft. reflexivity.
  - rewrite Hmid. apply length_map.
  - unfold deleteBranch. rewrite Hm, Hsoft. reflexivity.
  - intros b sd Hb. unfold mergeBranches in Hb.
    apply elem_of_cons in Hb as [->|Hb]; [reflexivity|].
    apply elem_of_app in Hb as [Hb|Hb].
    + rewrite Hmid in Hb. apply list_elem_of_fmap in Hb as (cols & -> & _).
      apply setsTrue_no_true_literal, updateSets_false_no_true_literal.
    + apply list_elem_of_singleton in Hb. subst b.
      unfold deleteBranch. rewrite Hm, Hsoft. reflexivity.
Qed.

End Generator.

(** X10. With soft delete handled, a matched delete record whose group of
    unchanged toast columns is one of the generated groups is applied by
    the [_rt=2] UPDATE branch of that group, and the row it leaves is the
    row the [_rt!=2] branch of the group would leave with the soft-delete
    column set to TRUE: the delete is treated as an update and then marks
    the row. *)
Theorem delete_record_updates_then_marks_row m allCols uts rec row :
  handleSoftDelete m = true ->
  staged_ut rec ∈ uts ->
  staged_rt rec = 2 ->
  applyMatched (updateClauses m allCols uts) rec row
  = <[SoftDeleteColName (peerdbCols m) := CellBool true]>
      (applySets rec (updateSets m allCols (staged_ut rec) false) row).
Proof.
  intros Hsd Hin Hrt. unfold applyMatched.
  rewrite (find_delete_clause m allCols rec uts Hsd Hin Hrt). simpl.
  unfold updateSets, bookkeepingSets. rewrite Hsd.
  rewrite !app_assoc, !applySets_app. simpl.
  rewrite insert_insert_eq. reflexivity.
Qed.

(** X11. The branch generated for the empty group of unchanged toast
    columns assigns every column of the table from the staged record,
    provided no column has the empty name (which is the one field
    [strings.Split] gives for the empty group). *)
Theorem empty_toast_group_updates_every_column m allCols deleted :
  EmptyString ∉ allCols ->
  updateSets m allCols EmptyString deleted
  = (map (fun colName => {| asg_column := colName;
                            asg_value := FromStaged (shortColumnOf m colName) |}) allCols
     ++ bookkeepingSets m deleted)%list.
Proof.
  intros Hempty. unfold updateSets. simpl. rewrite ArrayMinus_none; [reflexivity|].
  apply Forall_forall. intros c Hc Hin. apply list_elem_of_singleton in Hin.
  subst c. exact (Hempty Hc).
Qed.

(** X12. [generateUpdateStatements] returns one statement for each group
    of unchanged toast columns, and two when soft delete is handled: the
    number of statements is the capacity the function allocates for
    them. *)
Theorem generateUpdateStatements_length m allCols uts :
  length (generateUpdateStatements m allCols uts)
  = if handleSoftDelete m then (2 * length uts)%nat else length uts.
Proof.
  unfold generateUpdateStatements.
  induction uts as [|cols rest IH]; simpl; [destruct (handleSoftDelete m); reflexivity|].
  rewrite length_app, IH, updateStatementsFor_length.
  destruct (handleSoftDelete m); simpl; lia.
Qed.

(** X8 at the example: the second column, [v], is staged under [_c1]. *)
Lemma generateMergeStmt_short_columns_by_position_witness :
  NoDup (map fd_Name (Columns (normalizedTableSchema Examples.generator0)))
  /\ shortColumnOf Examples.generator "v" = "_c1".
Proof.
  assert (H1 : NoDup (map fd_Name (Columns (normalizedTableSchema Examples.generator0)))).
  { apply NoDup_cons_2; [|apply NoDup_singleton].
    intros H. apply list_elem_of_singleton in H. discriminate H. }
  split; [exact H1|].
  destruct (generateMergeStmt_short_columns_by_position Examples.datasetTableString
              Examples.bigQueryType Examples.kindOf Examples.generator0
              Examples.toastGroups H1) as (_ & Hpos & _).
  exact (Hpos 1%nat {| fd_Name := "v"; fd_Type := "string"; fd_TypeModifier := -1 |}
           eq_refl).
Defined.

(** X9 at the example generator without soft delete. *)
Lemma hard_delete_statement_never_marks_rows_witness :
  SoftDelete (peerdbCols Scenarios.hardDeleteGenerator) = false
  /\ mb_action
       (deleteBranch
          (fst (generateMergeStmt Examples.datasetTableString Examples.bigQueryType
                  Examples.kindOf Scenarios.hardDeleteGenerator Examples.toastGroups)))
     = DeleteRow.
Proof.
  assert (H1 : SoftDelete (peerdbCols Scenarios.hardDeleteGenerator) = false) by reflexivity.
  split; [exact H1|].
  destruct (hard_delete_statement_never_marks_rows Examples.datasetTableString
              Examples.bigQueryType Examples.kindOf Scenarios.hardDeleteGenerator
              Examples.toastGroups H1) as (_ & _ & Hdelete & _).
  exact Hdelete.
Defined.

(** X10 at the example: a delete of key 1 that reports [v] unchanged marks
    the row. *)
Lemma delete_record_updates_then_marks_row_witness :
  handleSoftDelete Examples.generator = true
  /\ staged_ut Scenarios.deleteUnchangedV ∈ Examples.toastGroups
  /\ staged_rt Scenarios.deleteUnchangedV = 2
  /\ applyMatched (updateClauses Examples.generator ["pk"; "v"] Examples.toastGroups)
       Scenarios.deleteUnchangedV Scenarios.liveRow !! "_PEERDB_IS_DELETED"
     = Some (CellBool true).
Proof.
  assert (H1 : handleSoftDelete Examples.generator = true) by reflexivity.
  assert (H2 : staged_ut Scenarios.deleteUnchangedV ∈ Examples.toastGroups)
    by (apply list_elem_of_In; simpl; auto).
  assert (H3 : staged_rt Scenarios.deleteUnchangedV = 2) by reflexivity.
  split; [exact H1|]. split; [exact H2|]. split; [exact H3|].
  rewrite (delete_record_updates_then_marks_row Examples.generator ["pk"; "v"]
             Examples.toastGroups Scenarios.deleteUnchangedV Scenarios.liveRow H1 H2 H3).
  apply lookup_insert_eq.
Defined.

(** X11 at the example: the branch of the empty group assigns [pk] and
    [v]. *)
Lemma empty_toast_group_updates_every_column_witness :
  (EmptyString ∉ ["pk"; "v"])
  /\ map asg_column (updateSets Examples.generator ["pk"; "v"] EmptyString false)
     = ["pk"; "v"; "_PEERDB_SYNCED_AT"; "_PEERDB_IS_DELETED"].
Proof.
  assert (H1 : EmptyString ∉ ["pk"; "v"]).
  { intros H. apply list_elem_of_In in H. simpl in H.
    destruct H as [H|[H|[]]]; discriminate H. }
  split; [exact H1|].
  rewrite (empty_toast_group_updates_every_column Examples.generator ["pk"; "v"] false H1).
  reflexivity.
Defined.

End MergeFacts.

(** ** What the generated MERGE does *)
Module MergeRunFacts.

Import Go GoFacts GoFormatFacts Protos QValueKinds BigQuery BigQueryFacts MergeFacts MergeRun.
Local Open Scope string_scope.
Local Open Scope Z_scope.

(** *** The text of the statement *)

Section Statement.

Variable datasetTable_string : datasetTable -> string.
Variable qValueKindToBigQueryType : string -> string.
Variable QValueKind_of : string -> QValueKind.

Abbreviation generateMergeStmt :=
  (generateMergeStmt datasetTable_string qValueKindToBigQueryType QValueKind_of).
Abbreviation projectionOf := (projectionOf qValueKindToBigQueryType QValueKind_of).
Abbreviation flattenedOf :=
  (flattenedOf datasetTable_string qValueKindToBigQueryType QValueKind_of).
Abbreviation statementOf :=
  (statementOf datasetTable_string qValueKindToBigQueryType QValueKind_of).

Lemma render_projectionOf m column :
  render_projection (projectionOf m column)
  = castStmt qValueKindToBigQueryType QValueKind_of m column.
Proof.
  unfold render_projection, MergeRun.projectionOf, castStmt. simpl.
  destruct (QValueKind_of (fd_Type column)); reflexivity.
Qed.

Lemma render_flattenedOf m :
  render_flattenedCTE (flattenedOf m)
  = generateFlattenedCTE datasetTable_string qValueKindToBigQueryType QValueKind_of m.
Proof.
  unfold render_flattenedCTE, MergeRun.flattenedOf, generateFlattenedCTE, flattenedWhere.
  simpl. rewrite map_map, (map_ext _ _ (render_projectionOf m)).
  rewrite !append_assoc. reflexivity.
Qed.

Lemma render_dedupOf m :
  render_dedupCTE (dedupOf m) = generateDeDupedCTE m.
Proof.
  unfold render_dedupCTE, dedupOf, generateDeDupedCTE. simpl.
  rewrite !append_assoc. reflexivity.
Qed.

Lemma render_statementOf m0 uts :
  SoftDelete (peerdbCols m0) = true ->
  let m := fst (generateMergeStmt m0 uts) in
  render_mergeStatement (statementOf m uts) = snd (generateMergeStmt m0 uts).
Proof.
  intros Hsoft m.
  pose proof (generateMergeStmt_render datasetTable_string qValueKindToBigQueryType
                QValueKind_of m0 uts) as Hrender.
  cbv zeta in Hrender. fold m in Hrender. rewrite Hrender.
  unfold render_mergeStatement, MergeRun.statementOf, mergeHeader.
  cbn [ms_target ms_flattened ms_deduped ms_on ms_branches].
  rewrite render_flattenedOf, render_dedupOf, map_map.
  cbn [fst snd]. unfold mergeBranches.
  assert (Hmid : middleBranches m uts <> []).
  { unfold middleBranches. change (peerdbCols m) with (peerdbCols m0). rewrite Hsoft.
    destruct (map branchOfClause _); discriminate. }
  change (map render_mergeBranch (insertBranch m :: middleBranches m uts ++ [deleteBranch m]))
    with (render_mergeBranch (insertBranch m)
            :: map render_mergeBranch (middleBranches m uts ++ [deleteBranch m]))%list.
  rewrite map_app.
  change (map render_mergeBranch [deleteBranch m])
    with [render_mergeBranch (deleteBranch m)].
  rewrite Join_first_last;
    [|destruct (middleBranches m uts); [congruence|discriminate]].
  rewrite !append_assoc. reflexivity.
Qed.

End Statement.

(** *** Lists *)

Lemma filter_nothing {A} (P : A -> Prop) `{forall x, Decision (P x)} (l : list A) :
  (forall x, x ∈ l -> ~ P x) -> filter P l = [].
Proof.
  induction l as [|x l IH]; intros Hall; [reflexivity|].
  rewrite filter_cons_False by (apply Hall; left).
  apply IH. intros y Hy. apply Hall. right. exact Hy.
Qed.

Lemma find_app {A} (f : A -> bool) (l1 l2 : list A) :
  List.find f (l1 ++ l2)
  = match List.find f l1 with
    | Some x => Some x
    | None => List.find f l2
    end.
Proof.
  induction l1 as [|x l1 IH]; [reflexivity|]. simpl.
  destruct (f x); [reflexivity | exact IH].
Qed.

(** *** The values of a staged record *)

Section Evaluation.

Variable evalCast : castForm -> string -> option string -> option string.

Lemma stagedValues_cons p projections data :
  stagedValues evalCast (p :: projections) data
  = match projectionValue evalCast p data with
    | Some v => <[pj_alias p := v]> (stagedValues evalCast projections data)
    | None => stagedValues evalCast projections data
    end.
Proof.
  unfold stagedValues. simpl. destruct (projectionValue evalCast p data); reflexivity.
Qed.

Lemma stagedValues_other projections data alias :
  alias ∉ map pj_alias projections ->
  stagedValues evalCast projections data !! alias = None.
Proof.
  induction projections as [|p rest IH]; intros Hnot; [reflexivity|].
  simpl in Hnot. apply not_elem_of_cons in Hnot as [Hne Hnot].
  rewrite stagedValues_cons. destruct (projectionValue evalCast p data).
  - rewrite lookup_insert_ne by congruence. apply IH, Hnot.
  - apply IH, Hnot.
Qed.

(** With distinct aliases, the staged record holds under the alias of a
    projection the value of that projection. *)
Lemma stagedValues_lookup projections data p :
  NoDup (map pj_alias projections) ->
  p ∈ projections ->
  stagedValues evalCast projections data !! pj_alias p = projectionValue evalCast p data.
Proof.
  induction projections as [|q rest IH]; intros Hnd Hin; [inversion Hin|].
  simpl in Hnd. apply NoDup_cons in Hnd as [Hnotin Hnd].
  rewrite stagedValues_cons. apply elem_of_cons in Hin as [->|Hin].
  - destruct (projectionValue evalCast q data) as [v|] eqn:Hv.
    + apply lookup_insert_eq.
    + apply stagedValues_other, Hnotin.
  - assert (Hne : pj_alias q <> pj_alias p).
    { intros Heq. apply Hnotin. rewrite Heq.
      apply (list_elem_of_fmap_2 pj_alias). exact Hin. }
    destruct (projectionValue evalCast q data).
    + rewrite lookup_insert_ne by exact Hne. apply IH; assumption.
    + apply IH; assumption.
Qed.

End Evaluation.

(** *** De-duplication *)

Lemma onHolds_values on t d1 d2 :
  onHolds on t d1 = true -> onHolds on t d2 = true ->
  map (fun alias => staged_values d1 !! alias) (map snd on)
  = map (fun alias => staged_values d2 !! alias) (map snd on).
Proof.
  induction on as [|[column alias] on IH]; [reflexivity|].
  unfold onHolds. cbn [forallb map fst snd]. intros H1 H2.
  apply andb_true_iff in H1 as [H1 H1']. apply andb_true_iff in H2 as [H2 H2'].
  f_equal; [|apply IH; assumption].
  destruct (t !! column) as [[x| | |]|]; try discriminate.
  destruct (staged_values d1 !! alias) as [y1|]; [|discriminate].
  destruct (staged_values d2 !! alias) as [y2|]; [|discriminate].
  apply String.eqb_eq in H1, H2. congruence.
Qed.

Lemma onHolds_same_partition d on t r1 r2 :
  dd_partition d = map snd on ->
  onHolds on t (fr_record r1) = true -> onHolds on t (fr_record r2) = true ->
  partitionKey d r1 = partitionKey d r2.
Proof.
  intros Hpart H1 H2. unfold partitionKey. rewrite Hpart.
  rewrite (onHolds_values on t _ _ H1 H2). reflexivity.
Qed.

(** A row has rank 1 exactly when no row of its partition comes before
    it. *)
Lemma rankOf_first d rows x :
  rankOf d rows x = 1
  <-> forall o, o ∈ rows -> partitionKey d o = partitionKey d x -> ranksBefore d o x = false.
Proof.
  unfold rankOf. split.
  - intros Hrank o Ho Hkey. destruct (ranksBefore d o x) eqn:Hbefore; [|reflexivity].
    exfalso.
    assert (Hin : o ∈ filter (fun other => partitionKey d other = partitionKey d x
                                           /\ ranksBefore d other x = true) rows).
    { apply list_elem_of_filter. auto. }
    destruct (filter _ rows); [inversion Hin | simpl in Hrank; lia].
  - intros Hall. rewrite filter_nothing; [reflexivity|].
    intros o Ho [Hkey Hbefore]. rewrite (Hall o Ho Hkey) in Hbefore. discriminate.
Qed.

Section Rows.

Variable evalCast : castForm -> string -> option string -> option string.
Abbreviation flatten := (flatten evalCast).
Abbreviation evalFlattened := (evalFlattened evalCast).
Abbreviation sourceRows := (sourceRows evalCast).

Lemma elem_of_evalFlattened f raw x :
  x ∈ evalFlattened f raw <-> exists r, r ∈ raw /\ selected f r = true /\ x = flatten f r.
Proof.
  unfold MergeRun.evalFlattened.
  change (map (flatten f) ?l) with (flatten f <$> l).
  rewrite list_elem_of_fmap. split.
  - intros (r & -> & Hr). apply list_elem_of_filter in Hr as [Hsel Hr]. exists r. auto.
  - intros (r & Hr & Hsel & ->). exists r. split; [reflexivity|].
    apply list_elem_of_filter. auto.
Qed.

(** The latest record of a partition is the one row of the partition
    that the de-duplication keeps. *)
Lemma latest_record_kept f d before up after :
  dd_descending d = true -> dd_rank d = 1 ->
  selected f up = true ->
  (forall r, r ∈ (before ++ after)%list -> selected f r = true ->
     partitionKey d (flatten f r) = partitionKey d (flatten f up) ->
     rr_timestamp r < rr_timestamp up) ->
  let rows := evalFlattened f (before ++ up :: after) in
  rankOf d rows (flatten f up) = dd_rank d
  /\ forall r, r ∈ (before ++ after)%list -> selected f r = true ->
       partitionKey d (flatten f r) = partitionKey d (flatten f up) ->
       rankOf d rows (flatten f r) <> dd_rank d.
Proof.
  intros Hdesc Hrank Hsel Hlatest rows. rewrite Hrank. split.
  - apply rankOf_first. intros o Ho Hkey.
    apply elem_of_evalFlattened in Ho as (r & Hr & Hrsel & ->).
    unfold ranksBefore. rewrite Hdesc. cbn [fr_timestamp MergeRun.flatten].
    apply Z.ltb_ge.
    apply elem_of_app in Hr as [Hr|Hr];
      [|apply elem_of_cons in Hr as [->|Hr]; [lia|]];
      (assert (Hlt : rr_timestamp r < rr_timestamp up);
       [apply Hlatest; [apply elem_of_app; auto | exact Hrsel | exact Hkey] | lia]).
  - intros r Hr Hrsel Hkey Hfirst.
    assert (Hup : flatten f up ∈ rows).
    { apply elem_of_evalFlattened. exists up. split; [|auto].
      apply elem_of_app. right. left. }
    pose proof (proj1 (rankOf_first d rows (flatten f r)) Hfirst _ Hup (eq_sym Hkey))
      as Hbefore.
    unfold ranksBefore in Hbefore. rewrite Hdesc in Hbefore.
    cbn [fr_timestamp MergeRun.flatten] in Hbefore. apply Z.ltb_ge in Hbefore.
    pose proof (Hlatest r Hr Hrsel Hkey). lia.
Qed.

(** The rows of the source that meet the ON condition with a row of the
    table that the latest record of a partition meets it with: that
    record alone. *)
Lemma latest_record_matches_alone s before up after t :
  dd_descending (ms_deduped s) = true -> dd_rank (ms_deduped s) = 1 ->
  dd_partition (ms_deduped s) = map snd (ms_on s) ->
  selected (ms_flattened s) up = true ->
  (forall r, r ∈ (before ++ after)%list -> selected (ms_flattened s) r = true ->
     partitionKey (ms_deduped s) (flatten (ms_flattened s) r)
     = partitionKey (ms_deduped s) (flatten (ms_flattened s) up) ->
     rr_timestamp r < rr_timestamp up) ->
  onHolds (ms_on s) t (fr_record (flatten (ms_flattened s) up)) = true ->
  filter (fun d => onHolds (ms_on s) t d = true) (sourceRows s (before ++ up :: after))
  = [fr_record (flatten (ms_flattened s) up)].
Proof.
  intros Hdesc Hrank Hpart Hsel Hlatest Hon.
  destruct (latest_record_kept (ms_flattened s) (ms_deduped s) before up after
              Hdesc Hrank Hsel Hlatest) as [Hkept Hdropped].
  unfold MergeRun.sourceRows, evalDedup, MergeRun.evalFlattened.
  fold (evalFlattened (ms_flattened s) (before ++ up :: after)).
  set (rows := evalFlattened (ms_flattened s) (before ++ up :: after)) in *.
  assert (Hnone : forall part, (forall r, r ∈ part -> r ∈ (before ++ after)%list) ->
            filter (fun d => onHolds (ms_on s) t d = true)
              (map fr_record
                 (keptRows (ms_deduped s) rows
                    (map (flatten (ms_flattened s))
                       (filter (fun r => selected (ms_flattened s) r = true) part))))
            = []).
  { intros part Hpartin. apply filter_nothing. intros y Hy Hony.
    apply list_elem_of_In, in_map_iff in Hy as (x & <- & Hx).
    apply list_elem_of_In in Hx. unfold keptRows in Hx.
    apply list_elem_of_filter in Hx as [Hxrank Hx].
    apply list_elem_of_In, in_map_iff in Hx as (r & <- & Hr).
    apply list_elem_of_In, list_elem_of_filter in Hr as [Hrsel Hr].
    apply (Hdropped r (Hpartin r Hr) Hrsel); [|exact Hxrank].
    apply (onHolds_same_partition _ (ms_on s) t); assumption. }
  change (filter (fun d => onHolds (ms_on s) t d = true)
            (map fr_record
               (keptRows (ms_deduped s) rows
                  (map (flatten (ms_flattened s))
                     (filter (fun r => selected (ms_flattened s) r = true)
                        (before ++ up :: after)%list))))
          = [fr_record (flatten (ms_flattened s) up)]).
  rewrite filter_app, filter_cons_True by exact Hsel.
  rewrite map_app. cbn [map]. unfold keptRows at 1.
  rewrite filter_app, filter_cons_True by exact Hkept.
  rewrite map_app. cbn [map]. rewrite filter_app, filter_cons_True by exact Hon.
  fold (keptRows (ms_deduped s) rows
          (map (flatten (ms_flattened s))
             (filter (fun r => selected (ms_flattened s) r = true) before))).
  fold (keptRows (ms_deduped s) rows
          (map (flatten (ms_flattened s))
             (filter (fun r => selected (ms_flattened s) r = true) after))).
  rewrite (Hnone before), (Hnone after); [reflexivity | |];
    intros r Hr; apply elem_of_app; auto.
Qed.

End Rows.

(** *** The branches *)

Lemma find_branchOfClause d clauses :
  List.find (branchApplies true d) (map branchOfClause clauses)
  = option_map branchOfClause (List.find (clauseApplies d) clauses).
Proof.
  induction clauses as [|cl rest IH]; [reflexivity|]. cbn [map List.find].
  change (branchApplies true d (branchOfClause cl)) with (clauseApplies d cl).
  destruct (clauseApplies d cl); [reflexivity | exact IH].
Qed.

(** A matched record that is no delete and whose group is one of the
    generated groups is applied by the UPDATE branch of its group. *)
Lemma find_matched_update m uts d :
  staged_rt d <> 2 -> staged_ut d ∈ uts ->
  List.find (branchApplies true d) (mergeBranches m uts)
  = Some (branchOfClause
            {| uc_delete := false; uc_unchanged := staged_ut d;
               uc_sets := updateSets m (map fd_Name (Columns (normalizedTableSchema m)))
                            (staged_ut d) false |}).
Proof.
  intros Hrt Hut. unfold mergeBranches, middleBranches. cbn [List.find].
  change (branchApplies true d (insertBranch m)) with false. cbv iota.
  rewrite !find_app, find_branchOfClause.
  rewrite (find_update_clause m _ d (staged_ut d) uts Hut Hrt eq_refl). reflexivity.
Qed.

(** A record that is no delete and has found no row is inserted by the
    first branch. *)
Lemma find_not_matched_insert m uts d :
  staged_rt d <> 2 ->
  List.find (branchApplies false d) (mergeBranches m uts) = Some (insertBranch m).
Proof.
  intros Hrt. apply Z.eqb_neq in Hrt. unfold mergeBranches. cbn [List.find].
  unfold branchApplies at 1. cbn [insertBranch mb_matched mb_delete mb_unchanged].
  rewrite Hrt. reflexivity.
Qed.

(** A matched delete record is applied by a branch for delete records,
    and the row it leaves is marked. *)
Lemma find_matched_delete m uts d t :
  handleSoftDelete m = true ->
  SoftDelete (peerdbCols m) = true ->
  SyncedAtColName (peerdbCols m) <> SoftDeleteColName (peerdbCols m) ->
  staged_rt d = 2 ->
  exists b t',
    List.find (branchApplies true d) (mergeBranches m uts) = Some b
    /\ mb_delete b = true
    /\ evalAction (mb_action b) d (Some t) = Some t'
    /\ t' !! SoftDeleteColName (peerdbCols m) = Some (CellBool true).
Proof.
  intros Hhandle Hsoft Hne Hrt.
  assert (Hlast : branchApplies true d (deleteBranch m) = true).
  { unfold branchApplies. cbn [deleteBranch mb_matched mb_delete mb_unchanged].
    rewrite Hrt. reflexivity. }
  destruct (List.find (branchApplies true d) (mergeBranches m uts)) as [b|] eqn:Hfind.
  - apply List.find_some in Hfind as [Hb Happlies]. apply list_elem_of_In in Hb.
    unfold branchApplies in Happlies. rewrite Hrt in Happlies.
    apply andb_true_iff in Happlies as [Happlies _].
    apply andb_true_iff in Happlies as [Hmatched Hdelete].
    apply Bool.eqb_prop in Hmatched, Hdelete. cbn in Hdelete.
    unfold mergeBranches in Hb.
    apply elem_of_cons in Hb as [->|Hb]; [discriminate|].
    apply elem_of_app in Hb as [Hb|Hb].
    + unfold middleBranches in Hb. apply elem_of_app in Hb as [Hb|Hb].
      * change (map branchOfClause ?l) with (branchOfClause <$> l) in Hb.
        apply list_elem_of_fmap in Hb as (cl & -> & Hcl).
        apply updateClauses_elem in Hcl as (cols & _ & _ & Hsets & _).
        cbn in Hdelete. rewrite Hdelete in Hsets.
        destruct (updateSets_soft_delete_last m
                    (map fd_Name (Columns (normalizedTableSchema m))) cols true Hhandle)
          as (sets & Hsets').
        eexists _, _. split; [reflexivity|]. split; [exact Hdelete|].
        cbn. split; [reflexivity|].
        rewrite Hsets, Hsets', applySets_app. cbn. apply lookup_insert_eq.
      * rewrite Hsoft in Hb. apply list_elem_of_singleton in Hb. subst b. discriminate.
    + apply list_elem_of_singleton in Hb. subst b.
      eexists _, _. split; [reflexivity|]. split; [reflexivity|].
      unfold deleteBranch. cbn [mb_action]. rewrite Hsoft. cbn. split; [reflexivity|].
      destruct (negb (SyncedAtColName (peerdbCols m) =? EmptyString)%string).
      * rewrite lookup_insert_ne by exact Hne. apply lookup_insert_eq.
      * apply lookup_insert_eq.
  - exfalso. rewrite (List.find_none _ _ Hfind (deleteBranch m)) in Hlast; [discriminate|].
    unfold mergeBranches. apply in_cons, in_or_app. right. left. reflexivity.
Qed.

(** *** Inserted rows *)

Lemma insertValues_other columns d c : forall shorts r,
  c ∉ columns -> insertValues columns shorts d r !! c = r !! c.
Proof.
  induction columns as [|column columns IH]; intros shorts r Hc; [reflexivity|].
  destruct shorts as [|short shorts]; [reflexivity|].
  apply not_elem_of_cons in Hc as [Hne Hc]. cbn [insertValues].
  rewrite IH by exact Hc. apply lookup_insert_ne. congruence.
Qed.

Lemma insertValues_lookup columns d : forall shorts r i c short,
  NoDup columns ->
  columns !! i = Some c -> shorts !! i = Some short ->
  insertValues columns shorts d r !! c = Some (evalRhs d (FromStaged short)).
Proof.
  induction columns as [|column columns IH]; intros shorts r i c short Hnd Hc Hs;
    [rewrite lookup_nil in Hc; discriminate|].
  apply NoDup_cons in Hnd as [Hnotin Hnd].
  destruct shorts as [|short0 shorts]; [rewrite lookup_nil in Hs; discriminate|].
  cbn [insertValues]. destruct i as [|i]; cbn in Hc, Hs.
  - injection Hc as <-. injection Hs as <-.
    rewrite insertValues_other by exact Hnotin. apply lookup_insert_eq.
  - eapply IH; eassumption.
Qed.

Lemma insertValues_no_mark columns d c : forall shorts r,
  r !! c <> Some (CellBool true) ->
  insertValues columns shorts d r !! c <> Some (CellBool true).
Proof.
  induction columns as [|column columns IH]; intros shorts r Hr; [exact Hr|].
  destruct shorts as [|short shorts]; [exact Hr|].
  cbn [insertValues]. apply IH.
  destruct (decide (column = c)) as [->|Hne].
  - rewrite lookup_insert_eq. cbn. destruct (staged_values d !! short); discriminate.
  - rewrite lookup_insert_ne by exact Hne. exact Hr.
Qed.

(** *** The rows of the table after the statement *)

Lemma mergeMatched_no_panic s source t : mergeMatched s source t <> Panic.
Proof.
  unfold mergeMatched.
  destruct (filter _ source) as [|d [|d' rest]]; try discriminate.
  destruct (List.find _ _); discriminate.
Qed.

Lemma mergeRows_result s source dst :
  match mergeRows s source dst with
  | Ok rows =>
      forall t t', t ∈ dst -> mergeMatched s source t = Ok (Some t') -> t' ∈ rows
  | Err e => exists t, t ∈ dst /\ mergeMatched s source t = Err e
  | Panic => False
  end.
Proof.
  induction dst as [|t0 rest IH]; cbn [mergeRows].
  - intros t t' Ht. inversion Ht.
  - destruct (mergeMatched s source t0) as [t0'|e|] eqn:Ht0.
    + destruct (mergeRows s source rest) as [rows|e|].
      * intros t t' Ht Hmerge. apply elem_of_cons in Ht as [->|Ht].
        -- rewrite Ht0 in Hmerge. injection Hmerge as ->. left.
        -- destruct t0'; [right|]; eapply IH; eassumption.
      * destruct IH as (t & Ht & Hmerge). exists t. split; [right; exact Ht | exact Hmerge].
      * exact IH.
    + exists t0. split; [left | exact Ht0].
    + exact (mergeMatched_no_panic s source t0 Ht0).
Qed.

(** *** The statement of the generator *)

Section Generator.

Variable datasetTable_string : datasetTable -> string.
Variable qValueKindToBigQueryType : string -> string.
Variable QValueKind_of : string -> QValueKind.
Variable evalCast : castForm -> string -> option string -> option string.

Abbreviation generateMergeStmt :=
  (generateMergeStmt datasetTable_string qValueKindToBigQueryType QValueKind_of).
Abbreviation projectionOf := (projectionOf qValueKindToBigQueryType QValueKind_of).
Abbreviation flattenedOf :=
  (flattenedOf datasetTable_string qValueKindToBigQueryType QValueKind_of).
Abbreviation statementOf :=
  (statementOf datasetTable_string qValueKindToBigQueryType QValueKind_of).
Abbreviation flatten := (flatten evalCast).
Abbreviation evalFlattened := (evalFlattened evalCast).
Abbreviation sourceRows := (sourceRows evalCast).
Abbreviation runMerge := (runMerge evalCast).

(** After [generateMergeStmt], the short names of the columns of a schema
    with distinct column names are the names [_c<i>] by position. *)
Lemma shortColumns_filled m0 uts :
  NoDup (map fd_Name (Columns (normalizedTableSchema m0))) ->
  let m := fst (generateMergeStmt m0 uts) in
  map (fun col => shortColumnOf m (fd_Name col)) (Columns (normalizedTableSchema m0))
  = shortNames (Columns (normalizedTableSchema m0)).
Proof.
  intros Hnd m. unfold m, shortColumnOf. simpl.
  rewrite (recordShortColumns_names _ 0 (shortColumn m0) Hnd). reflexivity.
Qed.

(** The staged record holds, under the short name of a column, the value
    of the projection of that column. *)
Lemma staged_column_value m0 uts data col :
  NoDup (map fd_Name (Columns (normalizedTableSchema m0))) ->
  col ∈ Columns (normalizedTableSchema m0) ->
  let m := fst (generateMergeStmt m0 uts) in
  stagedValues evalCast (fl_projections (flattenedOf m)) data !! shortColumnOf m (fd_Name col)
  = projectionValue evalCast (projectionOf m col) data.
Proof.
  intros Hnd Hcol m.
  apply (stagedValues_lookup evalCast _ data (projectionOf m col)).
  - cbn [fl_projections MergeRun.flattenedOf]. rewrite map_map.
    change (Columns (normalizedTableSchema m)) with (Columns (normalizedTableSchema m0)).
    change (map (fun x => pj_alias (projectionOf m x)) (Columns (normalizedTableSchema m0)))
      with (map (fun col => shortColumnOf m (fd_Name col))
                (Columns (normalizedTableSchema m0))).
    unfold m. rewrite (shortColumns_filled m0 uts Hnd). apply shortNames_NoDup.
  - cbn [fl_projections MergeRun.flattenedOf].
    apply (list_elem_of_fmap_2 (projectionOf m)). exact Hcol.
Qed.

(** Records with the same fields for the primary key columns fall into
    the same partition. *)
Lemma same_key_same_partition m0 uts r1 r2 :
  NoDup (map fd_Name (Columns (normalizedTableSchema m0))) ->
  Forall (fun pkey => pkey ∈ map fd_Name (Columns (normalizedTableSchema m0)))
         (PrimaryKeyColumns (normalizedTableSchema m0)) ->
  (forall pkey, pkey ∈ PrimaryKeyColumns (normalizedTableSchema m0) ->
     rr_data r1 !! pkey = rr_data r2 !! pkey) ->
  let stmt := statementOf (fst (generateMergeStmt m0 uts)) uts in
  partitionKey (ms_deduped stmt) (flatten (ms_flattened stmt) r1)
  = partitionKey (ms_deduped stmt) (flatten (ms_flattened stmt) r2).
Proof.
  intros Hnd Hpkeys Hsame stmt. unfold partitionKey. f_equal. f_equal.
  cbn [ms_deduped stmt MergeRun.statementOf dd_partition dedupOf].
  rewrite !map_map. apply map_ext_in. intros pkey Hpkey.
  apply list_elem_of_In in Hpkey.
  change (PrimaryKeyColumns (normalizedTableSchema (fst (generateMergeStmt m0 uts))))
    with (PrimaryKeyColumns (normalizedTableSchema m0)) in Hpkey.
  rewrite Forall_forall in Hpkeys. pose proof (Hpkeys pkey Hpkey) as Hcol.
  change (map fd_Name ?l) with (fd_Name <$> l) in Hcol.
  apply list_elem_of_fmap in Hcol as (col & -> & Hcol).
  cbn [fr_record MergeRun.flatten staged_values ms_flattened MergeRun.statementOf].
  rewrite !(staged_column_value m0 uts _ col Hnd Hcol).
  unfold projectionValue. cbn [pj_column pj_form pj_type MergeRun.projectionOf].
  rewrite (Hsame _ Hpkey). reflexivity.
Qed.


End Generator.


End MergeRunFacts.

(** ** Schema deltas of query replication into BigQuery *)
Module SchemaDeltaFacts.

Import BigQueryQRep.
Local Open Scope string_scope.

Section Deltas.

Variable EqualFold : string -> string -> bool.

Lemma hasColumn_spec colName dstSchema :
  hasColumn EqualFold colName dstSchema = true
  <-> exists dstCol, dstCol ∈ dstSchema /\ EqualFold colName dstCol = true.
Proof.
  induction dstSchema as [|dstCol rest IH]; simpl.
  - split; [discriminate | intros (c & Hc & _); inversion Hc].
  - destruct (EqualFold colName dstCol) eqn:Hfold.
    + split; [|reflexivity]. intros _. exists dstCol. split; [left | exact Hfold].
    + rewrite IH. split.
      * intros (c & Hc & Hf). exists c. split; [right; exact Hc | exact Hf].
      * intros (c & Hc & Hf). apply elem_of_cons in Hc as [->|Hc]; [congruence|].
        exists c. auto.
Qed.

Lemma filter_none {A} (P : A -> Prop) `{forall x, Decision (P x)} (l : list A) :
  Forall (fun x => ~ P x) l -> filter P l = [].
Proof.
  induction 1 as [|x l Hx _ IH]; [reflexivity|].
  rewrite filter_cons_False by exact Hx. exact IH.
Qed.

Lemma addedColumns_filter srcFields dstSchema : forall added,
  addedColumns EqualFold srcFields dstSchema added
  = (added
     ++ map (fun col => {| ColumnName := sf_Name col; ColumnType := sf_Type col |})
            (filter (fun col => hasColumn EqualFold (sf_Name col) dstSchema = false)
                    srcFields))%list.
Proof.
  induction srcFields as [|col rest IH]; intros added; simpl.
  - symmetry. apply app_nil_r.
  - destruct (hasColumn EqualFold (sf_Name col) dstSchema) eqn:Hhas.
    + rewrite filter_cons_False by congruence. apply IH.
    + rewrite filter_cons_True by exact Hhas. rewrite IH, <- app_assoc. reflexivity.
Qed.

(** X13. The schema delta of [replayTableSchemaDeltasQRep] holds, in the
    order of the source schema, exactly the source fields whose name
    equals no destination column ignoring case, each with its name and
    kind; and, the case-insensitive comparison being reflexive, once the
    added columns are part of the destination schema the delta computed
    again is empty. *)
Theorem addedColumns_missing_then_none srcFields dstSchema :
  (forall name, EqualFold name name = true) ->
  let added := addedColumns EqualFold srcFields dstSchema [] in
  added
  = map (fun col => {| ColumnName := sf_Name col; ColumnType := sf_Type col |})
        (filter (fun col => Forall (fun dstCol => EqualFold (sf_Name col) dstCol = false)
                                   dstSchema) srcFields)
  /\ addedColumns EqualFold srcFields (dstSchema ++ map ColumnName added)%list [] = [].
Proof.
  intros Hrefl added.
  assert (Hadded : added
            = map (fun col => {| ColumnName := sf_Name col; ColumnType := sf_Type col |})
                  (filter (fun col => hasColumn EqualFold (sf_Name col) dstSchema = false)
                          srcFields)).
  { unfold added. rewrite addedColumns_filter. reflexivity. }
  split.
  - rewrite Hadded. f_equal. apply list_filter_iff. intros col. split.
    + intros Hhas. apply Forall_forall. intros dstCol Hin.
      destruct (EqualFold (sf_Name col) dstCol) eqn:Hfold; [|reflexivity].
      assert (Htrue : hasColumn EqualFold (sf_Name col) dstSchema = true).
      { apply hasColumn_spec. exists dstCol. auto. }
      congruence.
    + intros Hall. destruct (hasColumn EqualFold (sf_Name col) dstSchema) eqn:Hhas; [|reflexivity].
      apply hasColumn_spec in Hhas as (dstCol & Hin & Hfold).
      rewrite Forall_forall in Hall. rewrite (Hall dstCol Hin) in Hfold. discriminate.
  - rewrite addedColumns_filter. simpl.
    rewrite filter_none; [reflexivity|].
    apply Forall_forall. intros col Hcol Hnot.
    assert (Htrue : hasColumn EqualFold (sf_Name col)
                      (dstSchema ++ map ColumnName added)%list = true); [|congruence].
    apply hasColumn_spec.
    destruct (hasColumn EqualFold (sf_Name col) dstSchema) eqn:Hhas.
    + apply hasColumn_spec in Hhas as (dstCol & Hin & Hfold).
      exists dstCol. split; [apply elem_of_app; left; exact Hin | exact Hfold].
    + exists (sf_Name col). split; [|apply Hrefl].
      apply elem_of_app. right. rewrite Hadded, map_map. simpl.
      apply (list_elem_of_fmap_2 sf_Name). apply list_elem_of_filter. auto.
Qed.

End Deltas.

(** X13 at the example, comparing names exactly: [note] is added, and
    nothing once the destination has it. *)
Lemma addedColumns_missing_then_none_witness :
  addedColumns String.eqb Scenarios.sourceFields ["pk"] []
  = [{| ColumnName := "note"; ColumnType := "string" |}]
  /\ addedColumns String.eqb Scenarios.sourceFields ["pk"; "note"] [] = [].
Proof.
  destruct (addedColumns_missing_then_none String.eqb Scenarios.sourceFields ["pk"]
              String.eqb_refl) as [Hadded Hnone].
  split; [reflexivity | exact Hnone].
Defined.

End SchemaDeltaFacts.

(** ** Reading the rows of a query *)
Module PeerSQLRowsFacts.

Import Go GoFacts GoFormatFacts QValueKinds PeerSQL PeerSQLRows.
Local Open Scope string_scope.

Lemma hexEncode_length src : String.length (hexEncode src) = (2 * length src)%nat.
Proof.
  induction src as [|b rest IH]; [reflexivity|].
  change (hexEncode (b :: rest)) with (hexByte b ++ hexEncode rest).
  rewrite append_length, IH. simpl. lia.
Qed.

Lemma hexEncode_app a b : hexEncode (a ++ b) = hexEncode a ++ hexEncode b.
Proof.
  induction a as [|x a IH]; [reflexivity|].
  change (hexEncode ((x :: a) ++ b)) with (hexByte x ++ hexEncode (a ++ b)).
  change (hexEncode (x :: a)) with (hexByte x ++ hexEncode a).
  rewrite IH, append_assoc. reflexivity.
Qed.

Lemma uuid_String_length u : length u = 16%nat -> String.length (uuid_String u) = 36%nat.
Proof.
  intros Hlen. unfold uuid_String.
  rewrite !append_length, !hexEncode_length, !length_take, !length_drop, Hlen.
  reflexivity.
Qed.

Section Rows.

Variables float32 float64 time_Time Rat : Type.
Variable float32_of_float64 : float64 -> float32.
Variable Rat_SetString : string -> option Rat.
Variable json_Unmarshal : string -> option (list (GoValue float32 float64 time_Time Rat)).
Variable dbtypeToQValueKind : gmap string QValueKind.

Abbreviation Val := (GoValue float32 float64 time_Time Rat).
Abbreviation toQValue :=
  (toQValue float32 float64 time_Time Rat float32_of_float64 Rat_SetString json_Unmarshal).
Abbreviation toQValueArray := (toQValueArray float32 float64 time_Time Rat).
Abbreviation arrayKindOfFirst := (arrayKindOfFirst float32 float64 time_Time Rat).
Abbreviation holds := (holds float32 float64 time_Time Rat).
Abbreviation sliceElements := (sliceElements float32 float64 time_Time Rat).
Abbreviation hasElementType := (hasElementType float32 float64 time_Time Rat).
Abbreviation toQFields := (toQFields float32 float64 time_Time Rat dbtypeToQValueKind).
Abbreviation convertValues :=
  (convertValues float32 float64 time_Time Rat float32_of_float64 Rat_SetString
     json_Unmarshal).
Abbreviation readRows :=
  (readRows float32 float64 time_Time Rat float32_of_float64 Rat_SetString json_Unmarshal).
Abbreviation processRows :=
  (processRows float32 float64 time_Time Rat float32_of_float64 Rat_SetString
     json_Unmarshal dbtypeToQValueKind).

(** The copy loop of one array kind. *)
Lemma assertEach_result {T : Type} (assertT : Val -> option T) (box : T -> Val) v :
  (forall x y, assertT x = Some y -> x = box y) ->
  match assertEach float32 float64 time_Time Rat assertT v with
  | Some array => map box array = v
  | None => exists x, x ∈ v /\ assertT x = None
  end.
Proof.
  intros Hbox. induction v as [|x rest IH]; simpl; [reflexivity|].
  destruct (assertT x) as [y|] eqn:Hx.
  - destruct (assertEach float32 float64 time_Time Rat assertT rest) as [ys|].
    + simpl. rewrite IH, (Hbox x y Hx). reflexivity.
    + destruct IH as (x' & Hin & Hnone). exists x'. split; [right; exact Hin | exact Hnone].
  - exists x. split; [left | exact Hx].
Qed.

Ltac solve_copy box :=
  unfold copyElements;
  lazymatch goal with
  | |- context [assertEach _ _ _ _ ?assertT ?v] =>
      let H := fresh in
      pose proof (assertEach_result assertT box v) as H;
      specialize (H ltac:(intros [] y; simpl; intros [= <-]; reflexivity));
      destruct (assertEach float32 float64 time_Time Rat assertT v) as [array|];
      [simpl; split; [reflexivity|]; rewrite H; reflexivity
      |destruct H as (x & Hin & Hnone); exists x; split; [exact Hin|];
       destruct x; simpl in Hnone; try discriminate; reflexivity]
  end.

(** X14. For the six array kinds it has a case for, [toQValueArray] on a
    slice of interface values never returns an error: it returns the
    array kind with the elements of the slice in the same order, or it
    panics, which happens only when an element does not have the element
    type of the kind. *)
Theorem toQValueArray_copies_or_panics kind v :
  kind ∈ copiedArrayKinds ->
  match toQValueArray kind (SliceInterface v) with
  | Ok q => Kind _ _ _ _ q = kind /\ sliceElements (Value _ _ _ _ q) = Some v
  | Err _ => False
  | Panic => exists x, x ∈ v /\ hasElementType kind x = false
  end.
Proof.
  intros Hkind. unfold copiedArrayKinds in Hkind.
  apply elem_of_cons in Hkind as [->|Hkind]; [simpl; solve_copy (@GoFloat32 float32 float64 time_Time Rat)|].
  apply elem_of_cons in Hkind as [->|Hkind]; [simpl; solve_copy (@GoFloat64 float32 float64 time_Time Rat)|].
  apply elem_of_cons in Hkind as [->|Hkind]; [simpl; solve_copy (@GoInt16 float32 float64 time_Time Rat)|].
  apply elem_of_cons in Hkind as [->|Hkind]; [simpl; solve_copy (@GoInt32 float32 float64 time_Time Rat)|].
  apply elem_of_cons in Hkind as [->|Hkind]; [simpl; solve_copy (@GoInt64 float32 float64 time_Time Rat)|].
  apply elem_of_cons in Hkind as [->|Hkind]; [simpl; solve_copy (@GoString float32 float64 time_Time Rat)|].
  inversion Hkind.
Qed.

Lemma toQValueArray_kind kind value :
  match toQValueArray kind value with
  | Ok q => Kind _ _ _ _ q = kind
  | Err _ | Panic => True
  end.
Proof.
  destruct kind; simpl; try reflexivity; destruct value; simpl; try exact I;
    try reflexivity; unfold copyElements;
    match goal with
    | |- context [assertEach _ _ _ _ ?a ?v] =>
        destruct (assertEach float32 float64 time_Time Rat a v); simpl; auto
    end.
Qed.

Ltac split_match :=
  repeat match goal with
         | |- context [match ?x with _ => _ end] => is_var x; destruct x; simpl; auto
         | |- context [Rat_SetString ?s] => destruct (Rat_SetString s); simpl; auto
         | |- context [uuid_FromBytes ?v] => destruct (uuid_FromBytes v); simpl; auto
         end.

(** X15. Whatever the value, a [toQValue] that succeeds returns the kind
    it was asked for, with two exceptions: a UUID is returned under the
    string kind, and a JSON value that is a text beginning with an opening
    bracket and decoding to a non-empty array is returned under the kind
    picked from the first element of that array. *)
Theorem toQValue_result_kind kind val :
  match toQValue kind val with
  | Ok q =>
      Kind _ _ _ _ q = kind
      \/ (kind = QValueKindUUID /\ Kind _ _ _ _ q = QValueKindString)
      \/ (kind = QValueKindJSON
          /\ exists text first rest,
               val = PtrInterface (Some (GoString text))
               /\ HasPrefix text "[" = true
               /\ json_Unmarshal text = Some (first :: rest)
               /\ Kind _ _ _ _ q = arrayKindOfFirst first)
  | Err _ | Panic => True
  end.
Proof.
  destruct (decide (kind = QValueKindJSON)) as [->|Hjson].
  - destruct val; simpl; auto. destruct p as [vraw|]; [|exact I].
    destruct (HasPrefix _ "[") eqn:Hprefix; [|left; reflexivity].
    destruct vraw as [| | | | | | | | | | | | | | | | |text| | | | | | | | | | | | |];
      try discriminate Hprefix.
    destruct (json_Unmarshal text) as [[|first rest]|] eqn:Hjson; simpl; auto.
    pose proof (toQValueArray_kind (arrayKindOfFirst first) (SliceInterface (first :: rest)))
      as Hkind.
    destruct (toQValueArray _ _) as [q| |]; auto.
    right. right. split; [reflexivity|]. exists text, first, rest. auto.
  - destruct kind; try congruence; destruct val; simpl; auto; unfold nullable;
      split_match;
      try (unfold copyElements;
           match goal with
           | |- context [assertEach _ _ _ _ ?a ?v] =>
               destruct (assertEach float32 float64 time_Time Rat a v); simpl; auto
           end).
Qed.

(** X16. A UUID column read into a byte slice converts exactly when the
    slice holds 16 bytes, to the canonical text of 36 characters under the
    string kind; a slice of any other length is an error, never a
    panic. *)
Theorem toQValue_uuid_needs_sixteen_bytes v :
  match toQValue QValueKindUUID (PtrBytes (Some v)) with
  | Ok q =>
      length v = 16%nat
      /\ q = {| Kind := QValueKindString; Value := GoString (uuid_String v) |}
      /\ String.length (uuid_String v) = 36%nat
  | Err e => length v <> 16%nat /\ e = ErrParseUUID _ _ _ _ v
  | Panic => False
  end.
Proof.
  simpl. unfold uuid_FromBytes.
  destruct (Nat.eqb_spec (length v) 16) as [Hlen|Hlen].
  - split; [exact Hlen|]. split; [reflexivity | apply uuid_String_length, Hlen].
  - split; [exact Hlen | reflexivity].
Qed.

(** C8. A UUID column reaches [toQValue] in the variable [processRows]
    allocates for it, a pointer to a byte slice. When the slice holds 16
    bytes the conversion succeeds; its result has the string kind, not
    the UUID kind, and its value is the canonical text of the UUID: 36
    characters, the hexadecimal digits of the bytes in groups of 8, 4, 4,
    4 and 12 separated by hyphens. The value is neither the byte slice
    nor an array of the bytes. *)
Theorem toQValue_uuid_canonical_text val :
  holds (scanTarget QValueKindUUID) val = true ->
  exists v,
    val = PtrBytes (Some v)
    /\ (length v = 16%nat ->
        exists q,
          toQValue QValueKindUUID val = Ok q
          /\ Kind _ _ _ _ q = QValueKindString
          /\ Kind _ _ _ _ q <> QValueKindUUID
          /\ Value _ _ _ _ q = GoString (uuid_String v)
          /\ Value _ _ _ _ q <> GoBytes v
          /\ Value _ _ _ _ q <> GoByteArray16 v
          /\ String.length (uuid_String v) = 36%nat
          /\ exists g1 g2 g3 g4 g5,
               uuid_String v = g1 ++ "-" ++ g2 ++ "-" ++ g3 ++ "-" ++ g4 ++ "-" ++ g5
               /\ hexEncode v = g1 ++ g2 ++ g3 ++ g4 ++ g5
               /\ String.length g1 = 8%nat /\ String.length g2 = 4%nat
               /\ String.length g3 = 4%nat /\ String.length g4 = 4%nat
               /\ String.length g5 = 12%nat).
Proof.
  intros Hholds. simpl in Hholds.
  destruct val; try discriminate Hholds. destruct p as [v|]; [|discriminate Hholds].
  exists v. split; [reflexivity|]. intros Hlen.
  exists {| Kind := QValueKindString; Value := GoString (uuid_String v) |}.
  split; [simpl; unfold uuid_FromBytes; rewrite Hlen; reflexivity|].
  split; [reflexivity|]. split; [discriminate|]. split; [reflexivity|].
  split; [discriminate|]. split; [discriminate|].
  split; [apply uuid_String_length, Hlen|].
  exists (hexEncode (take 4 v)), (hexEncode (take 2 (drop 4 v))),
    (hexEncode (take 2 (drop 6 v))), (hexEncode (take 2 (drop 8 v))),
    (hexEncode (drop 10 v)).
  split; [reflexivity|]. split.
  - rewrite <- !hexEncode_app. f_equal.
    replace (drop 10 v) with (drop 2 (drop 8 v)) by (rewrite drop_drop; reflexivity).
    rewrite take_drop.
    replace (drop 8 v) with (drop 2 (drop 6 v)) by (rewrite drop_drop; reflexivity).
    rewrite take_drop.
    replace (drop 6 v) with (drop 2 (drop 4 v)) by (rewrite drop_drop; reflexivity).
    rewrite !take_drop. reflexivity.
  - rewrite !hexEncode_length, !length_take, !length_drop, Hlen. repeat split.
Qed.

Ltac in_scannable :=
  unfold scannableKinds; repeat (first [apply list_elem_of_here | apply list_elem_of_further]).

Ltac not_scannable H :=
  unfold scannableKinds in H;
  repeat (apply elem_of_cons in H as [H|H]; [discriminate H|]); inversion H.

(** X17. The variable [processRows] allocates for a kind and hands to
    [rows.Scan] is accepted by [toQValue] only for the kinds of
    [scannableKinds]: for every other kind (int16, for which a variable is
    allocated, the character kind, the array kinds, the geometric kinds
    and any further kind) the conversion of the scanned variable is an
    error. It panics for no kind but JSON, and for the kinds other than
    numeric, UUID and JSON of [scannableKinds] it succeeds with that
    kind. *)
Theorem toQValue_of_scanned_value kind val :
  holds (scanTarget kind) val = true ->
  (kind ∉ scannableKinds -> exists e, toQValue kind val = Err e)
  /\ (toQValue kind val = Panic -> kind = QValueKindJSON)
  /\ (kind ∈ scannableKinds ->
      kind <> QValueKindNumeric -> kind <> QValueKindUUID -> kind <> QValueKindJSON ->
      exists q, toQValue kind val = Ok q /\ Kind _ _ _ _ q = kind).
Proof.
  intros Hholds.
  destruct kind; simpl in Hholds;
    try (destruct (String.eqb name "int16"); simpl in Hholds);
    destruct val; try discriminate Hholds;
    try (destruct p as [[[] ?]|]; try discriminate Hholds);
    try (destruct p as [?|]; try discriminate Hholds);
    (split;
     [ intros Hnot;
       first [ solve [simpl; eexists; reflexivity]
             | solve [exfalso; apply Hnot; in_scannable] ]
     | split;
       [ first [ solve [intros _; reflexivity]
               | solve [simpl; try destruct (Rat_SetString _);
                        try destruct (uuid_FromBytes _); discriminate] ]
       | intros Hin Hnumeric Huuid Hjson;
         first [ congruence
               | solve [simpl; eexists; split; reflexivity]
               | solve [not_scannable Hin] ] ] ]).
Qed.

Lemma toQFields_result dbColTypes :
  (Forall (fun ct => is_Some (dbtypeToQValueKind !! DatabaseTypeName ct)) dbColTypes
   /\ exists qfields,
        toQFields dbColTypes = Ok qfields
        /\ map qf_Name qfields = map ct_Name dbColTypes
        /\ map (fun f => Some (qf_Type f)) qfields
           = map (fun ct => dbtypeToQValueKind !! DatabaseTypeName ct) dbColTypes)
  \/ (exists before ct after,
        dbColTypes = (before ++ ct :: after)%list
        /\ Forall (fun ct => is_Some (dbtypeToQValueKind !! DatabaseTypeName ct)) before
        /\ dbtypeToQValueKind !! DatabaseTypeName ct = None
        /\ toQFields dbColTypes = Err (ErrUnsupportedDatabaseType _ _ _ _ (DatabaseTypeName ct))).
Proof.
  induction dbColTypes as [|ct rest IH]; simpl.
  - left. split; [constructor|]. exists []. auto.
  - unfold columnTypeToQField.
    destruct (dbtypeToQValueKind !! DatabaseTypeName ct) as [qvKind|] eqn:Hct.
    + destruct (ct_Nullable ct) as [nullable ok].
      destruct IH as [[Hall (qfields & -> & Hnames & Hkinds)]
                     | (before & bad & after & -> & Hbefore & Hbad & ->)].
      * left. split; [constructor; [rewrite Hct; eexists; reflexivity | exact Hall]|].
        eexists. split; [reflexivity|]. simpl. rewrite Hnames, Hkinds. auto.
      * right. exists (ct :: before), bad, after. split; [reflexivity|].
        split; [constructor; [rewrite Hct; eexists; reflexivity | exact Hbefore]|]. auto.
    + right. exists [], ct, rest. split; [reflexivity|]. split; [constructor|]. auto.
Qed.

Lemma convertValues_Ok qfields values : forall i qValues,
  convertValues qfields i values = Ok qValues ->
  Forall2 (fun val qv => True) values qValues
  /\ forall j val, values !! j = Some val ->
       exists qfield qv,
         qfields !! (i + j)%nat = Some qfield /\ qValues !! j = Some qv
         /\ toQValue (qf_Type qfield) val = Ok qv.
Proof.
  induction values as [|val rest IH]; intros i qValues; simpl.
  - intros [= <-]. split; [constructor|]. intros j val Hj. rewrite lookup_nil in Hj. discriminate.
  - destruct (qfields !! i) as [qfield|] eqn:Hfield; [|discriminate].
    destruct (toQValue (qf_Type qfield) val) as [qv| |] eqn:Hqv; [|discriminate|discriminate].
    destruct (convertValues qfields (S i) rest) as [qs| |] eqn:Hrest; [|discriminate|discriminate].
    intros [= <-]. destruct (IH _ _ Hrest) as [Hlen Hall]. split; [constructor; auto|].
    intros [|j] val' Hj; simpl in Hj.
    + injection Hj as <-. exists qfield, qv. rewrite Nat.add_0_r. auto.
    + destruct (Hall j val' Hj) as (f & q & Hf & Hq & Hconv).
      exists f, q. rewrite Nat.add_succ_r. auto.
Qed.

Lemma readRows_Ok qfields rows : forall records result,
  readRows qfields rows records = Ok result ->
  exists converted,
    result = (records ++ converted)%list
    /\ Forall2 (fun row qValues =>
                  exists values, row = Scanned _ _ _ _ values
                    /\ convertValues qfields 0 values = Ok qValues) rows converted.
Proof.
  induction rows as [|row rest IH]; intros records result; simpl.
  - intros [= <-]. exists []. split; [symmetry; apply app_nil_r | constructor].
  - destruct row as [|columns|values]; [discriminate| |].
    + destruct (columns <=? length qfields)%nat; discriminate.
    + destruct (length values <=? length qfields)%nat; [|discriminate].
      destruct (convertValues qfields 0 values) as [qValues| |] eqn:Hconv;
        [|discriminate|discriminate].
      intros Hrest. apply IH in Hrest as (converted & -> & Hall).
      exists (qValues :: converted). split; [rewrite <- app_assoc; reflexivity|].
      constructor; [|exact Hall]. exists values. auto.
Qed.

(** X18. A batch returned by [processRows] has one record for each row
    the database delivered, in their order; its schema has one field for
    each column type, with the name of the column and the kind the
    executor's table gives for its database type; and the i-th value of
    every record is the conversion, by [toQValue] at the kind of the i-th
    field, of the i-th scanned variable of its row. *)
Theorem processRows_batch_shape dbColTypes rows rowsErr batch :
  processRows (Some dbColTypes) rows rowsErr = Ok batch ->
  rowsErr = false
  /\ map qf_Name (Schema _ _ _ _ batch) = map ct_Name dbColTypes
  /\ map (fun f => Some (qf_Type f)) (Schema _ _ _ _ batch)
     = map (fun ct => dbtypeToQValueKind !! DatabaseTypeName ct) dbColTypes
  /\ Forall2 (fun row qValues =>
                exists values,
                  row = Scanned _ _ _ _ values
                  /\ length qValues = length values
                  /\ forall i val, values !! i = Some val ->
                       exists qfield qv,
                         Schema _ _ _ _ batch !! i = Some qfield
                         /\ qValues !! i = Some qv
                         /\ toQValue (qf_Type qfield) val = Ok qv)
             rows (Records _ _ _ _ batch).
Proof.
  unfold PeerSQLRows.processRows.
  destruct (toQFields_result dbColTypes)
    as [[_ (qfields & -> & Hnames & Hkinds)] | (before & ct & after & _ & _ & _ & ->)];
    [|discriminate].
  destruct (readRows qfields rows []) as [records| |] eqn:Hrows; [|discriminate|discriminate].
  destruct rowsErr; [discriminate|]. intros [= <-]. simpl.
  split; [reflexivity|]. split; [exact Hnames|]. split; [exact Hkinds|].
  apply readRows_Ok in Hrows as (converted & -> & Hall). simpl.
  eapply Forall2_impl; [exact Hall|].
  intros row qValues (values & -> & Hconv). exists values. split; [reflexivity|].
  apply convertValues_Ok in Hconv as [Hlen Hvals].
  split; [symmetry; eapply Forall2_length; exact Hlen | exact Hvals].
Qed.

(** X19. When the executor's table has no kind for the database type of
    a column, [processRows] fails with the name of the first such type,
    whatever rows the query delivers: no row is converted. *)
Theorem processRows_unsupported_database_type before ct after rows rowsErr :
  Forall (fun ct => is_Some (dbtypeToQValueKind !! DatabaseTypeName ct)) before ->
  dbtypeToQValueKind !! DatabaseTypeName ct = None ->
  processRows (Some (before ++ ct :: after)%list) rows rowsErr
  = Err (ErrUnsupportedDatabaseType _ _ _ _ (DatabaseTypeName ct)).
Proof.
  intros Hbefore Hct. unfold PeerSQLRows.processRows.
  assert (H : toQFields (before ++ ct :: after)%list
              = Err (ErrUnsupportedDatabaseType _ _ _ _ (DatabaseTypeName ct))).
  { induction Hbefore as [|c before [kind Hc] _ IH]; simpl.
    - unfold columnTypeToQField. rewrite Hct. reflexivity.
    - unfold columnTypeToQField at 1. rewrite Hc. destruct (ct_Nullable c).
      rewrite IH. reflexivity. }
  rewrite H. reflexivity.
Qed.

End Rows.

(** X14 at the example: two float64 elements. *)
Lemma toQValueArray_copies_or_panics_witness :
  QValueKindArrayFloat64 ∈ copiedArrayKinds
  /\ toQValueArray string string string string QValueKindArrayFloat64
       (SliceInterface [GoFloat64 "1.5"; GoFloat64 "2.5"])
     = Ok {| Kind := QValueKindArrayFloat64; Value := SliceFloat64 ["1.5"; "2.5"] |}
  /\ sliceElements string string string string (SliceFloat64 ["1.5"; "2.5"])
     = Some [GoFloat64 "1.5"; GoFloat64 "2.5"].
Proof.
  assert (H1 : QValueKindArrayFloat64 ∈ copiedArrayKinds)
    by (apply list_elem_of_In; simpl; auto).
  pose proof (toQValueArray_copies_or_panics string string string string
                QValueKindArrayFloat64 [GoFloat64 "1.5"; GoFloat64 "2.5"] H1) as H.
  destruct H as [_ Helements].
  split; [exact H1|]. split; [reflexivity | exact Helements].
Defined.

(** C8 at the 16 bytes 0x10 .. 0x1f, scanned into the byte slice of a
    UUID column: the result is the text
    10111213-1415-1617-1819-1a1b1c1d1e1f under the string kind. *)
Lemma toQValue_uuid_canonical_text_witness :
  holds string string string string (scanTarget QValueKindUUID)
    (PtrBytes (Some Examples.uuidBytes)) = true
  /\ length Examples.uuidBytes = 16%nat
  /\ Examples.convert QValueKindUUID (PtrBytes (Some Examples.uuidBytes))
     = Ok {| Kind := QValueKindString;
             Value := GoString "10111213-1415-1617-1819-1a1b1c1d1e1f" |}.
Proof.
  assert (H1 : holds string string string string (scanTarget QValueKindUUID)
                 (PtrBytes (Some Examples.uuidBytes)) = true) by reflexivity.
  assert (H2 : length Examples.uuidBytes = 16%nat) by reflexivity.
  split; [exact H1|]. split; [exact H2|].
  destruct (toQValue_uuid_canonical_text string string string string (fun x => x) Some
              Examples.exampleUnmarshal (PtrBytes (Some Examples.uuidBytes)) H1)
    as (v & [= <-] & Hconv).
  destruct (Hconv H2) as (q & Hq & _). unfold Examples.convert. rewrite Hq.
  vm_compute in Hq. injection Hq as <-. reflexivity.
Defined.

(** X17 at the variable allocated for an int16 column. *)
Lemma toQValue_of_scanned_value_witness :
  holds string string string string (scanTarget QValueKindInt16) Scenarios.int16Variable
  = true
  /\ exists e, Examples.convert QValueKindInt16 Scenarios.int16Variable = Err e.
Proof.
  assert (H1 : holds string string string string (scanTarget QValueKindInt16)
                 Scenarios.int16Variable = true) by reflexivity.
  split; [exact H1|].
  destruct (toQValue_of_scanned_value string string string string (fun x => x) Some
              Examples.exampleUnmarshal QValueKindInt16 Scenarios.int16Variable H1)
    as (Herr & _).
  apply Herr. intros Hin. unfold scannableKinds in Hin.
  repeat (apply elem_of_cons in Hin as [Hin|Hin]; [discriminate Hin|]). inversion Hin.
Defined.

(** X18 at the example: one row of an integer and a text column. *)
Lemma processRows_batch_shape_witness :
  exists batch,
    Scenarios.processQueryRows (Some [Scenarios.idColumn; Scenarios.nameColumn])
      [Scenarios.scannedRow] false = Ok batch
    /\ map qf_Name (Schema _ _ _ _ batch) = ["id"; "name"]
    /\ length (Records _ _ _ _ batch) = 1%nat.
Proof.
  eexists. split; [vm_compute; reflexivity|].
  match goal with
  | |- map qf_Name (Schema _ _ _ _ ?batch) = _ /\ _ =>
      destruct (processRows_batch_shape string string string string (fun x => x) Some
                  Examples.exampleUnmarshal Scenarios.dbTypes
                  [Scenarios.idColumn; Scenarios.nameColumn] [Scenarios.scannedRow]
                  false batch ltac:(vm_compute; reflexivity))
        as (_ & Hnames & _ & Hrows)
  end.
  split; [exact Hnames|]. symmetry. exact (Forall2_length _ _ _ Hrows).
Defined.

(** X19 at the example: a column of a type the table does not list. *)
Lemma processRows_unsupported_database_type_witness :
  Scenarios.dbTypes !! DatabaseTypeName Scenarios.pointColumn = None
  /\ Scenarios.processQueryRows
       (Some [Scenarios.idColumn; Scenarios.pointColumn; Scenarios.nameColumn])
       [Scenarios.scannedRow] false
     = Err (ErrUnsupportedDatabaseType _ _ _ _ "POINT").
Proof.
  assert (H1 : Forall (fun ct => is_Some (Scenarios.dbTypes !! DatabaseTypeName ct))
                      [Scenarios.idColumn]).
  { constructor; [|constructor]. exists QValueKindInt32. vm_compute. reflexivity. }
  assert (H2 : Scenarios.dbTypes !! DatabaseTypeName Scenarios.pointColumn = None)
    by (vm_compute; reflexivity).
  split; [exact H2|].
  exact (processRows_unsupported_database_type string string string string (fun x => x) Some
           Examples.exampleUnmarshal Scenarios.dbTypes [Scenarios.idColumn]
           Scenarios.pointColumn [Scenarios.nameColumn] [Scenarios.scannedRow] false H1 H2).
Defined.

End PeerSQLRowsFacts.

(** ** Runs of the query replication workflows *)
Module WorkflowFacts.

Import Go GoFacts GoFormatFacts QRep QRepFacts.
Local Open Scope string_scope.
Local Open Scope Z_scope.

Lemma substring_all (s : string) : String.substring 0 (String.length s) s = s.
Proof. induction s as [|a s IH]; [reflexivity|]. simpl. rewrite IH. reflexivity. Qed.

Lemma substring_append_prefix (s t : string) :
  String.substring 0 (String.length s) (s ++ t) = s.
Proof.
  induction s as [|a s IH]; simpl.
  - destruct t; reflexivity.
  - rewrite IH. reflexivity.
Qed.

Lemma substring_append_suffix (s t : string) :
  String.substring (String.length s) (String.length t) (s ++ t) = t.
Proof.
  induction s as [|a s IH]; simpl.
  - apply substring_all.
  - exact IH.
Qed.

(** [strings.TrimSuffix] removes a suffix that was appended. *)
Lemma TrimSuffix_append s suffix : TrimSuffix (s ++ suffix) suffix = s.
Proof.
  unfold TrimSuffix. rewrite append_length.
  replace (String.length s + String.length suffix - String.length suffix)%nat
    with (String.length s) by lia.
  rewrite substring_append_suffix, String.eqb_refl, substring_append_prefix.
  destruct (Nat.leb_spec (String.length suffix) (String.length s + String.length suffix));
    [reflexivity | lia].
Qed.

Lemma with_destination_same config :
  with_destination config (DestinationTableIdentifier config) = config.
Proof. destruct config; reflexivity. Qed.

Lemma with_destination_twice config a b :
  with_destination (with_destination config a) b = with_destination config b.
Proof. reflexivity. Qed.

(** The two resync handlers of a run, one after the other: the
    configuration comes back as it was and [NeedsResync] is cleared. *)
Lemma resync_round_trip config state created renamed config1 config2 state2 :
  handleTableCreationForResync config state created = Ok config1 ->
  handleTableRenameForResync config1 state renamed = Ok (config2, state2) ->
  config2 = config
  /\ NeedsResync state2 = false
  /\ LastPartition state2 = LastPartition state
  /\ NumPartitionsProcessed state2 = NumPartitionsProcessed state
  /\ DisableWaitForNewRows state2 = DisableWaitForNewRows state
  /\ CurrentFlowStatus state2 = CurrentFlowStatus state.
Proof.
  unfold handleTableCreationForResync, handleTableRenameForResync, resyncRequested.
  destruct (NeedsResync state); simpl.
  - destruct (DstTableFullResync config) eqn:Hfull.
    + destruct created; [|discriminate]. intros [= <-]. simpl. rewrite Hfull.
      destruct renamed; [|discriminate]. intros [= <- <-]. simpl.
      rewrite TrimSuffix_append, with_destination_twice, with_destination_same. auto 6.
    + intros [= <-]. rewrite Hfull. intros [= <- <-]. auto 6.
  - intros [= <-]. intros [= <- <-]. auto 6.
Qed.

Lemma chunkPartitions_empty maxParallelWorkers :
  chunkPartitions maxParallelWorkers [] = Some Panic.
Proof.
  unfold chunkPartitions, DivCeil. simpl.
  destruct (maxParallelWorkers =? 0); reflexivity.
Qed.

Lemma chunkPartitions_nonempty maxParallelWorkers partitions :
  1 <= maxParallelWorkers ->
  partitions <> [] ->
  Z.of_nat (length partitions) <= 2 ^ 62 ->
  exists batches, chunkPartitions maxParallelWorkers partitions = Some (Ok batches).
Proof.
  intros HW Hne Hbound.
  assert (Hlen : 1 <= Z.of_nat (length partitions)).
  { destruct partitions; [congruence|]. simpl length. lia. }
  destruct (DivCeil_ceiling _ maxParallelWorkers Hlen HW Hbound) as (c & Hdiv & Hc & _).
  destruct (batchLoop_chunks partitions c (length partitions)
              ltac:(lia) ltac:(lia) Hbound 0 [] ltac:(lia) ltac:(lia))
    as (rest & Hloop & _).
  exists rest. unfold chunkPartitions. rewrite Hdiv. unfold div64.
  destruct (Z.eqb_spec c 0); [lia|]. exact Hloop.
Qed.

Lemma chunkPartitions_chunks maxParallelWorkers partitions :
  1 <= maxParallelWorkers ->
  partitions <> [] ->
  Z.of_nat (length partitions) <= 2 ^ 62 ->
  exists chunks,
    chunkPartitions maxParallelWorkers partitions = Some (Ok chunks)
    /\ concat chunks = partitions
    /\ 1 <= Z.of_nat (length chunks) <= maxParallelWorkers.
Proof.
  intros HW Hne Hbound.
  assert (Hlen : 1 <= Z.of_nat (length partitions)).
  { destruct partitions; [congruence|]. simpl length. lia. }
  destruct (DivCeil_ceiling _ maxParallelWorkers Hlen HW Hbound) as (c & Hdiv & Hc & Hceil).
  destruct (batchLoop_chunks partitions c (length partitions)
              ltac:(lia) ltac:(lia) Hbound 0 [] ltac:(lia) ltac:(lia))
    as (rest & Hloop & Hconcat & _ & Hcount & Hsome).
  exists rest. split; [|split].
  - unfold chunkPartitions. rewrite Hdiv. unfold div64.
    destruct (Z.eqb_spec c 0); [lia|]. exact Hloop.
  - rewrite Hconcat. reflexivity.
  - assert (Hrest : rest <> []) by (apply Hsome; lia).
    destruct Hcount as [->|Hcount]; [congruence|].
    split; [destruct rest; [congruence | simpl length; lia] | nia].
Qed.

Lemma makeBatches_Partitions chunks : map Partitions (makeBatches chunks) = chunks.
Proof.
  unfold makeBatches. change (map Partitions ?l) with (Partitions <$> l).
  rewrite fmap_imap.
  rewrite (imap_ext _ (const id) chunks) by reflexivity.
  rewrite imap_const. apply list_fmap_id.
Qed.

Lemma makeBatches_BatchId chunks :
  Z.of_nat (length chunks) < 2 ^ 31 ->
  map BatchId (makeBatches chunks)
  = map (fun i => Z.of_nat i + 1) (seq 0 (length chunks)).
Proof.
  intros Hlen. unfold makeBatches. change (map BatchId ?l) with (BatchId <$> l).
  rewrite fmap_imap.
  rewrite (imap_ext _ (fun i _ => Z.of_nat i + 1) chunks).
  - apply imap_seq_0.
  - intros i parts Hi. simpl. apply lookup_lt_Some in Hi.
    unfold int32_of. rewrite Z.mod_small by lia. lia.
Qed.

(** X25. For a non-empty list of partitions and between 1 and 2^31 - 1
    workers, [processPartitions] starts between 1 and [maxParallelWorkers]
    child workflows; their batches are numbered 1, 2, ... and, taken in
    that order, hold every partition exactly once and in the order of the
    list. It returns nil exactly when every child workflow succeeds and
    the error of the wait otherwise; it does not panic. *)
Theorem processPartitions_hands_out_every_partition
    childSucceeds maxParallelWorkers partitions :
  1 <= maxParallelWorkers < 2 ^ 31 ->
  partitions <> [] ->
  Z.of_nat (length partitions) <= 2 ^ 62 ->
  exists chunks,
    chunkPartitions maxParallelWorkers partitions = Some (Ok chunks)
    /\ 1 <= Z.of_nat (length (makeBatches chunks)) <= maxParallelWorkers
    /\ concat (map Partitions (makeBatches chunks)) = partitions
    /\ map BatchId (makeBatches chunks)
       = map (fun i => Z.of_nat i + 1) (seq 0 (length chunks))
    /\ processPartitions childSucceeds maxParallelWorkers partitions
       = (if forallb childSucceeds (makeBatches chunks)
          then Some (Ok tt)
          else Some (Err "failed to wait for child workflow"))
    /\ (processPartitions childSucceeds maxParallelWorkers partitions = Some (Ok tt)
        <-> Forall (fun batch => childSucceeds batch = true) (makeBatches chunks)).
Proof.
  intros HW Hne Hbound.
  destruct (chunkPartitions_chunks maxParallelWorkers partitions ltac:(lia) Hne Hbound)
    as (chunks & Hchunks & Hconcat & Hcount).
  exists chunks. split; [exact Hchunks|].
  assert (Hrun : processPartitions childSucceeds maxParallelWorkers partitions
                 = if forallb childSucceeds (makeBatches chunks)
                   then Some (Ok tt)
                   else Some (Err "failed to wait for child workflow")).
  { unfold processPartitions. rewrite Hchunks. reflexivity. }
  split; [unfold makeBatches; rewrite length_imap; exact Hcount|].
  split; [rewrite makeBatches_Partitions; exact Hconcat|].
  split; [apply makeBatches_BatchId; lia|].
  split; [exact Hrun|].
  rewrite Hrun. destruct (forallb childSucceeds (makeBatches chunks)) eqn:Hall.
  - split; [|reflexivity]. intros _. apply Forall_forall. intros batch Hin.
    rewrite forallb_forall in Hall. apply Hall. apply list_elem_of_In. exact Hin.
  - split; [discriminate|]. intros HForall. exfalso.
    assert (Htrue : forallb childSucceeds (makeBatches chunks) = true).
    { apply forallb_forall. intros batch Hin. rewrite Forall_forall in HForall.
      apply HForall. apply list_elem_of_In. exact Hin. }
    congruence.
Qed.

Lemma maxParallelWorkersOf_positive config : 1 <= maxParallelWorkersOf config.
Proof.
  unfold maxParallelWorkersOf.
  destruct (Z.ltb_spec 0 (MaxParallelWorkers config)); lia.
Qed.

Lemma handleTableCreationForResync_no_panic config state created :
  handleTableCreationForResync config state created <> Panic.
Proof.
  unfold handleTableCreationForResync.
  destruct (resyncRequested config state); [destruct created|]; discriminate.
Qed.

Lemma handleTableRenameForResync_no_panic config state renamed :
  handleTableRenameForResync config state renamed <> Panic.
Proof.
  unfold handleTableRenameForResync.
  destruct (resyncRequested config state); [destruct renamed|]; discriminate.
Qed.

Ltac split_step :=
  match goal with
  | |- context [if ?b then _ else _] => destruct b
  | |- context [match ?x with _ => _ end] => destruct x
  end.

Section Workflows.
Variable FlowSignalHandler : CDCFlowSignal -> CDCFlowSignal -> CDCFlowSignal.

Abbreviation QRepFlowWorkflow := (QRepFlowWorkflow FlowSignalHandler).
Abbreviation XminFlowWorkflow := (XminFlowWorkflow FlowSignalHandler).
Abbreviation handleSignalsAndContinue := (handleSignalsAndContinue FlowSignalHandler).
Abbreviation pausedLoop := (pausedLoop FlowSignalHandler).

(** What a continuation of the signal handling carries. *)
Lemma handleSignalsAndContinue_continues config state chan config' state' :
  handleSignalsAndContinue config state chan = ContinueAsNew config' state' ->
  config' = config
  /\ cancelledAtEnd chan = false
  /\ (state' = state \/ state' = with_status state STATUS_PAUSED).
Proof.
  unfold QRep.handleSignalsAndContinue.
  destruct (bool_decide _).
  - destruct (pausedLoop _ _); try discriminate.
    destruct (cancelledAtEnd chan); [discriminate|]. intros [= <- <-]. auto.
  - destruct (cancelledAtEnd chan); [discriminate|]. intros [= <- <-]. auto.
Qed.

(** X20. A run of [QRepFlowWorkflow] that continues as new hands over the
    configuration it was started with, also after a resync has redirected
    it to the shadow table and back, and a state in which [NeedsResync] is
    cleared, the last partition is the last of the partitions of the run,
    the number of partitions processed has grown by their number (as a
    [uint64]) and the wait flag is unchanged; the run had at least one
    partition, was not an initial copy and was not cancelled. *)
Theorem QRepFlowWorkflow_continuation run config state config' state' :
  QRepFlowWorkflow run config state = ContinueAsNew config' state' ->
  config' = config
  /\ NeedsResync state' = false
  /\ InitialCopyOnly config = false
  /\ cancelledAtEnd (signalChan run) = false
  /\ DisableWaitForNewRows state' = DisableWaitForNewRows state
  /\ exists partitions lastPartition,
       GetQRepPartitions run = Some partitions
       /\ last partitions = Some lastPartition
       /\ LastPartition state' = Some lastPartition
       /\ NumPartitionsProcessed state'
          = (NumPartitionsProcessed state + Z.of_nat (length partitions)) mod 2 ^ 64.
Proof.
  unfold QRep.QRepFlowWorkflow.
  destruct (negb (setWorkflowQueries run)); [discriminate|].
  destruct (negb (SetUpdateHandler run)); [discriminate|].
  destruct (negb (SetupWatermarkTableOnDestination run config)); [discriminate|].
  destruct (negb (SetupQRepMetadataTables run)); [discriminate|].
  destruct (handleTableCreationForResync config state (CreateTablesFromExisting run))
    as [config1| |] eqn:Hcreate; [|discriminate|discriminate].
  destruct (GetQRepPartitions run) as [partitions|]; [|discriminate].
  destruct (processPartitions _ _ partitions) as [[[]| |]|] eqn:Hprocess; try discriminate.
  destruct (negb (consolidatePartitions run)); [discriminate|].
  assert (Hcopy : InitialCopyOnly config1 = InitialCopyOnly config).
  { unfold handleTableCreationForResync in Hcreate.
    destruct (resyncRequested config state); [destruct (CreateTablesFromExisting run)|];
      try discriminate; injection Hcreate as <-; reflexivity. }
  destruct (InitialCopyOnly config1) eqn:Hinitial; [discriminate|].
  destruct (handleTableRenameForResync config1 state _) as [[config2 state2]| |] eqn:Hrename;
    [|discriminate|discriminate].
  destruct (resync_round_trip _ _ _ _ _ _ _ Hcreate Hrename)
    as (-> & Hresync & Hlast & Hnum & Hwait & _).
  destruct (negb (DisableWaitForNewRows (checkpoint state2 partitions))
            && negb (QRepWaitUntilNewRows run)); [discriminate|].
  intros Hcontinue.
  apply handleSignalsAndContinue_continues in Hcontinue as (-> & Hctx & Hstate).
  assert (Hne : exists lastPartition, last partitions = Some lastPartition).
  { destruct partitions as [|p rest] using rev_ind.
    - unfold processPartitions in Hprocess. rewrite chunkPartitions_empty in Hprocess.
      discriminate.
    - exists p. apply last_snoc. }
  destruct Hne as [lastPartition Hlastp].
  split; [reflexivity|].
  assert (Hfields : NeedsResync state' = false
            /\ DisableWaitForNewRows state' = DisableWaitForNewRows state
            /\ LastPartition state' = Some lastPartition
            /\ NumPartitionsProcessed state'
               = (NumPartitionsProcessed state + Z.of_nat (length partitions)) mod 2 ^ 64).
  { destruct Hstate as [-> | ->]; simpl; rewrite Hlastp, Hresync, Hwait, Hnum; auto. }
  destruct Hfields as (H1 & H2 & H3 & H4).
  split; [exact H1|]. split; [congruence|]. split; [exact Hctx|]. split; [exact H2|].
  exists partitions, lastPartition. auto.
Qed.

(** X21. A run of [XminFlowWorkflow] that continues as new hands over the
    configuration it was started with and a state in which [NeedsResync]
    is cleared, the last partition is the xmin the replication returned,
    under the run id, and the number of partitions processed and the wait
    flag are unchanged. *)
Theorem XminFlowWorkflow_continuation run config state config' state' :
  XminFlowWorkflow run config state = ContinueAsNew config' state' ->
  config' = config
  /\ NeedsResync state' = false
  /\ InitialCopyOnly config = false
  /\ cancelledAtEnd (signalChan run) = false
  /\ NumPartitionsProcessed state' = NumPartitionsProcessed state
  /\ DisableWaitForNewRows state' = DisableWaitForNewRows state
  /\ exists lastPartition,
       ReplicateXminPartition run = Some lastPartition
       /\ LastPartition state'
          = Some {| PartitionId := originalRunID run;
                    Range := Some (IntPartitionRange lastPartition 0) |}.
Proof.
  unfold QRep.XminFlowWorkflow.
  destruct (negb (setWorkflowQueries run)); [discriminate|].
  destruct (negb (SetupWatermarkTableOnDestination run config)); [discriminate|].
  destruct (negb (SetupQRepMetadataTables run)); [discriminate|].
  destruct (handleTableCreationForResync config state (CreateTablesFromExisting run))
    as [config1| |] eqn:Hcreate; [|discriminate|discriminate].
  destruct (ReplicateXminPartition run) as [lastPartition|]; [|discriminate].
  destruct (negb (consolidatePartitions run)); [discriminate|].
  assert (Hcopy : InitialCopyOnly config1 = InitialCopyOnly config).
  { unfold handleTableCreationForResync in Hcreate.
    destruct (resyncRequested config state); [destruct (CreateTablesFromExisting run)|];
      try discriminate; injection Hcreate as <-; reflexivity. }
  destruct (InitialCopyOnly config1) eqn:Hinitial; [discriminate|].
  destruct (handleTableRenameForResync config1 state _) as [[config2 state2]| |] eqn:Hrename;
    [|discriminate|discriminate].
  destruct (resync_round_trip _ _ _ _ _ _ _ Hcreate Hrename)
    as (-> & Hresync & Hlast & Hnum & Hwait & _).
  intros Hcontinue.
  apply handleSignalsAndContinue_continues in Hcontinue as (-> & Hctx & Hstate).
  split; [reflexivity|].
  assert (Hfields : NeedsResync state' = false
            /\ NumPartitionsProcessed state' = NumPartitionsProcessed state
            /\ DisableWaitForNewRows state' = DisableWaitForNewRows state
            /\ LastPartition state'
               = Some {| PartitionId := originalRunID run;
                         Range := Some (IntPartitionRange lastPartition 0) |}).
  { destruct Hstate as [-> | ->]; simpl; auto. }
  destruct Hfields as (H1 & H2 & H3 & H4).
  split; [exact H1|]. split; [congruence|]. split; [exact Hctx|].
  split; [exact H2|]. split; [exact H3|]. exists lastPartition. auto.
Qed.

(** X22. [QRepFlowWorkflow] panics exactly when its set-up succeeds and
    the source reports no partition to replicate: the chunk size of an
    empty partition list is zero, and sizing the batches divides by it. *)
Theorem QRepFlowWorkflow_panics_without_partitions run config state :
  (forall partitions, GetQRepPartitions run = Some partitions ->
     Z.of_nat (length partitions) <= 2 ^ 62) ->
  QRepFlowWorkflow run config state = Panicked
  <-> (setWorkflowQueries run = true
       /\ SetUpdateHandler run = true
       /\ SetupWatermarkTableOnDestination run config = true
       /\ SetupQRepMetadataTables run = true
       /\ (resyncRequested config state = true -> CreateTablesFromExisting run = true)
       /\ GetQRepPartitions run = Some []).
Proof.
  intros Hbound. unfold QRep.QRepFlowWorkflow.
  destruct (setWorkflowQueries run); simpl; [|split; [discriminate | intros (? & _); discriminate]].
  destruct (SetUpdateHandler run); simpl;
    [|split; [discriminate | intros (_ & ? & _); discriminate]].
  destruct (SetupWatermarkTableOnDestination run config); simpl;
    [|split; [discriminate | intros (_ & _ & ? & _); discriminate]].
  destruct (SetupQRepMetadataTables run); simpl;
    [|split; [discriminate | intros (_ & _ & _ & ? & _); discriminate]].
  unfold handleTableCreationForResync.
  destruct (resyncRequested config state) eqn:Hresync.
  - destruct (CreateTablesFromExisting run);
      [|split; [discriminate | intros (_ & _ & _ & _ & H & _); specialize (H eq_refl); discriminate]].
    destruct (GetQRepPartitions run) as [[|p rest]|] eqn:Hparts;
      [|
      |split; [discriminate | intros (_ & _ & _ & _ & _ & ?); discriminate]].
    + unfold processPartitions. rewrite chunkPartitions_empty. split; auto 10.
    + split; [|intros (_ & _ & _ & _ & _ & ?); discriminate].
      unfold processPartitions.
      destruct (chunkPartitions_nonempty (maxParallelWorkersOf config) (p :: rest)
                  (maxParallelWorkersOf_positive config) ltac:(discriminate)
                  (Hbound _ eq_refl)) as [batches ->].
      unfold handleTableRenameForResync, QRep.handleSignalsAndContinue.
      repeat (first [ discriminate | split_step ]).
  - destruct (GetQRepPartitions run) as [[|p rest]|] eqn:Hparts;
      [|
      |split; [discriminate | intros (_ & _ & _ & _ & _ & ?); discriminate]].
    + unfold processPartitions. rewrite chunkPartitions_empty.
      split; [|reflexivity]. intros _. repeat split; auto. discriminate.
    + split; [|intros (_ & _ & _ & _ & _ & ?); discriminate].
      unfold processPartitions.
      destruct (chunkPartitions_nonempty (maxParallelWorkersOf config) (p :: rest)
                  (maxParallelWorkersOf_positive config) ltac:(discriminate)
                  (Hbound _ eq_refl)) as [batches ->].
      unfold handleTableRenameForResync, QRep.handleSignalsAndContinue.
      repeat (first [ discriminate | split_step ]).
Qed.

(** X23. With [InitialCopyOnly] set, neither workflow continues as new or
    waits in the paused loop: a run returns after the consolidation, or
    fails or panics before it. *)
Theorem initial_copy_never_continues run config state :
  InitialCopyOnly config = true ->
  endsEarly (QRepFlowWorkflow run config state)
  /\ endsEarly (XminFlowWorkflow run config state).
Proof.
  intros Hcopy.
  assert (Hcreate : forall created config1,
            handleTableCreationForResync config state created = Ok config1 ->
            InitialCopyOnly config1 = true).
  { intros created config1. unfold handleTableCreationForResync.
    destruct (resyncRequested config state); [destruct created|];
      try discriminate; intros [= <-]; exact Hcopy. }
  unfold endsEarly, QRep.QRepFlowWorkflow, QRep.XminFlowWorkflow. split.
  - destruct (negb (setWorkflowQueries run)); [eauto|].
    destruct (negb (SetUpdateHandler run)); [eauto|].
    destruct (negb (SetupWatermarkTableOnDestination run config)); [eauto|].
    destruct (negb (SetupQRepMetadataTables run)); [eauto|].
    destruct (handleTableCreationForResync config state (CreateTablesFromExisting run))
      as [config1| |] eqn:Hc; [|eauto|eauto].
    rewrite (Hcreate _ _ Hc).
    destruct (GetQRepPartitions run); [|eauto].
    destruct (processPartitions _ _ _) as [[[]| |]|]; eauto.
    destruct (negb (consolidatePartitions run)); eauto.
  - destruct (negb (setWorkflowQueries run)); [eauto|].
    destruct (negb (SetupWatermarkTableOnDestination run config)); [eauto|].
    destruct (negb (SetupQRepMetadataTables run)); [eauto|].
    destruct (handleTableCreationForResync config state (CreateTablesFromExisting run))
      as [config1| |] eqn:Hc; [|eauto|eauto].
    rewrite (Hcreate _ _ Hc).
    destruct (ReplicateXminPartition run); [|eauto].
    destruct (negb (consolidatePartitions run)); eauto.
Qed.

(** X24. The paused loop ends with a resume only through a delivered
    signal that the handler maps to something other than the pause: the
    deliveries before it are timeouts without cancellation or signals the
    handler keeps paused. *)
Theorem pausedLoop_resumes_on_signal deliveries activeSignal :
  pausedLoop PauseSignal deliveries = Resumed activeSignal ->
  activeSignal <> PauseSignal
  /\ exists waited val rest,
       deliveries = (waited ++ Received val :: rest)%list
       /\ FlowSignalHandler PauseSignal val = activeSignal
       /\ Forall (fun r => r = TimedOut false
                           \/ exists v, r = Received v
                                /\ FlowSignalHandler PauseSignal v = PauseSignal) waited.
Proof.
  induction deliveries as [|r rest IH]; simpl.
  - change (bool_decide (PauseSignal = PauseSignal)) with true. discriminate.
  - change (bool_decide (PauseSignal = PauseSignal)) with true. cbv iota.
    destruct r as [val|[|]]; [| discriminate |].
    + destruct (decide (FlowSignalHandler PauseSignal val = PauseSignal)) as [Hkeep|Hleave].
      * rewrite Hkeep. intros Hloop. destruct (IH Hloop) as (Hne & waited & v & rest' & -> & Hv & Hall).
        split; [exact Hne|]. exists (Received val :: waited), v, rest'.
        split; [reflexivity|]. split; [exact Hv|]. constructor; [|exact Hall].
        right. exists val. auto.
      * destruct rest; simpl; rewrite (bool_decide_eq_false_2 _ Hleave);
          intros [= <-]; (split; [exact Hleave|]); eexists [], val, _;
          (split; [reflexivity|]); (split; [reflexivity | constructor]).
    + intros Hloop. destruct (IH Hloop) as (Hne & waited & v & rest' & -> & Hv & Hall).
      split; [exact Hne|]. exists (TimedOut false :: waited), v, rest'.
      split; [reflexivity|]. split; [exact Hv|]. constructor; [|exact Hall]. left. reflexivity.
Qed.

End Workflows.

(** X20 at the example: a first run with full resync over seven
    partitions. *)
Lemma QRepFlowWorkflow_continuation_witness :
  exists state',
    QRepFlowWorkflow latestWins (Scenarios.steadyRun Examples.sevenPartitions)
      Scenarios.resyncConfig NewQRepFlowState
    = ContinueAsNew Scenarios.resyncConfig state'
    /\ NeedsResync state' = false
    /\ NumPartitionsProcessed state' = 7.
Proof.
  eexists. split; [vm_compute; reflexivity|].
  match goal with
  | |- NeedsResync ?state' = false /\ _ =>
      destruct (QRepFlowWorkflow_continuation latestWins
                  (Scenarios.steadyRun Examples.sevenPartitions) Scenarios.resyncConfig
                  NewQRepFlowState Scenarios.resyncConfig state'
                  ltac:(vm_compute; reflexivity))
        as (_ & Hresync & _ & _ & _ & partitions & lastPartition & Hparts & _ & _ & Hnum)
  end.
  split; [exact Hresync|]. rewrite Hnum. injection Hparts as <-. reflexivity.
Defined.

(** X21 at the example: a first run with full resync. *)
Lemma XminFlowWorkflow_continuation_witness :
  exists state',
    XminFlowWorkflow latestWins (Scenarios.steadyRun []) Scenarios.resyncConfig
      NewQRepFlowState
    = ContinueAsNew Scenarios.resyncConfig state'
    /\ LastPartition state'
       = Some {| PartitionId := "run-1"; Range := Some (IntPartitionRange 742 0) |}.
Proof.
  eexists. split; [vm_compute; reflexivity|].
  match goal with
  | |- LastPartition ?state' = _ =>
      destruct (XminFlowWorkflow_continuation latestWins (Scenarios.steadyRun [])
                  Scenarios.resyncConfig NewQRepFlowState Scenarios.resyncConfig state'
                  ltac:(vm_compute; reflexivity))
        as (_ & _ & _ & _ & _ & _ & lastPartition & Hxmin & Hlast)
  end.
  rewrite Hlast. injection Hxmin as <-. reflexivity.
Defined.

(** X22 at the example: every activity succeeds and the source reports
    no partition. *)
Lemma QRepFlowWorkflow_panics_without_partitions_witness :
  QRepFlowWorkflow latestWins (Scenarios.steadyRun []) Examples.plainConfig NewQRepFlowState
  = Panicked.
Proof.
  assert (Hbound : forall partitions,
            GetQRepPartitions (Scenarios.steadyRun []) = Some partitions ->
            Z.of_nat (length partitions) <= 2 ^ 62).
  { intros partitions [= <-]. simpl. lia. }
  apply (QRepFlowWorkflow_panics_without_partitions latestWins (Scenarios.steadyRun [])
           Examples.plainConfig NewQRepFlowState Hbound).
  repeat split; reflexivity.
Defined.

(** X23 at the example: an initial copy of seven partitions returns. *)
Lemma initial_copy_never_continues_witness :
  InitialCopyOnly Scenarios.initialCopyConfig = true
  /\ endsEarly (QRepFlowWorkflow latestWins (Scenarios.steadyRun Examples.sevenPartitions)
                  Scenarios.initialCopyConfig NewQRepFlowState).
Proof.
  assert (H1 : InitialCopyOnly Scenarios.initialCopyConfig = true) by reflexivity.
  split; [exact H1|].
  exact (proj1 (initial_copy_never_continues latestWins
                  (Scenarios.steadyRun Examples.sevenPartitions)
                  Scenarios.initialCopyConfig NewQRepFlowState H1)).
Defined.

(** X24 at the example: a timeout, then the resume. *)
Lemma pausedLoop_resumes_on_signal_witness :
  pausedLoop latestWins PauseSignal (deliveries Examples.pauseThenResume)
  = Resumed NoopSignal
  /\ NoopSignal <> PauseSignal.
Proof.
  assert (H1 : pausedLoop latestWins PauseSignal (deliveries Examples.pauseThenResume)
               = Resumed NoopSignal) by reflexivity.
  split; [exact H1|].
  exact (proj1 (pausedLoop_resumes_on_signal latestWins
                  (deliveries Examples.pauseThenResume) NoopSignal H1)).
Defined.

(** X25 at the example: seven partitions for three workers whose child
    workflows all succeed. *)
Lemma processPartitions_hands_out_every_partition_witness :
  Examples.sevenPartitions <> []
  /\ processPartitions (fun _ => true) 3 Examples.sevenPartitions = Some (Ok tt).
Proof.
  assert (H1 : 1 <= 3 < 2 ^ 31) by lia.
  assert (H2 : Examples.sevenPartitions <> []) by discriminate.
  assert (H3 : Z.of_nat (length Examples.sevenPartitions) <= 2 ^ 62) by (simpl; lia).
  split; [exact H2|].
  destruct (processPartitions_hands_out_every_partition (fun _ => true) 3
              Examples.sevenPartitions H1 H2 H3) as (chunks & _ & _ & _ & _ & _ & Hiff).
  apply Hiff. apply Forall_forall. reflexivity.
Defined.

End WorkflowFacts.
